(** * Sql-backup: dump and restore of MySQL and Postgres databases

    A shallow embedding of the dump/restore core of the repository
    (src/backup/mysql_backup.py, src/backup/postgres_backup.py,
    src/restore/mysql_restore.py, src/restore/postgres_restore.py) and the
    properties of its value encoder, its backup orchestration and its
    restore script splitter.

    Conventions of the embedding:
    - a Python [str] is a [string]; its characters stand for code points;
    - a Python exception is a value of [exn]; code that can raise returns
      a [result];
    - the database server is a record of answers to the queries that the
      code sends through its cursor. *)

From Stdlib Require Import String Ascii List ZArith Bool Arith Lia.
From Stdlib Require Import Strings.Byte DecimalString.
Import ListNotations.

Local Open Scope list_scope.
Local Open Scope string_scope.

(* ================================================================= *)
(** * Exceptions and the error monad *)

(** Python exceptions that the modelled code raises or lets through.
    [DriverFault] stands for [pymysql.MySQLError] / [psycopg2.Error] and
    carries the driver's message.  The three domain errors of
    configuration_files/exceptions.py carry, as [cause], the exception
    they were raised [from]. *)
Inductive exn : Type :=
| DriverFault (msg : string)
| TypeError (msg : string)
| KeyError (key : string)
| ValueError (msg : string)
| OSError (msg : string)
| DatabaseConnectionError (host user : string) (cause : exn)
| BackupError (message : string) (cause : exn)
| RestoreError (message : string) (cause : exn).

Inductive result (A : Type) : Type :=
| Ok (a : A)
| Raise (e : exn).
Arguments Ok {A} a.
Arguments Raise {A} e.

Definition bind {A B} (m : result A) (k : A -> result B) : result B :=
  match m with
  | Ok a => k a
  | Raise e => Raise e
  end.

Notation "x <- m ;; k" := (bind m (fun x => k))
  (at level 61, m at next level, right associativity).
Notation "' pat <- m ;; k" := (bind m (fun x => match x with pat => k end))
  (at level 61, pat pattern, m at next level, right associativity).

(** [try: body except DriverError as e: handler e].  Only a driver fault
    is caught; every other exception propagates. *)
Definition try_except_driver {A} (body : result A) (handler : exn -> result A)
  : result A :=
  match body with
  | Raise (DriverFault m) => handler (DriverFault m)
  | r => r
  end.

(** [str(e)] of an exception: its message. *)
Definition str_exn (e : exn) : string :=
  match e with
  | DriverFault m => m
  | TypeError m => m
  | KeyError k => "'" ++ k ++ "'"
  | ValueError m => m
  | OSError m => m
  | DatabaseConnectionError host user _ =>
      "Failed to connect to the database at " ++ host ++ " with user " ++ user ++ "."
  | BackupError m _ => m
  | RestoreError m _ => m
  end.

(** The newline and the tab character, as one-character strings. *)
Definition nl : string := String (ascii_of_nat 10) EmptyString.
Definition tab : string := String (ascii_of_nat 9) EmptyString.

(** [for x in xs: acc = f acc x], stopping at the first exception. *)
Fixpoint foldM {A B} (f : A -> B -> result A) (acc : A) (xs : list B)
  : result A :=
  match xs with
  | [] => Ok acc
  | x :: rest => acc' <- f acc x ;; foldM f acc' rest
  end.

(** [[f x for x in xs]], stopping at the first exception. *)
Fixpoint mapM {A B} (f : A -> result B) (xs : list A) : result (list B) :=
  match xs with
  | [] => Ok []
  | x :: rest => y <- f x ;; ys <- mapM f rest ;; Ok (y :: ys)
  end.

(* ================================================================= *)
(** * Python string primitives *)

Module PyStr.

(** [s.replace(old, new)] for a non-empty [old]: occurrences are found
    left to right and do not overlap.  [skip] counts the characters of
    the occurrence just replaced that are still to be consumed. *)
Fixpoint replace_from (old new : string) (skip : nat) (s : string) : string :=
  match s with
  | EmptyString => EmptyString
  | String c rest =>
      match skip with
      | S k => replace_from old new k rest
      | O =>
          if prefix old s
          then new ++ replace_from old new (String.length old - 1) rest
          else String c (replace_from old new 0 rest)
      end
  end.

(** With an empty [old] Python inserts [new] before every character and
    at the end. *)
Fixpoint intersperse_all (new s : string) : string :=
  match s with
  | EmptyString => new
  | String c rest => new ++ String c (intersperse_all new rest)
  end.

Definition replace (old new s : string) : string :=
  match old with
  | EmptyString => intersperse_all new s
  | _ => replace_from old new 0 s
  end.

(** [s.split(sep)] for a non-empty [sep] (Python raises ValueError on an
    empty one; the source only passes [';']).  The result is never
    empty: a text without separator is returned as its only fragment. *)
Fixpoint split_from (sep : string) (skip : nat) (s : string) : list string :=
  match s with
  | EmptyString => [EmptyString]
  | String c rest =>
      match skip with
      | S k => split_from sep k rest
      | O =>
          if prefix sep s
          then EmptyString :: split_from sep (String.length sep - 1) rest
          else match split_from sep 0 rest with
               | h :: t => String c h :: t
               | [] => [String c EmptyString]
               end
      end
  end.

Definition split (sep s : string) : list string := split_from sep 0 s.

(** [sep.join(items)]. *)
Definition join (sep : string) (items : list string) : string :=
  String.concat sep items.

(** [sub in s]. *)
Fixpoint contains (sub s : string) : bool :=
  prefix sub s ||
  match s with
  | EmptyString => false
  | String _ rest => contains sub rest
  end.

(** Characters that [str.strip()] removes (code points below 256). *)
Definition is_space (c : ascii) : bool :=
  let n := nat_of_ascii c in
  (((9 <=? n) && (n <=? 13)) || ((28 <=? n) && (n <=? 32))
   || (n =? 133) || (n =? 160))%nat.

Fixpoint lstrip (s : string) : string :=
  match s with
  | EmptyString => EmptyString
  | String c rest => if is_space c then lstrip rest else s
  end.

Definition rev_string (s : string) : string :=
  string_of_list_ascii (rev (list_ascii_of_string s)).

Definition strip (s : string) : string :=
  rev_string (lstrip (rev_string (lstrip s))).

(** Truth value of a string: non-empty. *)
Definition truthy (s : string) : bool :=
  match s with
  | EmptyString => false
  | _ => true
  end.

(** [str(n)] of an integer. *)
Definition str_Z (z : Z) : string := NilZero.string_of_int (Z.to_int z).

Fixpoint zeros (n : nat) : string :=
  match n with
  | O => EmptyString
  | S k => String "0" (zeros k)
  end.

(** [s.zfill(width)] on an unsigned numeral: what [%0<width>d] prints. *)
Definition zfill (width : nat) (s : string) : string :=
  zeros (width - String.length s) ++ s.

Definition hex_digit (n : nat) : ascii :=
  match get n "0123456789abcdef" with
  | Some c => c
  | None => "0"%char
  end.

(** Two lower-case hexadecimal digits of a byte. *)
Definition hex_byte (b : byte) : string :=
  let n := Byte.to_nat b in
  String (hex_digit (n / 16)) (String (hex_digit (n mod 16)) EmptyString).

(** [b.hex()]. *)
Fixpoint hex (b : list byte) : string :=
  match b with
  | [] => EmptyString
  | x :: rest => hex_byte x ++ hex rest
  end.

End PyStr.

(* ================================================================= *)
(** * Python values as the drivers hand them to the encoders *)

(** [datetime.date] and [datetime.datetime] (naive). *)
Record date : Type := mkDate { year : Z; month : Z; day : Z }.

Record datetime : Type := mkDatetime {
  dt_date : date;
  hour : Z;
  minute : Z;
  second : Z;
  microsecond : Z
}.

(** A value of a fetched row.  Objects whose [str()] the model does not
    compute (floats, lists, memoryviews, Decimal, timedelta, ...) carry
    the text that [str()] returns for them; an object of a class that
    the encoders do not test for also carries the name of its type, as
    error messages print it ([decimal.Decimal], [datetime.timedelta]). *)
#[warning="-register-all"]
Inductive pyvalue : Type :=
| VNone
| VStr (s : string)
| VBool (b : bool)
| VInt (z : Z)
| VFloat (text : string)
| VDatetime (t : datetime)
| VDate (d : date)
| VBytes (b : list byte)
| VList (items : list pyvalue) (text : string)
| VMemoryview (text : string)
| VOther (type_name : string) (text : string).

Inductive pyclass : Type :=
| c_str | c_bool | c_int | c_float | c_datetime | c_date | c_bytes
| c_list | c_memoryview.

(** [isinstance(value, cls)].  Two subclass relations of Python matter
    here: [bool] is a subclass of [int], and [datetime] is a subclass
    of [date]. *)
Definition isinstance (value : pyvalue) (cls : pyclass) : bool :=
  match value, cls with
  | VStr _, c_str => true
  | VBool _, c_bool => true
  | VBool _, c_int => true
  | VInt _, c_int => true
  | VFloat _, c_float => true
  | VDatetime _, c_datetime => true
  | VDatetime _, c_date => true
  | VDate _, c_date => true
  | VBytes _, c_bytes => true
  | VList _ _, c_list => true
  | VMemoryview _, c_memoryview => true
  | _, _ => false
  end.

Definition is_None (value : pyvalue) : bool :=
  match value with
  | VNone => true
  | _ => false
  end.

Module PyTime.
Import PyStr.

(** The fields a format directive can print. *)
Record fields : Type := mkFields {
  f_year : Z; f_month : Z; f_day : Z;
  f_hour : Z; f_minute : Z; f_second : Z
}.

Definition fields_of_date (d : date) : fields :=
  mkFields (year d) (month d) (day d) 0 0 0.

Definition fields_of_datetime (t : datetime) : fields :=
  mkFields (year (dt_date t)) (month (dt_date t)) (day (dt_date t))
           (hour t) (minute t) (second t).

(** One directive of [strftime].  [%Y] is the year in four digits, as
    the C library prints the years from 1000 on; the others are two
    digits wide.  Below the year 1000 the C library decides whether
    [%Y] is padded with zeros (glibc prints 999, not 0999): the model
    is [strftime] for the years 1000 to 9999 only, and every lemma on
    the literals of dates has [valid_date] as a hypothesis. *)
Definition directive (f : fields) (d : ascii) : string :=
  match d with
  | "Y"%char => zfill 4 (str_Z (f_year f))
  | "m"%char => zfill 2 (str_Z (f_month f))
  | "d"%char => zfill 2 (str_Z (f_day f))
  | "H"%char => zfill 2 (str_Z (f_hour f))
  | "M"%char => zfill 2 (str_Z (f_minute f))
  | "S"%char => zfill 2 (str_Z (f_second f))
  | "%"%char => "%"
  | _ => String "%" (String d EmptyString)
  end.

Fixpoint format (f : fields) (fmt : string) : string :=
  match fmt with
  | EmptyString => EmptyString
  | String c rest =>
      match c, rest with
      | "%"%char, String d rest' => directive f d ++ format f rest'
      | _, _ => String c (format f rest)
      end
  end.

(** [date.isoformat()], which is [str(date)]. *)
Definition isoformat_date (d : date) : string :=
  zfill 4 (str_Z (year d)) ++ "-" ++ zfill 2 (str_Z (month d)) ++ "-"
  ++ zfill 2 (str_Z (day d)).

Definition isoformat_time (t : datetime) : string :=
  zfill 2 (str_Z (hour t)) ++ ":" ++ zfill 2 (str_Z (minute t)) ++ ":"
  ++ zfill 2 (str_Z (second t)).

(** [str(datetime)] is [isoformat(sep=' ')]: the microseconds are
    printed when they are not zero. *)
Definition str_datetime (t : datetime) : string :=
  isoformat_date (dt_date t) ++ " " ++ isoformat_time t
  ++ (if (microsecond t =? 0)%Z then EmptyString
      else "." ++ zfill 6 (str_Z (microsecond t))).

(** The ranges of the fields, for the years of four digits ([MAXYEAR]
    is 9999). *)
Definition valid_date (d : date) : Prop :=
  (1000 <= year d <= 9999 /\ 1 <= month d <= 12 /\ 1 <= day d <= 31)%Z.

Definition valid_datetime (t : datetime) : Prop :=
  valid_date (dt_date t) /\
  (0 <= hour t < 24 /\ 0 <= minute t < 60 /\ 0 <= second t < 60)%Z.

End PyTime.

Module PyBytes.
Import PyStr.

(** The double quote character. *)
Definition dquote : ascii := ascii_of_nat 34.

Definition byte_is (c : ascii) (b : byte) : bool :=
  (Byte.to_nat b =? nat_of_ascii c)%nat.

(** One byte inside [repr(bytes)]. *)
Definition repr_byte (quote : ascii) (b : byte) : string :=
  let n := Byte.to_nat b in
  if byte_is quote b || byte_is "\"%char b
  then String "\" (String (ascii_of_nat n) EmptyString)
  else if (n =? 9)%nat then "\t"
  else if (n =? 10)%nat then "\n"
  else if (n =? 13)%nat then "\r"
  else if ((n <? 32) || (127 <=? n))%nat then "\x" ++ hex_byte b
  else String (ascii_of_nat n) EmptyString.

Fixpoint repr_body (quote : ascii) (b : list byte) : string :=
  match b with
  | [] => EmptyString
  | x :: rest => repr_byte quote x ++ repr_body quote rest
  end.

(** [repr(b)], which is [str(b)]: the double quote is used when the
    bytes contain a single quote and no double quote. *)
Definition repr (b : list byte) : string :=
  let quote :=
    if existsb (byte_is "'"%char) b && negb (existsb (byte_is dquote) b)
    then dquote else "'"%char in
  "b" ++ String quote (repr_body quote b) ++ String quote EmptyString.

End PyBytes.

(** [str(value)]. *)
Definition str (value : pyvalue) : string :=
  match value with
  | VNone => "None"
  | VStr s => s
  | VBool true => "True"
  | VBool false => "False"
  | VInt z => PyStr.str_Z z
  | VFloat text => text
  | VDatetime t => PyTime.str_datetime t
  | VDate d => PyTime.isoformat_date d
  | VBytes b => PyBytes.repr b
  | VList _ text => text
  | VMemoryview text => text
  | VOther _ text => text
  end.

(** [value.strftime(fmt)]; only dates and datetimes have the method, and
    the encoders call it behind an [isinstance] test. *)
Definition strftime (value : pyvalue) (fmt : string) : string :=
  match value with
  | VDatetime t => PyTime.format (PyTime.fields_of_datetime t) fmt
  | VDate d => PyTime.format (PyTime.fields_of_date d) fmt
  | _ => EmptyString
  end.

(** The truth value of a [bool] (the branch eliminated is only reached
    behind [isinstance(value, bool)]). *)
Definition truth (value : pyvalue) : bool :=
  match value with
  | VBool b => b
  | _ => true
  end.

Definition bytes_of (value : pyvalue) : list byte :=
  match value with
  | VBytes b => b
  | _ => []
  end.

Definition items_of (value : pyvalue) : list pyvalue :=
  match value with
  | VList items _ => items
  | _ => []
  end.

(** The name of the type of a value, as [str.join] prints it in its
    error message ([type(value)]'s [tp_name]). *)
Definition tp_name (value : pyvalue) : string :=
  match value with
  | VNone => "NoneType"
  | VStr _ => "str"
  | VBool _ => "bool"
  | VInt _ => "int"
  | VFloat _ => "float"
  | VDatetime _ => "datetime.datetime"
  | VDate _ => "datetime.date"
  | VBytes _ => "bytes"
  | VList _ _ => "list"
  | VMemoryview _ => "memoryview"
  | VOther type_name _ => type_name
  end.

(** The TypeError of [str.join] for the item at index [i]; the message
    is formatted with [%zd] and [%.80s]. *)
Definition join_error (i : Z) (item : pyvalue) : exn :=
  TypeError ("sequence item " ++ PyStr.str_Z i ++ ": expected str instance, "
             ++ substring 0 80 (tp_name item) ++ " found").

(** The items of [sep.join(items)], from index [i] on: the first item
    that is not a [str] raises. *)
Fixpoint join_items (i : Z) (items : list pyvalue) : result (list string) :=
  match items with
  | [] => Ok []
  | VStr s :: rest =>
      strs <- join_items (i + 1) rest ;;
      Ok (s :: strs)
  | item :: _ => Raise (join_error i item)
  end.

(** [sep.join(items)] on values: every item has to be a [str]. *)
Definition join_values (sep : string) (items : list pyvalue) : result string :=
  strs <- join_items 0 items ;;
  Ok (PyStr.join sep strs).

(* ================================================================= *)
(** * Python dictionaries with string keys

    A [dict] keeps its keys in insertion order, and assigning to a key
    that is present keeps the key's position. *)

Definition dict (V : Type) : Type := list (string * V).

Fixpoint dict_set {V} (d : dict V) (k : string) (v : V) : dict V :=
  match d with
  | [] => [(k, v)]
  | (k', v') :: rest =>
      if String.eqb k' k then (k', v) :: rest
      else (k', v') :: dict_set rest k v
  end.

Fixpoint dict_get {V} (d : dict V) (k : string) : option V :=
  match d with
  | [] => None
  | (k', v') :: rest => if String.eqb k' k then Some v' else dict_get rest k
  end.

(** [d[k]]: a missing key raises KeyError. *)
Definition dict_item {V} (d : dict V) (k : string) : result V :=
  match dict_get d k with
  | Some v => Ok v
  | None => Raise (KeyError k)
  end.

(** [d[k].append(v)] on a [defaultdict(list)]. *)
Definition defaultdict_append {V} (d : dict (list V)) (k : string) (v : V)
  : dict (list V) :=
  match dict_get d k with
  | Some vs => dict_set d k (vs ++ [v])%list
  | None => dict_set d k [v]
  end.

Definition dict_values {V} (d : dict V) : list V := map snd d.
Definition dict_items {V} (d : dict V) : list (string * V) := d.

(** [backup_type in ['structure', 'structure_data']] and
    [backup_type in ['data', 'structure_data']]; the MySQL code writes
    the same tests with [==] and [or]. *)
Definition wants_structure (backup_type : string) : bool :=
  String.eqb backup_type "structure" || String.eqb backup_type "structure_data".

Definition wants_data (backup_type : string) : bool :=
  String.eqb backup_type "data" || String.eqb backup_type "structure_data".

(* ================================================================= *)
(** * The MySQL family: mysql_backup.py *)

Module MySQL.
Import PyStr.

(** mysql_backup.py, [_format_value]. *)
Definition _format_value (value : pyvalue) : string :=
  if is_None value then "NULL"
  else if isinstance value c_str then
    "'" ++ replace "'" "''" (str value) ++ "'"
  else if isinstance value c_bool then
    (if truth value then "TRUE" else "FALSE")
  else if isinstance value c_datetime then
    "'" ++ strftime value "%Y-%m-%d %H:%M:%S" ++ "'"
  else if isinstance value c_int || isinstance value c_float then
    str value
  else if isinstance value c_bytes then
    "0x" ++ hex (bytes_of value)
  else
    "'" ++ replace "'" "''" (str value) ++ "'".

Definition _generate_backup_header : string := "
/*!40101 SET @OLD_CHARACTER_SET_CLIENT=@@CHARACTER_SET_CLIENT */;
/*!40101 SET @OLD_CHARACTER_SET_RESULTS=@@CHARACTER_SET_RESULTS */;
/*!40101 SET @OLD_COLLATION_CONNECTION=@@COLLATION_CONNECTION */;
/*!50503 SET NAMES utf8mb4 */;
/*!40103 SET @OLD_TIME_ZONE=@@TIME_ZONE */;
/*!40103 SET TIME_ZONE='+00:00' */;
/*!40014 SET @OLD_UNIQUE_CHECKS=@@UNIQUE_CHECKS, UNIQUE_CHECKS=0 */;
/*!40014 SET @OLD_FOREIGN_KEY_CHECKS=@@FOREIGN_KEY_CHECKS, FOREIGN_KEY_CHECKS=0 */;
/*!40101 SET @OLD_SQL_MODE=@@SQL_MODE, SQL_MODE='NO_AUTO_VALUE_ON_ZERO' */;
/*!40111 SET @OLD_SQL_NOTES=@@SQL_NOTES, SQL_NOTES=0 */;

".

Definition _generate_backup_footer : string := "
/*!40101 SET SQL_MODE=@OLD_SQL_MODE */;
/*!40014 SET FOREIGN_KEY_CHECKS=@OLD_FOREIGN_KEY_CHECKS */;
/*!40014 SET UNIQUE_CHECKS=@OLD_UNIQUE_CHECKS */;
/*!40101 SET CHARACTER_SET_CLIENT=@OLD_CHARACTER_SET_CLIENT */;
/*!40101 SET CHARACTER_SET_RESULTS=@OLD_CHARACTER_SET_RESULTS */;
/*!40101 SET COLLATION_CONNECTION=@OLD_COLLATION_CONNECTION */;
/*!40103 SET TIME_ZONE=@OLD_TIME_ZONE */;
/*!40111 SET SQL_NOTES=@OLD_SQL_NOTES */;
".

(** The server as the cursor of [MySQLBackup] sees it: the answer, or
    the driver fault, of each statement that [backup] executes. *)
Record server : Type := mkServer {
  (** [SELECT table_name, table_type FROM information_schema.tables
      WHERE table_schema=db_name] *)
  tables_all : result (list (string * string));
  (** the same with [AND table_name IN (tables)] *)
  tables_in : list string -> result (list (string * string));
  (** [SHOW CREATE TABLE `table`], column 1 of the row fetched *)
  show_create_table : string -> result string;
  (** [SELECT * FROM `table`]: the column names of
      [cursor.description] and the rows *)
  select_all : string -> result (list string * list (list pyvalue));
  (** [SHOW GRANTS FOR CURRENT_USER], column 0 of each row *)
  show_grants : result (list string);
  (** [cursor.close(); conn.close()] *)
  close : result unit
}.

(** The artifact: table name (and the keys ['permissions'] and
    ['footer']) to the list of text fragments. *)
Definition artifact : Type := dict (list string).

(** The fragment appended under [backup_type] structure. *)
Definition structure_fragment (table table_type create_table_statement : string)
  : string :=
  if String.eqb table_type "VIEW" then
    "-- Structure for view `" ++ table ++ "`" ++ nl ++ "DROP VIEW IF EXISTS `"
    ++ table ++ "`;" ++ nl ++ create_table_statement ++ ";" ++ nl ++ nl
  else
    "-- Table structure for table `" ++ table ++ "`" ++ nl ++ "DROP TABLE IF EXISTS `"
    ++ table ++ "`;" ++ nl ++ create_table_statement ++ ";" ++ nl ++ nl.

(** The fragment appended for the rows of a table: lock, one INSERT
    with all rows, unlock. *)
Definition data_fragment (table : string) (column_names : list string)
           (rows : list (list pyvalue)) : string :=
  let insert_statement_prefix :=
    "INSERT INTO `" ++ table ++ "` (`" ++ join "`, `" column_names ++ "`) VALUES " in
  let values_list :=
    map (fun row => "(" ++ join ", " (map _format_value row) ++ ")") rows in
  let insert_statement :=
    insert_statement_prefix ++ join ("," ++ nl) values_list ++ ";" ++ nl in
  let lock_tables := "LOCK TABLES `" ++ table ++ "` WRITE;" ++ nl in
  let unlock_tables := "UNLOCK TABLES;" ++ nl in
  "-- Data for table `" ++ table ++ "`" ++ nl ++ lock_tables ++ insert_statement
  ++ unlock_tables ++ nl ++ nl.

Definition permissions_fragment (grants : list string) : string :=
  "-- Permissions" ++ nl ++ join nl grants ++ nl ++ nl.

(** One turn of the loop over [all_tables]; the loop state is
    [backup_data] and [header_written]. *)
Definition backup_table (srv : server) (backup_type : string)
           (st : artifact * bool) (entry : string * string)
  : result (artifact * bool) :=
  let '(backup_data, header_written) := st in
  let '(table, table_type) := entry in
  let table_backup_data : list string := [] in
  let '(table_backup_data, header_written) :=
    if negb header_written
    then ((table_backup_data ++ [_generate_backup_header])%list, true)
    else (table_backup_data, header_written) in
  table_backup_data <-
    (if wants_structure backup_type then
       create_table_statement <- show_create_table srv table ;;
       Ok (table_backup_data
             ++ [structure_fragment table table_type create_table_statement])%list
     else Ok table_backup_data) ;;
  table_backup_data <-
    (if String.eqb table_type "BASE TABLE" && wants_data backup_type then
       '(column_names, rows) <- select_all srv table ;;
       match rows with
       | [] => Ok table_backup_data
       | _ => Ok (table_backup_data ++ [data_fragment table column_names rows])%list
       end
     else Ok table_backup_data) ;;
  Ok (dict_set backup_data table table_backup_data, header_written).

(** [MySQLBackup.backup]. *)
Definition backup (srv : server) (backup_type : string)
           (tables : option (list string)) (include_permissions : bool)
  : result artifact :=
  try_except_driver
    (all_tables <- match tables with
                   | None => tables_all srv
                   | Some ts => tables_in srv ts
                   end ;;
     '(backup_data, header_written) <-
        foldM (backup_table srv backup_type) ([], false) all_tables ;;
     backup_data <-
       (if include_permissions then
          grants <- show_grants srv ;;
          Ok (dict_set backup_data "permissions" [permissions_fragment grants])
        else Ok backup_data) ;;
     let backup_data :=
       if header_written
       then dict_set backup_data "footer" [_generate_backup_footer]
       else backup_data in
     _ <- close srv ;;
     Ok backup_data)
    (fun e => Raise (BackupError ("Error during backup: " ++ str_exn e) e)).

End MySQL.

(* ================================================================= *)
(** * The Postgres family: postgres_backup.py *)

Module Postgres.
Import PyStr.

(** postgres_backup.py, [format_value].  The inner test of the date
    branch is [isinstance(value, date)]. *)
Definition format_value (value : pyvalue) : result string :=
  if is_None value then Ok "NULL"
  else if isinstance value c_datetime || isinstance value c_date then
    (if isinstance value c_date
     then Ok ("'" ++ strftime value "%Y-%m-%d" ++ "'")
     else Ok ("'" ++ strftime value "%Y-%m-%d %H:%M:%S" ++ "'"))
  else if isinstance value c_list then
    body <- join_values "," (items_of value) ;;
    Ok ("'{" ++ body ++ "}'")
  else if isinstance value c_str then
    Ok ("'" ++ replace "'" "''" (str value) ++ "'")
  else if isinstance value c_memoryview then
    Ok "'<memory>'"
  else
    Ok (str value).

(** A foreign key row: constraint_name, table_name, column_name,
    foreign_table_name, foreign_column_name. *)
Record foreign_key : Type := mkFk {
  constraint_name : string;
  table_name : string;
  column_name : string;
  foreign_table_name : string;
  foreign_column_name : string
}.

(** A row of information_schema.columns: column_name, data_type,
    is_nullable, column_default (absent when NULL). *)
Record column : Type := mkColumn {
  col_name : string;
  data_type : string;
  is_nullable : string;
  col_default : option string
}.

(** A row of pg_sequences: start_value, increment_by, min_value,
    max_value, cache_size. *)
Record sequence_info : Type := mkSeq {
  start_value : Z;
  increment_by : Z;
  min_value : option Z;
  max_value : option Z;
  cache_size : Z
}.

Definition create_foreign_key_statement (foreign_keys : list foreign_key)
  : string :=
  let fk_statements :=
    map (fun fk =>
           "ALTER TABLE ONLY public." ++ table_name fk ++ " "
           ++ "ADD CONSTRAINT " ++ constraint_name fk ++ " "
           ++ "FOREIGN KEY (" ++ column_name fk ++ ") REFERENCES public."
           ++ foreign_table_name fk ++ "(" ++ foreign_column_name fk ++ ") "
           ++ "ON UPDATE CASCADE ON DELETE RESTRICT;")
        foreign_keys in
  join nl fk_statements.

Definition create_permission_statements (table : string)
           (permissions : list (string * string)) : string :=
  let permission_statements :=
    map (fun '(grantee, privilege_type) =>
           "GRANT " ++ privilege_type ++ " ON TABLE public." ++ table ++ " TO "
           ++ grantee ++ ";")
        permissions in
  join nl permission_statements.

Definition create_insert_statement (table : string)
           (columns : list (string * string)) (rows : list (list pyvalue))
  : result string :=
  let col_names := map fst columns in
  values_list <-
    mapM (fun row =>
            formatted <- mapM format_value row ;;
            Ok ("(" ++ join ", " formatted ++ ")"))
         rows ;;
  let values_str := join ("," ++ nl) values_list in
  Ok ("INSERT INTO public." ++ table ++ " (" ++ join ", " col_names ++ ") VALUES "
      ++ nl ++ values_str ++ ";").

Definition create_type_statement (type_name : string) (labels : list string)
  : string :=
  let drop_type_stmt := "DROP TYPE IF EXISTS public." ++ type_name ++ " CASCADE;" ++ nl in
  let create_type_stmt := "CREATE TYPE public." ++ type_name ++ " AS ENUM (" ++ nl in
  let create_type_stmt :=
    create_type_stmt
    ++ join ("," ++ nl) (map (fun label => "    '" ++ label ++ "'") labels) in
  let create_type_stmt := create_type_stmt ++ nl ++ ");" ++ nl in
  drop_type_stmt ++ create_type_stmt.

(** The server as the cursor of [PostgresBackup] sees it: the answer,
    or the driver fault, of each query that the class sends. *)
Record server : Type := mkServer {
  (** information_schema.tables for the schema public:
      (table_name, table_type) *)
  information_schema_tables : result (list (string * string));
  (** information_schema.columns of a table, by ordinal position *)
  information_schema_columns : string -> result (list column);
  (** the FOREIGN KEY constraints of a table *)
  foreign_key_rows : string -> result (list foreign_key);
  (** the PRIMARY KEY columns of a table, by ordinal position *)
  primary_key_rows : string -> result (list string);
  (** information_schema.sequences of the schema public *)
  sequence_rows : result (list string);
  (** the row of pg_sequences for a sequence, if there is one *)
  pg_sequences_row : string -> result (option sequence_info);
  (** the enum labels: (schema, type_name, enum_label), by type name
      and sort order *)
  enum_rows : result (list (string * string * string));
  (** [SELECT * FROM table;] *)
  select_all : string -> result (list (list pyvalue));
  (** information_schema.role_table_grants of a table:
      (grantee, privilege_type) *)
  role_table_grants : string -> result (list (string * string));
  (** [cursor.close(); conn.close()] *)
  close : result unit
}.

Definition get_table_definitions (srv : server) (table : string)
  : result (list column) :=
  information_schema_columns srv table.

Definition get_foreign_keys (srv : server) (table : string)
  : result (list foreign_key) :=
  foreign_key_rows srv table.

Definition get_primary_keys (srv : server) (table : string)
  : result (list string) :=
  primary_key_rows srv table.

Definition get_sequences (srv : server) : result (list string) :=
  sequence_rows srv.

Definition create_sequence_statement (srv : server) (sequence : string)
  : result string :=
  seq_info <- pg_sequences_row srv sequence ;;
  match seq_info with
  | None => Raise (TypeError "cannot unpack non-iterable NoneType object")
  | Some info =>
      let drop_sequence_stmt :=
        "DROP SEQUENCE IF EXISTS public." ++ sequence ++ " CASCADE;" ++ nl in
      let create_sequence_stmt := "CREATE SEQUENCE public." ++ sequence ++ nl in
      let create_sequence_stmt :=
        create_sequence_stmt ++ "    START WITH " ++ str_Z (start_value info) ++ nl in
      let create_sequence_stmt :=
        create_sequence_stmt ++ "    INCREMENT BY " ++ str_Z (increment_by info) ++ nl in
      let create_sequence_stmt :=
        create_sequence_stmt
        ++ match min_value info with
           | None => "    NO MINVALUE" ++ nl
           | Some v => "    MINVALUE " ++ str_Z v ++ nl
           end in
      let create_sequence_stmt :=
        create_sequence_stmt
        ++ match max_value info with
           | None => "    NO MAXVALUE" ++ nl
           | Some v => "    MAXVALUE " ++ str_Z v ++ nl
           end in
      let create_sequence_stmt :=
        create_sequence_stmt ++ "    CACHE " ++ str_Z (cache_size info) ++ ";" ++ nl in
      Ok (drop_sequence_stmt ++ create_sequence_stmt)
  end.

(** The definition of one column inside CREATE TABLE. *)
Definition column_definition (col : column) : string :=
  let '(data_type, col_default) :=
    if String.eqb (data_type col) "USER-DEFINED" then
      ("public.mpaa_rating", Some "'G'::public.mpaa_rating")
    else if contains "ARRAY" (data_type col) then
      ("text[]", col_default col)
    else if String.eqb (data_type col) "character" then
      ("character(100)", col_default col)
    else (data_type col, col_default col) in
  let col_def := tab ++ col_name col ++ " " ++ data_type in
  let col_def :=
    match col_default with
    | Some default =>
        if truthy default then
          let default :=
            if contains "nextval(" default
            then replace "nextval('" "nextval('public." default
            else default in
          col_def ++ " DEFAULT " ++ default
        else col_def
    | None => col_def
    end in
  if String.eqb (is_nullable col) "NO" then col_def ++ " NOT NULL" else col_def.

Definition create_table_statement (srv : server) (table : string)
           (columns : list column) : result string :=
  let create_table_stmt := "DROP TABLE IF EXISTS public." ++ table ++ " CASCADE;" ++ nl in
  let create_table_stmt := create_table_stmt ++ "CREATE TABLE public." ++ table ++ " (" ++ nl in
  primary_keys <- get_primary_keys srv table ;;
  let col_defs := map column_definition columns in
  let primary_key_def := tab ++ "PRIMARY KEY (" ++ join ", " primary_keys ++ ")" in
  let col_defs :=
    match primary_keys with
    | [] => col_defs
    | _ => (col_defs ++ [primary_key_def])%list
    end in
  Ok (create_table_stmt ++ join ("," ++ nl) col_defs ++ nl ++ ");" ++ nl).

Definition get_user_defined_types (srv : server) : result (dict (list string)) :=
  rows <- enum_rows srv ;;
  Ok (fold_left (fun types '(schema, type_name, enum_label) =>
                   defaultdict_append types type_name enum_label)
                rows []).

Definition get_table_permissions (srv : server) (table : string)
  : result (list (string * string)) :=
  role_table_grants srv table.

(** The fixed preamble of every script. *)
Definition preamble : string := "SET statement_timeout = 0;
SET lock_timeout = 0;
SET idle_in_transaction_session_timeout = 0;
SET client_encoding = 'UTF8';
SET standard_conforming_strings = on;
SELECT pg_catalog.set_config('search_path', '', false);
SET check_function_bodies = false;
SET xmloption = content;
SET client_min_messages = warning;
SET row_security = off;
".

(** Each [backup_sql += ...] of [backup] appends one piece of text; the
    model keeps, with the text, the place of the code that appended it. *)
Inductive origin : Type :=
| TypeStatement (type_name : string)
| SequenceStatement (sequence : string)
| TableStructure (table : string)
| TableData (table : string)
| ForeignKeys (table : string)
| Permissions (table : string).

Record piece : Type := mkPiece { piece_origin : origin; piece_text : string }.

(** The texts of the pieces, one after the other. *)
Definition text_of (pieces : list piece) : string :=
  String.concat EmptyString (map piece_text pieces).

(** The script: the preamble followed by the pieces in the order in
    which they were appended. *)
Definition render (pieces : list piece) : string :=
  preamble ++ text_of pieces.

(** "Retrieve list of tables to backup". *)
Definition target_tables (srv : server) (tables : option (list string))
  : result (list string * bool) :=
  match tables with
  | None =>
      rows <- information_schema_tables srv ;;
      Ok (map fst (filter (fun row => String.eqb (snd row) "BASE TABLE") rows), true)
  | Some ts => Ok (ts, false)
  end.

(** "Get table definitions and dependencies": fills [table_definitions]
    and [dependency_map]. *)
Definition gather_definitions (srv : server) (all_tables : list string)
  : result (dict (list column) * dict (list string)) :=
  foldM (fun '(table_definitions, dependency_map) table =>
           columns <- get_table_definitions srv table ;;
           let table_definitions := dict_set table_definitions table columns in
           foreign_keys <- get_foreign_keys srv table ;;
           let dependency_map :=
             fold_left (fun m fk => defaultdict_append m table (foreign_table_name fk))
                       foreign_keys dependency_map in
           Ok (table_definitions, dependency_map))
        ([], []) all_tables.

(** "Generate SQL for creating tables": the pieces, and
    [foreign_keys_to_add]. *)
Definition structure_phase (srv : server) (table_definitions : dict (list column))
           (sorted_tables : list string)
  : result (list piece * list (string * list foreign_key)) :=
  foldM (fun '(pieces, foreign_keys_to_add) table =>
           columns <- dict_item table_definitions table ;;
           stmt <- create_table_statement srv table columns ;;
           foreign_keys <- get_foreign_keys srv table ;;
           Ok ((pieces ++ [mkPiece (TableStructure table) (stmt ++ nl)])%list,
               (foreign_keys_to_add ++ [(table, foreign_keys)])%list))
        ([], []) sorted_tables.

(** "Generate SQL for table data". *)
Definition data_phase (srv : server) (sorted_tables : list string)
  : result (list piece) :=
  foldM (fun pieces table =>
           rows <- select_all srv table ;;
           cols <- information_schema_columns srv table ;;
           let columns := map (fun c => (col_name c, data_type c)) cols in
           match rows with
           | [] => Ok pieces
           | _ =>
               stmt <- create_insert_statement table columns rows ;;
               Ok (pieces ++ [mkPiece (TableData table) (stmt ++ nl)])%list
           end)
        [] sorted_tables.

(** "Generate SQL for adding foreign keys". *)
Definition foreign_key_phase (foreign_keys_to_add : list (string * list foreign_key))
  : list piece :=
  fold_left (fun pieces '(table, foreign_keys) =>
               match foreign_keys with
               | [] => pieces
               | _ => (pieces ++ [mkPiece (ForeignKeys table)
                                          (create_foreign_key_statement foreign_keys ++ nl)])%list
               end)
            foreign_keys_to_add [].

Definition permission_phase (srv : server) (sorted_tables : list string)
  : result (list piece) :=
  foldM (fun pieces table =>
           permissions <- get_table_permissions srv table ;;
           match permissions with
           | [] => Ok pieces
           | _ => Ok (pieces ++ [mkPiece (Permissions table)
                                         (create_permission_statements table permissions ++ nl)])%list
           end)
        [] sorted_tables.

(** [PostgresBackup.backup], as the list of the pieces appended to
    [backup_sql]. *)
Definition backup_pieces (srv : server) (backup_type : string)
           (tables : option (list string)) (include_permissions : bool)
  : result (list piece) :=
  '(all_tables, include_sequences_and_types) <- target_tables srv tables ;;
  (* total steps for the progress bar *)
  _ <- (if include_sequences_and_types then
          _ <- get_sequences srv ;; _ <- get_user_defined_types srv ;; Ok tt
        else Ok tt) ;;
  '(table_definitions, dependency_map) <- gather_definitions srv all_tables ;;
  '(sequences, user_defined_types) <-
     (if include_sequences_and_types then
        sequences <- get_sequences srv ;;
        user_defined_types <- get_user_defined_types srv ;;
        Ok (sequences, user_defined_types)
      else Ok ([], [])) ;;
  let sorted_tables := all_tables in
  let types_sql :=
    if wants_structure backup_type && include_sequences_and_types then
      map (fun '(type_name, labels) =>
             mkPiece (TypeStatement type_name)
                     (create_type_statement type_name labels ++ nl))
          (dict_items user_defined_types)
    else [] in
  sequences_sql <-
    (if wants_structure backup_type && include_sequences_and_types then
       mapM (fun sequence =>
               stmt <- create_sequence_statement srv sequence ;;
               Ok (mkPiece (SequenceStatement sequence) (stmt ++ nl)))
            sequences
     else Ok []) ;;
  '(tables_sql, foreign_keys_to_add) <-
     (if wants_structure backup_type
      then structure_phase srv table_definitions sorted_tables
      else Ok ([], [])) ;;
  data_sql <-
    (if wants_data backup_type then data_phase srv sorted_tables else Ok []) ;;
  let foreign_keys_sql :=
    if wants_structure backup_type then foreign_key_phase foreign_keys_to_add
    else [] in
  permissions_sql <-
    (if include_permissions then permission_phase srv sorted_tables else Ok []) ;;
  _ <- close srv ;;
  Ok (types_sql ++ sequences_sql ++ tables_sql ++ data_sql ++ foreign_keys_sql
      ++ permissions_sql)%list.

(** [PostgresBackup.backup]: the script returned. *)
Definition backup (srv : server) (backup_type : string)
           (tables : option (list string)) (include_permissions : bool)
  : result string :=
  pieces <- backup_pieces srv backup_type tables include_permissions ;;
  Ok (render pieces).

End Postgres.

(* ================================================================= *)
(** * backup_manager.py *)

Module BackupManager.

(** [self.backup_instance], as [__init__] builds it from [db_type]. *)
Inductive backup_instance : Type :=
| MySQLBackup (srv : MySQL.server)
| PostgresBackup (srv : Postgres.server).

(** What [backup] returns: the artifact of the family. *)
Inductive backup_data : Type :=
| Fragments (art : MySQL.artifact)
| Script (sql : string).

(** [isinstance(e, BackupManagerError)]: the domain errors of
    configuration_files/exceptions.py. *)
Definition is_backup_manager_error (e : exn) : bool :=
  match e with
  | DatabaseConnectionError _ _ _ | BackupError _ _ | RestoreError _ _ => true
  | _ => false
  end.

(** [BackupManager.backup]: the backup of the instance, with the domain
    errors raised again as BackupError. *)
Definition backup (instance : backup_instance) (backup_type : string)
           (tables : option (list string)) (include_permissions : bool)
  : result backup_data :=
  let body :=
    match instance with
    | MySQLBackup srv =>
        art <- MySQL.backup srv backup_type tables include_permissions ;;
        Ok (Fragments art)
    | PostgresBackup srv =>
        sql <- Postgres.backup srv backup_type tables include_permissions ;;
        Ok (Script sql)
    end in
  match body with
  | Ok data => Ok data
  | Raise e =>
      if is_backup_manager_error e
      then Raise (BackupError ("Failed to perform backup: " ++ str_exn e) e)
      else Raise e
  end.

End BackupManager.

(* ================================================================= *)
(** * RestoreReplayer *)

(** [xs[:-1]]: everything but the last element. *)
Definition drop_last {A} (xs : list A) : list A := removelast xs.

(** The text that [open(file_path, 'r', encoding='utf-8').read()]
    returns, or the exception it raises. *)
Definition filesystem : Type := string -> result string.

(** A file system in which every path holds [text]. *)
Definition file_holding (text : string) : filesystem := fun _ => Ok text.

(** mysql_restore.py and postgres_restore.py,
    [read_sql_commands_from_file]: the two static methods are the same
    code. *)
Definition read_sql_commands_from_file (fs : filesystem) (file_path : string)
  : result (list string) :=
  text <- fs file_path ;;
  Ok (drop_last (PyStr.split ";" text)).

Section Replay.

(** The open connection: [execute st command] is what
    [cursor.execute(command)] does to the server state [st], a new
    state or a driver fault. *)
Context {St : Type}.
Variable execute : St -> string -> result St.

(** mysql_restore.py, [MySQLBackupRestore.restore]. *)
Definition mysql_restore (sql_commands : list string) (st : St) : result St :=
  try_except_driver
    (foldM (fun st command =>
              if PyStr.truthy (PyStr.strip command)
              then execute st command
              else Ok st)
           st sql_commands)
    (fun e =>
       Raise (RestoreError
                ("An error occurred while restoring the database: " ++ str_exn e)
                e)).

(** postgres_restore.py, [PostgresBackupRestore.restore]. *)
Definition postgres_restore (sql_commands : list string) (st : St) : result St :=
  foldM execute st sql_commands.

(** restore_data.py, [restore_data], from the script on: read the
    commands, replay them.  [db_type] selects the family. *)
Definition restore_script (db_type : string) (fs : filesystem)
           (file_path : string) (st : St) : result St :=
  if String.eqb db_type "mysql" then
    sql_commands <- read_sql_commands_from_file fs file_path ;;
    mysql_restore sql_commands st
  else if String.eqb db_type "postgres" then
    sql_commands <- read_sql_commands_from_file fs file_path ;;
    postgres_restore sql_commands st
  else Raise (ValueError ("Unsupported database type: " ++ db_type)).

End Replay.

(* ================================================================= *)
(** * Vocabulary of the specification *)

Module Spec.

(** The body of a string literal: every single quote written twice. *)
Fixpoint double_quotes (s : string) : string :=
  match s with
  | EmptyString => EmptyString
  | String c rest =>
      if Ascii.eqb c "'" then String "'" (String "'" (double_quotes rest))
      else String c (double_quotes rest)
  end.

(** Re-parsing of the text that follows the opening quote of a literal:
    a doubled quote stands for one quote, a single one closes the
    literal and has to be its last character. *)
Fixpoint parse_body (s : string) : option string :=
  match s with
  | EmptyString => None
  | String c rest =>
      if Ascii.eqb c "'" then
        match rest with
        | EmptyString => Some EmptyString
        | String c' rest' =>
            if Ascii.eqb c' "'"
            then option_map (String "'") (parse_body rest')
            else None
        end
      else option_map (String c) (parse_body rest)
  end.

(** Re-parsing of a literal: strip the outer quotes, collapse each
    doubled quote. *)
Definition parse_literal (lit : string) : option string :=
  match lit with
  | String c rest => if Ascii.eqb c "'" then parse_body rest else None
  | EmptyString => None
  end.

Definition is_digit (c : ascii) : bool :=
  let n := nat_of_ascii c in ((48 <=? n) && (n <=? 57))%nat.

(** [has_shape pattern s]: [s] is [pattern] with a decimal digit in the
    place of each of the letters Y, M, D, H and S, and is the same
    character elsewhere. *)
Fixpoint has_shape (pattern s : string) : bool :=
  match pattern, s with
  | EmptyString, EmptyString => true
  | String p pattern', String c s' =>
      (if existsb (Ascii.eqb p) ["Y"; "M"; "D"; "H"; "S"]%char
       then is_digit c else Ascii.eqb p c)
      && has_shape pattern' s'
  | _, _ => false
  end.

(** [c] does not occur in [s]. *)
Fixpoint free_of (c : ascii) (s : string) : bool :=
  match s with
  | EmptyString => true
  | String c' rest => negb (Ascii.eqb c' c) && free_of c rest
  end.

(** The tables of the pieces of one kind, in the order of the script. *)
Definition structure_table (o : Postgres.origin) : list string :=
  match o with
  | Postgres.TableStructure t => [t]
  | _ => []
  end.

Definition foreign_key_table (o : Postgres.origin) : list string :=
  match o with
  | Postgres.ForeignKeys t => [t]
  | _ => []
  end.

Definition data_table (o : Postgres.origin) : list string :=
  match o with
  | Postgres.TableData t => [t]
  | _ => []
  end.

Definition structure_tables (pieces : list Postgres.piece) : list string :=
  flat_map structure_table (map Postgres.piece_origin pieces).

Definition foreign_key_tables (pieces : list Postgres.piece) : list string :=
  flat_map foreign_key_table (map Postgres.piece_origin pieces).

Definition data_tables (pieces : list Postgres.piece) : list string :=
  flat_map data_table (map Postgres.piece_origin pieces).

Definition is_sequence_or_type (o : Postgres.origin) : bool :=
  match o with
  | Postgres.TypeStatement _ | Postgres.SequenceStatement _ => true
  | _ => false
  end.

Definition is_foreign_keys (o : Postgres.origin) : bool :=
  match o with
  | Postgres.ForeignKeys _ => true
  | _ => false
  end.

Definition is_table_structure (o : Postgres.origin) : bool :=
  match o with
  | Postgres.TableStructure _ => true
  | _ => false
  end.

(** The foreign keys of a table in the catalog (none when the query
    fails). *)
Definition foreign_keys_of (srv : Postgres.server) (table : string)
  : list Postgres.foreign_key :=
  match Postgres.foreign_key_rows srv table with
  | Ok rows => rows
  | Raise _ => []
  end.

(** The table has at least one foreign key in the catalog. *)
Definition has_foreign_keys (srv : Postgres.server) (table : string) : bool :=
  match foreign_keys_of srv table with
  | [] => false
  | _ :: _ => true
  end.

(** [SELECT * FROM table;] returns at least one row. *)
Definition has_rows (srv : Postgres.server) (table : string) : bool :=
  match Postgres.select_all srv table with
  | Ok (_ :: _) => true
  | _ => false
  end.

(** The table has at least one grant in the catalog. *)
Definition has_grants (srv : Postgres.server) (table : string) : bool :=
  match Postgres.role_table_grants srv table with
  | Ok (_ :: _) => true
  | _ => false
  end.

(** The piece that the structure phase appends for a table, given
    [table_definitions]. *)
Definition structure_piece_of (srv : Postgres.server)
           (defs : dict (list Postgres.column))
           (table : string) (p : Postgres.piece) : Prop :=
  exists columns stmt,
    dict_item defs table = Ok columns
    /\ Postgres.create_table_statement srv table columns = Ok stmt
    /\ p = Postgres.mkPiece (Postgres.TableStructure table) (stmt ++ nl).

(** The pieces that the foreign key phase appends for one entry of
    [foreign_keys_to_add]. *)
Definition foreign_key_piece (entry : string * list Postgres.foreign_key)
  : list Postgres.piece :=
  match snd entry with
  | [] => []
  | _ => [Postgres.mkPiece
            (Postgres.ForeignKeys (fst entry))
            (Postgres.create_foreign_key_statement (snd entry) ++ nl)]
  end.

(** MySQL family: the fragments that open the list of a table, the
    header for the first table only. *)
Definition opening (header_written : bool) : list string :=
  if header_written then [] else [MySQL._generate_backup_header].

(** The text of a piece is the statement that its origin names, built
    from the answers of the server. *)
Definition well_tagged (srv : Postgres.server) (p : Postgres.piece) : Prop :=
  match Postgres.piece_origin p with
  | Postgres.TypeStatement type_name =>
      exists labels,
        Postgres.piece_text p = Postgres.create_type_statement type_name labels ++ nl
  | Postgres.SequenceStatement sequence =>
      exists stmt,
        Postgres.create_sequence_statement srv sequence = Ok stmt
        /\ Postgres.piece_text p = stmt ++ nl
  | Postgres.TableStructure table =>
      exists columns stmt,
        Postgres.information_schema_columns srv table = Ok columns
        /\ Postgres.create_table_statement srv table columns = Ok stmt
        /\ Postgres.piece_text p = stmt ++ nl
  | Postgres.TableData table =>
      exists rows columns stmt,
        Postgres.select_all srv table = Ok rows
        /\ rows <> []
        /\ Postgres.information_schema_columns srv table = Ok columns
        /\ Postgres.create_insert_statement
             table
             (map (fun c => (Postgres.col_name c, Postgres.data_type c)) columns)
             rows = Ok stmt
        /\ Postgres.piece_text p = stmt ++ nl
  | Postgres.ForeignKeys table =>
      foreign_keys_of srv table <> []
      /\ Postgres.piece_text p
         = Postgres.create_foreign_key_statement (foreign_keys_of srv table) ++ nl
  | Postgres.Permissions table =>
      exists permissions,
        Postgres.role_table_grants srv table = Ok permissions
        /\ permissions <> []
        /\ Postgres.piece_text p
           = Postgres.create_permission_statements table permissions ++ nl
  end.

(** The outline of a script: where each of its pieces comes from.
    [all_tables] are the target tables, [include_sequences_and_types]
    the flag that [backup] computes with them, [sequences] and [types]
    the names of the sequences and of the enum types retrieved. *)
Definition outline (srv : Postgres.server) (backup_type : string)
           (include_permissions : bool) (all_tables : list string)
           (include_sequences_and_types : bool) (sequences types : list string)
  : list Postgres.origin :=
  ((if wants_structure backup_type && include_sequences_and_types
    then map Postgres.TypeStatement types else [])
   ++ (if wants_structure backup_type && include_sequences_and_types
       then map Postgres.SequenceStatement sequences else [])
   ++ (if wants_structure backup_type
       then map Postgres.TableStructure all_tables else [])
   ++ (if wants_data backup_type
       then map Postgres.TableData (filter (has_rows srv) all_tables) else [])
   ++ (if wants_structure backup_type
       then map Postgres.ForeignKeys (filter (has_foreign_keys srv) all_tables)
       else [])
   ++ (if include_permissions
       then map Postgres.Permissions (filter (has_grants srv) all_tables)
       else []))%list.

(** The kind of a relation in information_schema.tables. *)
Definition table_kind (srv : Postgres.server) (table : string) : option string :=
  match Postgres.information_schema_tables srv with
  | Ok rows => option_map snd (find (fun row => String.eqb (fst row) table) rows)
  | Raise _ => None
  end.

(** The same server with other sequences and enum types. *)
Definition with_sequences_and_types (srv : Postgres.server)
           (sequences : result (list string))
           (infos : string -> result (option Postgres.sequence_info))
           (enums : result (list (string * string * string)))
  : Postgres.server :=
  Postgres.mkServer
    (Postgres.information_schema_tables srv)
    (Postgres.information_schema_columns srv)
    (Postgres.foreign_key_rows srv)
    (Postgres.primary_key_rows srv)
    sequences infos enums
    (Postgres.select_all srv)
    (Postgres.role_table_grants srv)
    (Postgres.close srv).

(** A MySQL server that answers every statement of a backup. *)
Definition mysql_answers (srv : MySQL.server) : Prop :=
  (exists entries, MySQL.tables_all srv = Ok entries)
  /\ (forall ts, exists entries, MySQL.tables_in srv ts = Ok entries)
  /\ (forall t, exists stmt, MySQL.show_create_table srv t = Ok stmt)
  /\ (forall t, exists answer, MySQL.select_all srv t = Ok answer)
  /\ (exists grants, MySQL.show_grants srv = Ok grants)
  /\ MySQL.close srv = Ok tt.

(** A value that the Postgres encoder accepts (a list has to hold
    strings only). *)
Definition encodable (value : pyvalue) : Prop :=
  exists text, Postgres.format_value value = Ok text.

(** A Postgres server that answers every query of a backup, with rows
    that the encoder accepts. *)
Definition postgres_answers (srv : Postgres.server) : Prop :=
  (exists rows, Postgres.information_schema_tables srv = Ok rows)
  /\ (forall t, exists columns, Postgres.information_schema_columns srv t = Ok columns)
  /\ (forall t, exists fks, Postgres.foreign_key_rows srv t = Ok fks)
  /\ (forall t, exists pks, Postgres.primary_key_rows srv t = Ok pks)
  /\ (exists sequences, Postgres.sequence_rows srv = Ok sequences)
  /\ (forall s, exists info, Postgres.pg_sequences_row srv s = Ok (Some info))
  /\ (exists enums, Postgres.enum_rows srv = Ok enums)
  /\ (forall t, exists rows,
         Postgres.select_all srv t = Ok rows /\ Forall (Forall encodable) rows)
  /\ (forall t, exists grants, Postgres.role_table_grants srv t = Ok grants)
  /\ Postgres.close srv = Ok tt.

End Spec.

(* ================================================================= *)
(** * Example databases *)

Module Examples.

(** A MySQL database whose only table is called [footer]; it has no
    rows. *)
Definition footer_db : MySQL.server :=
  MySQL.mkServer
    (Ok [("footer", "BASE TABLE")])
    (fun _ => Ok [("footer", "BASE TABLE")])
    (fun table => Ok ("CREATE TABLE `" ++ table ++ "` (`id` int)"))
    (fun _ => Ok (["id"], []))
    (Ok [])
    (Ok tt).

(** A MySQL database with a base table with rows, an empty base table
    and a view. *)
Definition blog_db : MySQL.server :=
  let catalog := [("posts", "BASE TABLE"); ("drafts", "BASE TABLE");
                  ("recent", "VIEW")] in
  MySQL.mkServer
    (Ok catalog)
    (fun ts => Ok (filter (fun row => existsb (String.eqb (fst row)) ts) catalog))
    (fun table =>
       if String.eqb table "recent"
       then Ok "CREATE VIEW `recent` AS select `id`, `title` from `posts`"
       else Ok ("CREATE TABLE `" ++ table ++ "` (`id` int, `title` text)"))
    (fun table =>
       if String.eqb table "drafts" then Ok (["id"; "title"], [])
       else Ok (["id"; "title"], [[VInt 1; VStr "O'Brien"]; [VInt 2; VNone]]))
    (Ok ["GRANT ALL PRIVILEGES ON *.* TO `root`@`localhost`"])
    (Ok tt).

(** A MySQL server on which every statement of a backup fails. *)
Definition broken_mysql : MySQL.server :=
  MySQL.mkServer
    (Raise (DriverFault "server has gone away"))
    (fun _ => Raise (DriverFault "server has gone away"))
    (fun _ => Raise (DriverFault "server has gone away"))
    (fun _ => Raise (DriverFault "server has gone away"))
    (Raise (DriverFault "server has gone away"))
    (Raise (DriverFault "server has gone away")).

(** A Postgres database: two base tables, [orders] referring to
    [customers] and empty, a view over [customers], a sequence and an
    enum type. *)
Definition shop_db : Postgres.server :=
  Postgres.mkServer
    (Ok [("customers", "BASE TABLE"); ("orders", "BASE TABLE");
         ("vip_customers", "VIEW")])
    (fun table =>
       if String.eqb table "orders" then
         Ok [Postgres.mkColumn "id" "integer" "NO" (Some "nextval('orders_id_seq'::regclass)");
             Postgres.mkColumn "customer_id" "integer" "YES" None]
       else
         Ok [Postgres.mkColumn "id" "integer" "NO" None;
             Postgres.mkColumn "name" "character varying" "YES" None])
    (fun table =>
       if String.eqb table "orders" then
         Ok [Postgres.mkFk "orders_customer_fk" "orders" "customer_id" "customers" "id"]
       else Ok [])
    (fun table =>
       if String.eqb table "vip_customers" then Ok [] else Ok ["id"])
    (Ok ["orders_id_seq"])
    (fun _ => Ok (Some (Postgres.mkSeq 1 1 (Some 1%Z) None 1)))
    (Ok [("public", "mood", "sad"); ("public", "mood", "happy")])
    (fun table =>
       if String.eqb table "orders" then Ok []
       else Ok [[VInt 1; VStr "O'Brien"]; [VInt 2; VNone]])
    (fun _ => Ok [("alice", "SELECT")])
    (Ok tt).

(** A Postgres server that loses its connection on the first query. *)
Definition broken_postgres : Postgres.server :=
  Postgres.mkServer
    (Raise (DriverFault "connection already closed"))
    (fun _ => Raise (DriverFault "connection already closed"))
    (fun _ => Raise (DriverFault "connection already closed"))
    (fun _ => Raise (DriverFault "connection already closed"))
    (Raise (DriverFault "connection already closed"))
    (fun _ => Raise (DriverFault "connection already closed"))
    (Raise (DriverFault "connection already closed"))
    (fun _ => Raise (DriverFault "connection already closed"))
    (fun _ => Raise (DriverFault "connection already closed"))
    (Raise (DriverFault "connection already closed")).

(** A connection whose state is the list of the statements executed so
    far, and which rejects the statement [BOGUS]. *)
Definition logging_execute (st : list string) (command : string)
  : result (list string) :=
  if String.eqb (PyStr.strip command) "BOGUS"
  then Raise (DriverFault "syntax error at or near BOGUS")
  else Ok (st ++ [command])%list.

End Examples.

(* ================================================================= *)
(** * The restore classes with their connection

    mysql_restore.py and postgres_restore.py once more, this time with
    the connection that the objects hold: the calls made on the driver
    are kept in order, and they stay when an exception is raised. *)

Module Session.

(** A call on the driver that changes the connection or the server. *)
Inductive call : Type :=
| Connect (host user password : string) (database : option string)
| SetAutocommit
| Execute (sql : string)
| SelectDb (name : string)
| Commit
| CloseCursor
| CloseConnection.

(** The driver and the server behind it: whether a call raises, given
    the calls completed before it, and the row that [cursor.fetchone()]
    returns after them. *)
Record driver : Type := mkDriver {
  fault : list call -> call -> option string;
  fetched : list call -> option (list pyvalue)
}.

(** A computation on the connection: from the calls completed so far to
    the calls completed afterwards and the value or the exception.  A
    call that raises is not completed. *)
Definition io (A : Type) : Type := list call -> list call * result A.

Definition ret {A} (a : A) : io A := fun h => (h, Ok a).

Definition raise {A} (e : exn) : io A := fun h => (h, Raise e).

Definition bind_io {A B} (m : io A) (k : A -> io B) : io B :=
  fun h =>
    match m h with
    | (h', Ok a) => k a h'
    | (h', Raise e) => (h', Raise e)
    end.

Notation "x <-- m ;; k" := (bind_io m (fun x => k))
  (at level 61, m at next level, right associativity).

(** A value or an exception computed without the connection. *)
Definition lift {A} (r : result A) : io A := fun h => (h, r).

Definition perform (d : driver) (c : call) : io unit :=
  fun h =>
    match fault d h c with
    | Some msg => (h, Raise (DriverFault msg))
    | None => ((h ++ [c])%list, Ok tt)
    end.

Definition fetchone (d : driver) : io (option (list pyvalue)) :=
  fun h => (h, Ok (fetched d h)).

(** [try: body except DriverError as e: handler e]. *)
Definition try_driver {A} (body : io A) (handler : exn -> io A) : io A :=
  fun h =>
    match body h with
    | (h', Raise (DriverFault m)) => handler (DriverFault m) h'
    | r => r
    end.

(** [for x in xs: body x]. *)
Fixpoint for_each {A} (xs : list A) (body : A -> io unit) : io unit :=
  match xs with
  | [] => ret tt
  | x :: rest => _ <-- body x ;; for_each rest body
  end.

Definition is_row (row : option (list pyvalue)) : bool :=
  match row with
  | Some _ => true
  | None => false
  end.

(** The class [MySQLBackupRestore] and the function [restore_data] of
    mysql_restore.py. *)
Module MySQL.

Definition database_exists (d : driver) (db_name : string) : io bool :=
  _ <-- perform d (Execute ("SHOW DATABASES LIKE '" ++ db_name ++ "';")) ;;
  row <-- fetchone d ;;
  ret (is_row row).

Definition create_database_if_not_exists (d : driver) (db_name : string)
  : io unit :=
  present <-- database_exists d db_name ;;
  if negb present
  then perform d (Execute ("CREATE DATABASE " ++ db_name ++ ";"))
  else ret tt.

(** [__init__]. *)
Definition init (d : driver) (host user password db_name : string) : io unit :=
  _ <-- try_driver (perform d (Connect host user password None))
                   (fun e => raise (DatabaseConnectionError host user e)) ;;
  _ <-- create_database_if_not_exists d db_name ;;
  perform d (SelectDb db_name).

Definition restore (d : driver) (sql_commands : list string) : io unit :=
  try_driver
    (for_each sql_commands
              (fun command =>
                 if PyStr.truthy (PyStr.strip command)
                 then perform d (Execute command)
                 else ret tt))
    (fun e =>
       raise (RestoreError
                ("An error occurred while restoring the database: " ++ str_exn e)
                e)).

Definition close_connection (d : driver) : io unit :=
  _ <-- perform d Commit ;;
  _ <-- perform d CloseCursor ;;
  perform d CloseConnection.

Definition restore_data (d : driver) (fs : filesystem)
           (host user password db_name file_path : string) : io unit :=
  _ <-- init d host user password db_name ;;
  sql_commands <-- lift (read_sql_commands_from_file fs file_path) ;;
  _ <-- restore d sql_commands ;;
  close_connection d.

End MySQL.

(** The class [PostgresBackupRestore] and the function [restore_data]
    of postgres_restore.py. *)
Module Postgres.

Definition database_exists (d : driver) (db_name : string) : io bool :=
  _ <-- perform d (Execute ("SELECT 1 FROM pg_database WHERE datname='"
                            ++ db_name ++ "';")) ;;
  row <-- fetchone d ;;
  ret (is_row row).

Definition create_database_if_not_exists (d : driver) (db_name : string)
  : io unit :=
  present <-- database_exists d db_name ;;
  if negb present
  then perform d (Execute ("CREATE DATABASE " ++ db_name ++ ";"))
  else ret tt.

Definition close_connection (d : driver) : io unit :=
  _ <-- perform d CloseCursor ;;
  perform d CloseConnection.

(** [__init__]: the existence of the database is asked for twice, the
    first answer is dropped. *)
Definition init (d : driver) (host user password db_name : string) : io unit :=
  _ <-- perform d (Connect host user password (Some "postgres")) ;;
  _ <-- perform d SetAutocommit ;;
  _ <-- database_exists d db_name ;;
  _ <-- create_database_if_not_exists d db_name ;;
  _ <-- close_connection d ;;
  _ <-- perform d (Connect host user password (Some db_name)) ;;
  perform d SetAutocommit.

Definition restore (d : driver) (sql_commands : list string) : io unit :=
  for_each sql_commands (fun command => perform d (Execute command)).

Definition restore_data (d : driver) (fs : filesystem)
           (host user password db_name file_path : string) : io unit :=
  _ <-- init d host user password db_name ;;
  sql_commands <-- lift (read_sql_commands_from_file fs file_path) ;;
  _ <-- restore d sql_commands ;;
  close_connection d.

End Postgres.

(** restore/restore_data.py, [restore_data]: the family is chosen by
    [db_type]; the three steps after the choice are the methods of the
    handler chosen. *)
Definition restore_data (d : driver) (fs : filesystem)
           (db_type host user password db_name file_path : string) : io unit :=
  if String.eqb db_type "mysql" then
    _ <-- MySQL.init d host user password db_name ;;
    sql_commands <-- lift (read_sql_commands_from_file fs file_path) ;;
    _ <-- MySQL.restore d sql_commands ;;
    MySQL.close_connection d
  else if String.eqb db_type "postgres" then
    _ <-- Postgres.init d host user password db_name ;;
    sql_commands <-- lift (read_sql_commands_from_file fs file_path) ;;
    _ <-- Postgres.restore d sql_commands ;;
    Postgres.close_connection d
  else raise (ValueError ("Unsupported database type: " ++ db_type)).

(** The connection of the first model of the replay: the state is the
    list of the calls completed. *)
Definition execute_of (d : driver) (h : list call) (command : string)
  : result (list call) :=
  match fault d h (Execute command) with
  | Some msg => Raise (DriverFault msg)
  | None => Ok (h ++ [Execute command])%list
  end.

(** A driver that never raises and whose queries find [row]. *)
Definition obliging (row : option (list pyvalue)) : driver :=
  mkDriver (fun _ _ => None) (fun _ => row).


(** A driver that cannot connect. *)
Definition unreachable : driver :=
  mkDriver (fun _ c => match c with
                       | Connect _ _ _ _ => Some "connection refused"
                       | _ => None
                       end)
           (fun _ => None).

End Session.

(* ================================================================= *)
(** * backup_manager.py: saving the artifact *)

Module SaveBackup.
Import PyStr.

(** What the static method can raise: an exception of [exn], or the
    AttributeError of a [str] asked for its [values()]. *)
Inductive raised : Type :=
| Exn (e : exn)
| AttributeError (msg : string).

(** What [open(path, 'w', encoding='utf-8')] does. *)
Inductive open_outcome : Type :=
| Opened
| PermissionError (msg : string)
| OpenFails (e : exn).

(** The files, by path, and what was printed. *)
Record world : Type := mkWorld { files : dict string; stdout : list string }.

Definition write_file (w : world) (path text : string) : world :=
  mkWorld (dict_set (files w) path text) (stdout w).

(** [os.path.join(a, b)] for a directory [a] written without final
    slash: an absolute [b] is taken alone. *)
Definition os_path_join (a b : string) : string :=
  if prefix "/" b then b else a ++ "/" ++ b.

(** [''.join(''.join(item) for item in backup_data.values())]. *)
Definition joined (art : MySQL.artifact) : string :=
  join EmptyString (map (join EmptyString) (dict_values art)).

(** A string option that is neither None nor empty. *)
Definition given (s : option string) : option string :=
  match s with
  | Some text => if truthy text then Some text else None
  | None => None
  end.

(** [db_type == name] for a [db_type] that may be None. *)
Definition is_type (db_type : option string) (name : string) : bool :=
  match db_type with
  | Some given_type => String.eqb given_type name
  | None => false
  end.

(** [BackupManager.save_backup_data]; [now] is [datetime.now()].  The
    result is the new state of the files and of the output, and the
    exception if one is raised. *)
Definition save_backup_data (can_open : string -> open_outcome) (now : datetime)
           (backup_data : BackupManager.backup_data)
           (output_file version db_type : option string) (w : world)
  : world * option raised :=
  match given output_file with
  | Some output_file =>
      let new_filename :=
        match given version with
        | Some version =>
            let current_datetime := strftime (VDatetime now) "%Y-%m-%d_%H-%M" in
            current_datetime ++ "_v" ++ version ++ "_" ++ output_file
        | None => output_file
        end in
      let path := os_path_join "./single_backups" new_filename in
      let attempt (text : world -> world * option raised) :=
        match can_open path with
        | Opened => text (write_file w path EmptyString)
        | PermissionError msg =>
            (w, Some (Exn (BackupError "Permission denied" (OSError msg))))
        | OpenFails e => (w, Some (Exn e))
        end in
      if is_type db_type "mysql" then
        attempt (fun w' =>
                   match backup_data with
                   | BackupManager.Fragments art =>
                       (write_file w' path (joined art), None)
                   | BackupManager.Script _ =>
                       (w', Some (AttributeError "'str' object has no attribute 'values'"))
                   end)
      else if is_type db_type "postgres" then
        attempt (fun w' =>
                   match backup_data with
                   | BackupManager.Script sql => (write_file w' path sql, None)
                   | BackupManager.Fragments _ =>
                       (w', Some (Exn (TypeError "write() argument must be str, not dict")))
                   end)
      else (w, None)
  | None =>
      match backup_data with
      | BackupManager.Fragments art =>
          (mkWorld (files w) (stdout w ++ [joined art])%list, None)
      | BackupManager.Script _ =>
          (w, Some (AttributeError "'str' object has no attribute 'values'"))
      end
  end.

End SaveBackup.

(* ================================================================= *)
(** * More vocabulary *)

Module Spec2.

(** The number of occurrences of a character. *)
Fixpoint count_char (c : ascii) (s : string) : nat :=
  match s with
  | EmptyString => 0
  | String c' rest => (if Ascii.eqb c' c then 1 else 0) + count_char c rest
  end.

(** A script written statement by statement, each followed by its
    terminator. *)
Fixpoint script (statements : list string) : string :=
  match statements with
  | [] => EmptyString
  | s :: rest => s ++ ";" ++ script rest
  end.

(** The test of the MySQL replay on a command. *)
Definition nonblank (command : string) : bool :=
  PyStr.truthy (PyStr.strip command).

(** The value of a hexadecimal digit. *)
Definition unhex_digit (c : ascii) : option nat :=
  let n := nat_of_ascii c in
  if ((48 <=? n) && (n <=? 57))%nat then Some (n - 48)
  else if ((97 <=? n) && (n <=? 102))%nat then Some (n - 87)
  else None.

(** Reading back the digits that [bytes.hex()] writes. *)
Fixpoint unhex (s : string) : option (list byte) :=
  match s with
  | EmptyString => Some []
  | String hi (String lo rest) =>
      match unhex_digit hi, unhex_digit lo, unhex rest with
      | Some h, Some l, Some bytes =>
          match Byte.of_nat (16 * h + l) with
          | Some b => Some (b :: bytes)
          | None => None
          end
      | _, _, _ => None
      end
  | String _ EmptyString => None
  end.

(** Reading back a binary literal of the MySQL family. *)
Definition parse_binary_literal (lit : string) : option (list byte) :=
  match lit with
  | String "0" (String "x" digits) => unhex digits
  | _ => None
  end.

(** The first item of a list that is not a string, with its index;
    the indices start at [i]. *)
Fixpoint first_non_string (i : Z) (items : list pyvalue) : option (Z * pyvalue) :=
  match items with
  | [] => None
  | VStr _ :: rest => first_non_string (i + 1) rest
  | item :: _ => Some (i, item)
  end.

(** The item that keeps a value from being encoded: the first item
    that is not a string, when the value is a list. *)
Definition offender (value : pyvalue) : option (Z * pyvalue) :=
  match value with
  | VList items _ => first_non_string 0 items
  | _ => None
  end.

Fixpoint first_some {A B} (f : A -> option B) (xs : list A) : option B :=
  match xs with
  | [] => None
  | x :: rest =>
      match f x with
      | Some b => Some b
      | None => first_some f rest
      end
  end.

(** The first such item among the values of the rows, row by row. *)
Definition first_offender (rows : list (list pyvalue)) : option (Z * pyvalue) :=
  first_some (first_some offender) rows.

(** A value that is not a list, or a list of strings. *)
Definition strings_only (value : pyvalue) : bool :=
  match value with
  | VList items _ =>
      forallb (fun item => match item with VStr _ => true | _ => false end) items
  | _ => true
  end.

(** The labels of an enum type among the rows of the catalog query, in
    the order of the rows. *)
Definition labels_of (type_name : string) (rows : list (string * string * string))
  : list string :=
  map snd (filter (fun row => String.eqb (snd (fst row)) type_name) rows).

(** The place of a kind of statement in a Postgres script. *)
Definition rank (o : Postgres.origin) : nat :=
  match o with
  | Postgres.TypeStatement _ => 0
  | Postgres.SequenceStatement _ => 1
  | Postgres.TableStructure _ => 2
  | Postgres.TableData _ => 3
  | Postgres.ForeignKeys _ => 4
  | Postgres.Permissions _ => 5
  end.

(** The text of a piece is the statement that its origin names, built
    from the answers of the server; for an enum type, from the labels
    that the catalog query returns for the type, which has at least
    one. *)
Definition tagged_by_server (srv : Postgres.server) (p : Postgres.piece) : Prop :=
  match Postgres.piece_origin p with
  | Postgres.TypeStatement type_name =>
      exists rows,
        Postgres.enum_rows srv = Ok rows
        /\ labels_of type_name rows <> []
        /\ Postgres.piece_text p
           = Postgres.create_type_statement type_name (labels_of type_name rows) ++ nl
  | _ => Spec.well_tagged srv p
  end.

(** No statement of a later kind comes before one of an earlier kind. *)
Fixpoint phases_in_order (origins : list Postgres.origin) : bool :=
  match origins with
  | [] => true
  | o :: rest =>
      forallb (fun o' => (rank o <=? rank o')%nat) rest && phases_in_order rest
  end.

Definition is_table_data (o : Postgres.origin) : bool :=
  match o with
  | Postgres.TableData _ => true
  | _ => false
  end.

(** The same servers with other answers to one statement. *)
Definition mysql_with_rows (srv : MySQL.server)
           (rows : string -> result (list string * list (list pyvalue)))
  : MySQL.server :=
  MySQL.mkServer (MySQL.tables_all srv) (MySQL.tables_in srv)
                 (MySQL.show_create_table srv) rows
                 (MySQL.show_grants srv) (MySQL.close srv).

Definition mysql_with_create (srv : MySQL.server)
           (create : string -> result string) : MySQL.server :=
  MySQL.mkServer (MySQL.tables_all srv) (MySQL.tables_in srv)
                 create (MySQL.select_all srv)
                 (MySQL.show_grants srv) (MySQL.close srv).



(** Every exception that the MySQL server raises is a driver fault. *)
Definition driver_fault (e : exn) : Prop := exists msg, e = DriverFault msg.

Definition mysql_driver_faults_only (srv : MySQL.server) : Prop :=
  (forall e, MySQL.tables_all srv = Raise e -> driver_fault e)
  /\ (forall ts e, MySQL.tables_in srv ts = Raise e -> driver_fault e)
  /\ (forall t e, MySQL.show_create_table srv t = Raise e -> driver_fault e)
  /\ (forall t e, MySQL.select_all srv t = Raise e -> driver_fault e)
  /\ (forall e, MySQL.show_grants srv = Raise e -> driver_fault e)
  /\ (forall e, MySQL.close srv = Raise e -> driver_fault e).

(** The list is not empty. *)
Definition some_table (entries : list (string * string)) : bool :=
  match entries with
  | [] => false
  | _ :: _ => true
  end.

(** The names of the tables that the MySQL server lists for a backup. *)
Definition mysql_entries (srv : MySQL.server) (tables : option (list string))
  : result (list (string * string)) :=
  match tables with
  | None => MySQL.tables_all srv
  | Some ts => MySQL.tables_in srv ts
  end.

(** The calls that end a session: commit and the two closes. *)
Definition closing (c : Session.call) : bool :=
  match c with
  | Session.Commit | Session.CloseCursor | Session.CloseConnection => true
  | _ => false
  end.

Definition not_closing (c : Session.call) : Prop := closing c = false.

(** A computation on the connection that only completes calls of one
    kind, and keeps the calls completed before it. *)
Definition adds {A} (P : Session.call -> Prop) (m : Session.io A) : Prop :=
  forall h h' r, m h = (h', r) -> exists ext, h' = (h ++ ext)%list /\ Forall P ext.

(** The statement that creates the database, and the queries that look
    for it. *)
Definition create_database (db_name : string) : Session.call :=
  Session.Execute ("CREATE DATABASE " ++ db_name ++ ";").

Definition show_databases (db_name : string) : Session.call :=
  Session.Execute ("SHOW DATABASES LIKE '" ++ db_name ++ "';").

Definition select_pg_database (db_name : string) : Session.call :=
  Session.Execute ("SELECT 1 FROM pg_database WHERE datname='" ++ db_name ++ "';").

(** The call sends a statement that begins with CREATE DATABASE. *)
Definition creates_database (c : Session.call) : bool :=
  match c with
  | Session.Execute sql => prefix "CREATE DATABASE" sql
  | _ => false
  end.

(** The call does not create a database, or it sends a command of the
    script in the file. *)
Definition own_or_scripted (fs : filesystem) (file_path : string)
           (c : Session.call) : Prop :=
  creates_database c = false
  \/ exists commands command,
      read_sql_commands_from_file fs file_path = Ok commands
      /\ In command commands
      /\ c = Session.Execute command.

Definition never_faults (d : Session.driver) : Prop :=
  forall h c, Session.fault d h c = None.

(** The calls of the two constructors up to the answer on the
    existence of the database. *)
Definition mysql_asked (host user password db_name : string) : list Session.call :=
  [Session.Connect host user password None; show_databases db_name].

Definition postgres_asked (host user password db_name : string)
  : list Session.call :=
  [Session.Connect host user password (Some "postgres"); Session.SetAutocommit;
   select_pg_database db_name; select_pg_database db_name].

End Spec2.

(* ================================================================= *)
(** * More example databases *)

Module Examples2.

(** A Postgres database with one table, [posts], whose second column is
    an array of integers. *)
Definition tags_db : Postgres.server :=
  Postgres.mkServer
    (Ok [("posts", "BASE TABLE")])
    (fun _ => Ok [Postgres.mkColumn "id" "integer" "NO" None;
                  Postgres.mkColumn "scores" "ARRAY" "YES" None])
    (fun _ => Ok [])
    (fun _ => Ok ["id"])
    (Ok [])
    (fun _ => Ok None)
    (Ok [])
    (fun _ => Ok [[VInt 1; VList [VInt 10; VInt 20] "[10, 20]"]])
    (fun _ => Ok [])
    (Ok tt).

(** A Postgres database whose only table is called [footer]; it has no
    rows. *)
Definition footer_pg : Postgres.server :=
  Postgres.mkServer
    (Ok [("footer", "BASE TABLE")])
    (fun _ => Ok [Postgres.mkColumn "id" "integer" "NO" None])
    (fun _ => Ok [])
    (fun _ => Ok [])
    (Ok [])
    (fun _ => Ok None)
    (Ok [])
    (fun _ => Ok [])
    (fun _ => Ok [])
    (Ok tt).

End Examples2.

(* ================================================================= *)
(** * Properties of the string primitives *)

Section StringFacts.
Import PyStr.

Lemma string_app_nil_r (s : string) : s ++ EmptyString = s.
Proof. induction s as [|c s IH]; cbn; [reflexivity | now rewrite IH]. Qed.

Lemma string_app_assoc (a b c : string) : (a ++ b) ++ c = a ++ (b ++ c).
Proof. induction a as [|x a IH]; cbn; [reflexivity | now rewrite IH]. Qed.

Lemma double_quotes_free (s : string) :
  Spec.free_of "'" s = true -> Spec.double_quotes s = s.
Proof.
  induction s as [|c s IH]; cbn; intros H; [reflexivity|].
  apply andb_prop in H as [Hc Hs].
  destruct (Ascii.eqb c "'"); [discriminate|]. now rewrite IH.
Qed.

Lemma prefix_empty (s : string) : prefix EmptyString s = true.
Proof. destruct s; reflexivity. Qed.

(** Replacing a one-character pattern goes character by character. *)
Lemma replace_char_cons (q : ascii) (new : string) (c : ascii) (s : string) :
  replace (String q EmptyString) new (String c s)
  = if Ascii.eqb c q
    then new ++ replace (String q EmptyString) new s
    else String c (replace (String q EmptyString) new s).
Proof.
  unfold replace. simpl.
  destruct (ascii_dec q c) as [->|Hne].
  - rewrite prefix_empty, Ascii.eqb_refl. reflexivity.
  - destruct (Ascii.eqb_spec c q) as [->|_]; [contradiction | reflexivity].
Qed.

Lemma replace_char_nil (q : ascii) (new : string) :
  replace (String q EmptyString) new EmptyString = EmptyString.
Proof. reflexivity. Qed.

Lemma replace_quote_doubles (s : string) :
  replace "'" "''" s = Spec.double_quotes s.
Proof.
  induction s as [|c s IH].
  - reflexivity.
  - rewrite replace_char_cons, IH. cbn [Spec.double_quotes].
    destruct (Ascii.eqb c "'"); reflexivity.
Qed.

Lemma parse_body_double_quotes (s : string) :
  Spec.parse_body (Spec.double_quotes s ++ "'") = Some s.
Proof.
  induction s as [|c s IH]; simpl.
  - reflexivity.
  - destruct (Ascii.eqb_spec c "'") as [->|Hne]; simpl.
    + now rewrite IH.
    + destruct (Ascii.eqb_spec c "'") as [->|_]; [contradiction|].
      now rewrite IH.
Qed.

Lemma parse_literal_quoted (s : string) :
  Spec.parse_literal ("'" ++ Spec.double_quotes s ++ "'") = Some s.
Proof. simpl. apply parse_body_double_quotes. Qed.

(** Splitting on a one-character separator, character by character. *)
Lemma split_char_cons (q c : ascii) (s : string) :
  split (String q EmptyString) (String c s)
  = if Ascii.eqb c q
    then EmptyString :: split (String q EmptyString) s
    else match split (String q EmptyString) s with
         | h :: t => String c h :: t
         | [] => [String c EmptyString]
         end.
Proof.
  unfold split. simpl.
  destruct (ascii_dec q c) as [->|Hne].
  - rewrite prefix_empty, Ascii.eqb_refl. reflexivity.
  - destruct (Ascii.eqb_spec c q) as [->|_]; [contradiction | reflexivity].
Qed.

Lemma split_not_nil (sep s : string) : split sep s <> [].
Proof.
  unfold split. generalize 0.
  induction s as [|c s IH]; intros n; cbn [split_from].
  - discriminate.
  - destruct n.
    + destruct (prefix sep (String c s)); [discriminate|].
      destruct (split_from sep 0 s); discriminate.
    + apply IH.
Qed.

(** A separator between two texts separates their fragments. *)
Lemma split_char_app (q : ascii) (a b : string) :
  split (String q EmptyString) (a ++ String q b)
  = (split (String q EmptyString) a ++ split (String q EmptyString) b)%list.
Proof.
  induction a as [|c a IH].
  - simpl append. rewrite split_char_cons, Ascii.eqb_refl. reflexivity.
  - simpl append. rewrite !split_char_cons.
    destruct (Ascii.eqb c q).
    + now rewrite IH.
    + rewrite IH.
      destruct (split (String q EmptyString) a) as [|h t] eqn:E.
      * now apply split_not_nil in E.
      * reflexivity.
Qed.

(** A text without the separator is its own single fragment. *)
Lemma split_char_free (q : ascii) (s : string) :
  Spec.free_of q s = true -> split (String q EmptyString) s = [s].
Proof.
  induction s as [|c s IH]; intros H.
  - reflexivity.
  - simpl in H. apply andb_prop in H as [Hc Hs].
    rewrite split_char_cons.
    destruct (Ascii.eqb c q); [discriminate|].
    now rewrite (IH Hs).
Qed.

Lemma drop_last_snoc {A} (xs : list A) (x : A) : drop_last (xs ++ [x]) = xs.
Proof. unfold drop_last. apply removelast_last. Qed.

End StringFacts.

(* ================================================================= *)
(** * ValueEncoder: strings, NULL, booleans, bytes *)

Lemma mysql_string_literal (s : string) :
  MySQL._format_value (VStr s) = "'" ++ Spec.double_quotes s ++ "'".
Proof.
  change (MySQL._format_value (VStr s))
    with ("'" ++ PyStr.replace "'" "''" s ++ "'").
  now rewrite replace_quote_doubles.
Qed.

Lemma postgres_string_literal (s : string) :
  Postgres.format_value (VStr s) = Ok ("'" ++ Spec.double_quotes s ++ "'").
Proof.
  change (Postgres.format_value (VStr s))
    with (Ok ("'" ++ PyStr.replace "'" "''" s ++ "'")).
  now rewrite replace_quote_doubles.
Qed.

(** The encoding of strings is injective: two strings with the same
    literal are the same string. *)
Lemma mysql_string_literal_injective (s1 s2 : string) :
  MySQL._format_value (VStr s1) = MySQL._format_value (VStr s2) -> s1 = s2.
Proof.
  intros H.
  pose proof (parse_literal_quoted s1) as P1.
  pose proof (parse_literal_quoted s2) as P2.
  rewrite <- mysql_string_literal in P1, P2.
  rewrite H in P1. congruence.
Qed.

(** C1.  For every string, the encoder of either family returns the
    string between single quotes with each of its single quotes
    doubled, and re-parsing that literal (outer quotes stripped, doubled
    quotes collapsed) gives the string back.  O'Brien is encoded as
    'O''Brien'. *)
Theorem string_literal_roundtrip :
  (forall s : string,
      MySQL._format_value (VStr s) = "'" ++ Spec.double_quotes s ++ "'"
      /\ Postgres.format_value (VStr s) = Ok ("'" ++ Spec.double_quotes s ++ "'")
      /\ Spec.parse_literal (MySQL._format_value (VStr s)) = Some s
      /\ (exists lit, Postgres.format_value (VStr s) = Ok lit
                      /\ Spec.parse_literal lit = Some s))
  /\ MySQL._format_value (VStr "O'Brien") = "'O''Brien'"
  /\ Postgres.format_value (VStr "O'Brien") = Ok "'O''Brien'".
Proof.
  split; [|split; reflexivity].
  intros s. repeat split.
  - apply mysql_string_literal.
  - apply postgres_string_literal.
  - rewrite mysql_string_literal. apply parse_literal_quoted.
  - eexists. split; [apply postgres_string_literal | apply parse_literal_quoted].
Qed.

(** C2 (as amended).  NULL for None in both families; TRUE/FALSE for
    booleans in the MySQL family and Python's own True/False in the
    Postgres family; 0x followed by the hexadecimal digits for bytes in
    the MySQL family, so that the two bytes AB CD give 0xabcd.  The
    Postgres family has no branch for bytes: they get their [str()]
    text, and a memoryview the placeholder. *)
Theorem null_boolean_bytes_tokens :
  MySQL._format_value VNone = "NULL"
  /\ Postgres.format_value VNone = Ok "NULL"
  /\ (forall b : bool,
         MySQL._format_value (VBool b) = if b then "TRUE" else "FALSE")
  /\ (forall b : bool,
         Postgres.format_value (VBool b) = Ok (if b then "True" else "False"))
  /\ (forall b : list byte,
         MySQL._format_value (VBytes b) = "0x" ++ PyStr.hex b)
  /\ MySQL._format_value (VBytes [xab; xcd]) = "0xabcd"
  /\ (forall b : list byte,
         Postgres.format_value (VBytes b) = Ok (PyBytes.repr b))
  /\ (forall text : string,
         Postgres.format_value (VMemoryview text) = Ok "'<memory>'").
Proof.
  repeat split; try reflexivity; intros []; reflexivity.
Qed.

(** C2, counterexample: in the Postgres family the two bytes AB CD
    are not encoded as 0xabcd but as the text of their [str()]. *)
Lemma postgres_bytes_not_hex :
  Postgres.format_value (VBytes [xab; xcd]) = Ok "b'\xab\xcd'"
  /\ Postgres.format_value (VBytes [xab; xcd]) <> Ok "0xabcd".
Proof. split; [reflexivity | discriminate]. Qed.

(* ================================================================= *)
(** * ValueEncoder: dates and timestamps *)

Section DateFacts.
Import PyStr PyTime.

Lemma has_shape_app (p1 s1 p2 s2 : string) :
  Spec.has_shape p1 s1 = true -> Spec.has_shape p2 s2 = true ->
  Spec.has_shape (p1 ++ p2) (s1 ++ s2) = true.
Proof.
  revert s1. induction p1 as [|p p1 IH]; intros [|c s1] H1 H2;
    try discriminate; cbn [append].
  - exact H2.
  - cbn [Spec.has_shape] in *. apply andb_prop in H1 as [Hc H1].
    rewrite Hc. cbn [andb]. now apply IH.
Qed.

(** Checked on every number of the range. *)
Lemma four_digits (n : Z) :
  (0 <= n <= 9999)%Z -> Spec.has_shape "YYYY" (zfill 4 (str_Z n)) = true.
Proof.
  intros H.
  assert (All : forallb (fun k => Spec.has_shape "YYYY" (zfill 4 (str_Z (Z.of_nat k))))
                        (seq 0 (Z.to_nat 10000)) = true)
    by (vm_compute; reflexivity).
  rewrite forallb_forall in All.
  specialize (All (Z.to_nat n)). rewrite Z2Nat.id in All by lia.
  apply All, in_seq. lia.
Qed.

Lemma two_digits (p : ascii) (n : Z) :
  In p ["M"; "D"; "H"; "S"]%char -> (0 <= n <= 99)%Z ->
  Spec.has_shape (String p (String p EmptyString)) (zfill 2 (str_Z n)) = true.
Proof.
  intros Hp H.
  assert (All : forallb
                  (fun k => forallb
                              (fun q => Spec.has_shape (String q (String q EmptyString))
                                                       (zfill 2 (str_Z (Z.of_nat k))))
                              ["M"; "D"; "H"; "S"]%char)
                  (seq 0 (Z.to_nat 100)) = true)
    by (vm_compute; reflexivity).
  rewrite forallb_forall in All.
  specialize (All (Z.to_nat n)). rewrite Z2Nat.id in All by lia.
  assert (Hin : In (Z.to_nat n) (seq 0 (Z.to_nat 100))) by (apply in_seq; lia).
  specialize (All Hin). rewrite forallb_forall in All. now apply All.
Qed.

(** A text of a shape whose pattern has no quote has no quote. *)
Lemma has_shape_free (p s : string) :
  Spec.has_shape p s = true -> Spec.free_of "'" p = true ->
  Spec.free_of "'" s = true.
Proof.
  revert s. induction p as [|x p IH]; intros [|c s] H Hp; try discriminate.
  - reflexivity.
  - cbn [Spec.has_shape Spec.free_of] in *.
    apply andb_prop in H as [Hc H], Hp as [Hx Hp].
    rewrite (IH s H Hp), andb_true_r.
    destruct (existsb (Ascii.eqb x) ["Y"; "M"; "D"; "H"; "S"]%char).
    + destruct (Ascii.eqb_spec c "'") as [->|]; [discriminate | reflexivity].
    + apply Ascii.eqb_eq in Hc. now subst c.
Qed.

(** The two formats of the encoders, for a year of four digits. *)
Lemma format_date (f : fields) :
  (1000 <= f_year f <= 9999)%Z ->
  format f "%Y-%m-%d"
  = zfill 4 (str_Z (f_year f)) ++ "-" ++ zfill 2 (str_Z (f_month f)) ++ "-"
    ++ zfill 2 (str_Z (f_day f)).
Proof. intros _. cbn [format directive]. now rewrite string_app_nil_r. Qed.

Lemma format_timestamp (f : fields) :
  (1000 <= f_year f <= 9999)%Z ->
  format f "%Y-%m-%d %H:%M:%S"
  = zfill 4 (str_Z (f_year f)) ++ "-" ++ zfill 2 (str_Z (f_month f)) ++ "-"
    ++ zfill 2 (str_Z (f_day f)) ++ " " ++ zfill 2 (str_Z (f_hour f)) ++ ":"
    ++ zfill 2 (str_Z (f_minute f)) ++ ":" ++ zfill 2 (str_Z (f_second f)).
Proof. intros _. cbn [format directive]. now rewrite string_app_nil_r. Qed.

Ltac shape_pieces :=
  repeat (apply has_shape_app;
          [first [reflexivity
                 | apply four_digits; lia
                 | apply two_digits; [cbn; tauto | lia]] |]);
  first [reflexivity | apply two_digits; [cbn; tauto | lia]].

Lemma iso_date_shape (d : date) :
  valid_date d -> Spec.has_shape "YYYY-MM-DD" (isoformat_date d) = true.
Proof.
  intros (Hy & Hm & Hd). unfold isoformat_date.
  change "YYYY-MM-DD" with ("YYYY" ++ "-" ++ "MM" ++ "-" ++ "DD").
  shape_pieces.
Qed.

Lemma iso_time_shape (t : datetime) :
  valid_datetime t -> Spec.has_shape "HH:MM:SS" (isoformat_time t) = true.
Proof.
  intros (_ & HH & HM & HS). unfold isoformat_time.
  change "HH:MM:SS" with ("HH" ++ ":" ++ "MM" ++ ":" ++ "SS").
  shape_pieces.
Qed.

Lemma quoted_shape (p s : string) :
  Spec.has_shape p s = true -> Spec.has_shape ("'" ++ p ++ "'") ("'" ++ s ++ "'") = true.
Proof.
  intros H. apply has_shape_app; [reflexivity|].
  apply has_shape_app; [exact H | reflexivity].
Qed.

Lemma date_text (d : date) :
  valid_date d ->
  format (fields_of_date d) "%Y-%m-%d" = isoformat_date d.
Proof. intros (Hy & _). now rewrite format_date. Qed.

Lemma timestamp_text (t : datetime) :
  valid_date (dt_date t) ->
  format (fields_of_datetime t) "%Y-%m-%d %H:%M:%S"
  = isoformat_date (dt_date t) ++ " " ++ isoformat_time t.
Proof.
  intros (Hy & _).
  rewrite format_timestamp by exact Hy. unfold isoformat_date, isoformat_time.
  cbn [fields_of_datetime f_year f_month f_day f_hour f_minute f_second].
  repeat (rewrite string_app_assoc; cbn [append]). reflexivity.
Qed.

Lemma timestamp_shape (t : datetime) :
  valid_datetime t ->
  Spec.has_shape "YYYY-MM-DD HH:MM:SS"
                 (isoformat_date (dt_date t) ++ " " ++ isoformat_time t) = true.
Proof.
  intros Ht.
  change "YYYY-MM-DD HH:MM:SS" with ("YYYY-MM-DD" ++ " " ++ "HH:MM:SS").
  apply has_shape_app; [apply iso_date_shape, Ht|].
  apply has_shape_app; [reflexivity | now apply iso_time_shape].
Qed.

End DateFacts.

(** The literals of dates and timestamps, for the years of four digits
    (below 1000 the C library decides how [%Y] is printed). *)
Lemma mysql_timestamp_literal (t : datetime) :
  PyTime.valid_date (dt_date t) ->
  MySQL._format_value (VDatetime t)
  = "'" ++ (PyTime.isoformat_date (dt_date t) ++ " " ++ PyTime.isoformat_time t) ++ "'".
Proof.
  intros Ht.
  change (MySQL._format_value (VDatetime t))
    with ("'" ++ PyTime.format (PyTime.fields_of_datetime t) "%Y-%m-%d %H:%M:%S" ++ "'").
  now rewrite timestamp_text.
Qed.

(** A pure date is no instance of [datetime]: the MySQL encoder reaches
    its last branch, where [str(value)] is the ISO date. *)
Lemma mysql_date_literal (d : date) :
  PyTime.valid_date d ->
  MySQL._format_value (VDate d) = "'" ++ PyTime.isoformat_date d ++ "'".
Proof.
  intros Hd.
  change (MySQL._format_value (VDate d))
    with ("'" ++ PyStr.replace "'" "''" (PyTime.isoformat_date d) ++ "'").
  rewrite replace_quote_doubles, double_quotes_free; [reflexivity|].
  apply (has_shape_free "YYYY-MM-DD"); [now apply iso_date_shape | reflexivity].
Qed.

Lemma postgres_date_literal (d : date) :
  PyTime.valid_date d ->
  Postgres.format_value (VDate d) = Ok ("'" ++ PyTime.isoformat_date d ++ "'").
Proof.
  intros Hd.
  change (Postgres.format_value (VDate d))
    with (Ok ("'" ++ PyTime.format (PyTime.fields_of_date d) "%Y-%m-%d" ++ "'")).
  now rewrite date_text.
Qed.

(** A [datetime] is an instance of [date]: the Postgres encoder takes
    the date-only branch for it as well. *)
Lemma postgres_timestamp_literal (t : datetime) :
  PyTime.valid_date (dt_date t) ->
  Postgres.format_value (VDatetime t)
  = Ok ("'" ++ PyTime.isoformat_date (dt_date t) ++ "'").
Proof.
  intros (Hy & _).
  change (Postgres.format_value (VDatetime t))
    with (Ok ("'" ++ PyTime.format (PyTime.fields_of_datetime t) "%Y-%m-%d" ++ "'")).
  now rewrite format_date.
Qed.

(** C8 (as amended).  The MySQL family encodes a timestamp as the
    single-quoted literal 'YYYY-MM-DD HH:MM:SS' and a pure date as the
    single-quoted date-only literal 'YYYY-MM-DD'; the Postgres family
    encodes a pure date as the single-quoted date-only literal
    'YYYY-MM-DD'. *)
Theorem date_time_literals (t : datetime) (d : date) :
  PyTime.valid_datetime t -> PyTime.valid_date d ->
  (MySQL._format_value (VDatetime t)
   = "'" ++ (PyTime.isoformat_date (dt_date t) ++ " " ++ PyTime.isoformat_time t) ++ "'"
   /\ Spec.has_shape "'YYYY-MM-DD HH:MM:SS'" (MySQL._format_value (VDatetime t)) = true)
  /\ (MySQL._format_value (VDate d) = "'" ++ PyTime.isoformat_date d ++ "'"
      /\ Spec.has_shape "'YYYY-MM-DD'" (MySQL._format_value (VDate d)) = true)
  /\ (exists lit, Postgres.format_value (VDate d) = Ok lit
                  /\ lit = "'" ++ PyTime.isoformat_date d ++ "'"
                  /\ Spec.has_shape "'YYYY-MM-DD'" lit = true).
Proof.
  intros Ht Hd. repeat split.
  - apply mysql_timestamp_literal, Ht.
  - rewrite mysql_timestamp_literal by apply Ht.
    apply (quoted_shape "YYYY-MM-DD HH:MM:SS"), timestamp_shape, Ht.
  - now apply mysql_date_literal.
  - rewrite mysql_date_literal by assumption.
    apply (quoted_shape "YYYY-MM-DD"), iso_date_shape, Hd.
  - eexists. split; [now apply postgres_date_literal|]. split; [reflexivity|].
    apply (quoted_shape "YYYY-MM-DD"), iso_date_shape, Hd.
Qed.

(** C8 on the timestamp 2024-01-02 03:04:05 and the date 1999-12-31. *)
Lemma date_time_literals_witness :
  MySQL._format_value
    (VDatetime (mkDatetime (mkDate 2024 1 2) 3 4 5 0)) = "'2024-01-02 03:04:05'"
  /\ MySQL._format_value (VDate (mkDate 1999 12 31)) = "'1999-12-31'"
  /\ Postgres.format_value (VDate (mkDate 1999 12 31)) = Ok "'1999-12-31'".
Proof.
  destruct (date_time_literals (mkDatetime (mkDate 2024 1 2) 3 4 5 0)
                               (mkDate 1999 12 31))
    as ((H1 & _) & (H2 & _) & (lit & H3 & -> & _)).
  - unfold PyTime.valid_datetime, PyTime.valid_date; cbn; lia.
  - unfold PyTime.valid_date; cbn; lia.
  - rewrite H1, H2, H3. repeat split; reflexivity.
Defined.

(** C8, counterexample.  In the MySQL family a pure date gets the
    date-only literal, not a literal with a time of day.  In the
    Postgres family a timestamp gets the date-only literal as well: its
    time of day is lost. *)
Lemma date_time_literals_counterexample :
  MySQL._format_value (VDate (mkDate 2024 1 2)) = "'2024-01-02'"
  /\ Spec.has_shape "'YYYY-MM-DD HH:MM:SS'"
                    (MySQL._format_value (VDate (mkDate 2024 1 2))) = false
  /\ Postgres.format_value
       (VDatetime (mkDatetime (mkDate 2024 1 2) 3 4 5 0)) = Ok "'2024-01-02'"
  /\ Postgres.format_value
       (VDatetime (mkDatetime (mkDate 2024 1 2) 3 4 5 0)) <> Ok "'2024-01-02 03:04:05'".
Proof. repeat split; try reflexivity. discriminate. Qed.

(* ================================================================= *)
(** * RestoreReplayer: the script splitter *)

Section SplitterFacts.
Import PyStr.

Lemma read_file_holding (text path : string) :
  read_sql_commands_from_file (file_holding text) path
  = Ok (drop_last (split ";" text)).
Proof. reflexivity. Qed.

(** After a terminated text the last fragment is the empty one. *)
Lemma split_terminated (text : string) :
  split ";" (text ++ ";") = (split ";" text ++ [EmptyString])%list.
Proof. apply (split_char_app ";"%char text EmptyString). Qed.

(** After the last terminator comes the last fragment. *)
Lemma split_tail (pre tail : string) :
  Spec.free_of ";" tail = true ->
  split ";" (pre ++ ";" ++ tail) = (split ";" pre ++ [tail])%list.
Proof.
  intros H. change (pre ++ ";" ++ tail) with (pre ++ String ";" tail).
  rewrite (split_char_app ";"%char). f_equal.
  now apply (split_char_free ";"%char).
Qed.

Lemma read_tail (pre tail path : string) :
  Spec.free_of ";" tail = true ->
  read_sql_commands_from_file (file_holding (pre ++ ";" ++ tail)) path
  = Ok (split ";" pre).
Proof.
  intros H. rewrite read_file_holding, split_tail by assumption.
  now rewrite drop_last_snoc.
Qed.

(** Every text is without terminator, or is cut in a unique way at its
    last terminator. *)
Lemma text_after_last_terminator (text : string) :
  Spec.free_of ";" text = true
  \/ exists pre tail,
      text = pre ++ ";" ++ tail /\ Spec.free_of ";" tail = true.
Proof.
  induction text as [|c text IH]; [now left|].
  destruct IH as [Hfree|(pre & tail & -> & Htail)].
  - destruct (Ascii.eqb_spec c ";") as [->|Hne].
    + right. exists EmptyString, text. now split.
    + left. cbn [Spec.free_of]. rewrite Hfree.
      destruct (Ascii.eqb_spec c ";"); [contradiction | reflexivity].
  - right. exists (String c pre), tail. now split.
Qed.

End SplitterFacts.

(** C7.  The splitter cuts the text at each [;] and drops the one
    empty fragment that follows the last terminator: the text A;B;C;
    gives the commands A, B, C and the text A; gives the command A. *)
Theorem splitter_drops_trailing_empty_fragment :
  (forall path,
      read_sql_commands_from_file (file_holding "A;B;C;") path = Ok ["A"; "B"; "C"])
  /\ (forall path,
         read_sql_commands_from_file (file_holding "A;") path = Ok ["A"])
  /\ (forall text path,
         PyStr.split ";" (text ++ ";") = (PyStr.split ";" text ++ [EmptyString])%list
         /\ read_sql_commands_from_file (file_holding (text ++ ";")) path
            = Ok (PyStr.split ";" text)).
Proof.
  split; [reflexivity|]. split; [reflexivity|].
  intros text path. split.
  - apply split_terminated.
  - rewrite read_file_holding, split_terminated. now rewrite drop_last_snoc.
Qed.

(** C10.  The last fragment is removed whatever it holds.  When the
    text goes on after its last terminator (or has no terminator), what
    follows is not among the commands, and the replay of either family
    is the replay of the text cut after its last terminator: the last
    statement is not executed. *)
Theorem splitter_discards_unterminated_statement
        (pre tail path : string) :
  Spec.free_of ";" tail = true ->
  PyStr.split ";" (pre ++ ";" ++ tail) = (PyStr.split ";" pre ++ [tail])%list
  /\ read_sql_commands_from_file (file_holding (pre ++ ";" ++ tail)) path
     = Ok (PyStr.split ";" pre)
  /\ read_sql_commands_from_file (file_holding tail) path = Ok []
  /\ (forall (St : Type) (execute : St -> string -> result St)
             (db_type : string) (st : St),
         restore_script execute db_type (file_holding (pre ++ ";" ++ tail)) path st
         = restore_script execute db_type (file_holding (pre ++ ";")) path st).
Proof.
  intros H. split; [now apply split_tail|].
  split; [now apply read_tail|]. split.
  - rewrite read_file_holding, (split_char_free ";"%char) by assumption.
    reflexivity.
  - intros St execute db_type st. unfold restore_script.
    rewrite read_tail by assumption.
    change (pre ++ ";") with (pre ++ ";" ++ EmptyString).
    rewrite read_tail by reflexivity. reflexivity.
Qed.

(** C10 on a script whose second statement has no terminator. *)
Lemma splitter_discards_unterminated_statement_witness :
  read_sql_commands_from_file
    (file_holding "CREATE TABLE t (id int);INSERT INTO t VALUES (1)") "dump.sql"
  = Ok ["CREATE TABLE t (id int)"]
  /\ postgres_restore Examples.logging_execute ["CREATE TABLE t (id int)"] []
     = Ok ["CREATE TABLE t (id int)"].
Proof.
  destruct (splitter_discards_unterminated_statement
              "CREATE TABLE t (id int)" "INSERT INTO t VALUES (1)" "dump.sql")
    as (_ & H & _).
  - reflexivity.
  - split; [exact H | reflexivity].
Defined.

(* ================================================================= *)
(** * Driver faults *)

Section FaultFacts.
Context {St : Type}.
Variable execute : St -> string -> result St.

(** The handler of the MySQL restore turns every driver fault into a
    RestoreError that keeps the fault as its cause. *)
Lemma mysql_restore_wraps (sql_commands : list string) (st : St) (e : exn) :
  mysql_restore execute sql_commands st = Raise e ->
  match e with
  | DriverFault _ => False
  | _ => True
  end.
Proof.
  unfold mysql_restore, try_except_driver.
  destruct (foldM _ st sql_commands) as [a|[]]; intros H;
    inversion H; subst; exact I.
Qed.

(** The Postgres restore has no handler: the fault of the first
    failing statement is what the caller gets. *)
Lemma postgres_restore_fault
      (done todo : list string) (command : string) (st st' : St) (e : exn) :
  postgres_restore execute done st = Ok st' ->
  execute st' command = Raise e ->
  postgres_restore execute (done ++ command :: todo) st = Raise e.
Proof.
  unfold postgres_restore. revert st.
  induction done as [|c done IH]; intros st Hdone Hfault; cbn in *.
  - inversion Hdone; subst. now rewrite Hfault.
  - destruct (execute st c) as [st1|e1]; cbn in *; [|discriminate].
    now apply IH.
Qed.

End FaultFacts.

(** The handler of the MySQL backup turns every driver fault into a
    BackupError. *)
Lemma mysql_backup_wraps (srv : MySQL.server) (backup_type : string)
      (tables : option (list string)) (include_permissions : bool) (e : exn) :
  MySQL.backup srv backup_type tables include_permissions = Raise e ->
  match e with
  | DriverFault _ => False
  | _ => True
  end.
Proof.
  unfold MySQL.backup, try_except_driver.
  match goal with |- context [match ?b with Ok _ => _ | Raise _ => _ end] =>
    destruct b as [a|[]] end;
    intros H; inversion H; subst; exact I.
Qed.

(** The Postgres backup has no handler: a fault of its first query is
    what the caller gets. *)
Lemma postgres_backup_fault (srv : Postgres.server) (backup_type : string)
      (include_permissions : bool) (e : exn) :
  Postgres.information_schema_tables srv = Raise e ->
  Postgres.backup srv backup_type None include_permissions = Raise e.
Proof.
  intros H. unfold Postgres.backup, Postgres.backup_pieces, Postgres.target_tables.
  now rewrite H.
Qed.

(** The manager catches the domain errors only: a driver fault that the
    backup of the instance lets through goes through the manager too. *)
Lemma backup_manager_passes_driver_fault
      (srv : Postgres.server) (backup_type : string)
      (tables : option (list string)) (include_permissions : bool) (msg : string) :
  Postgres.backup srv backup_type tables include_permissions
  = Raise (DriverFault msg) ->
  BackupManager.backup (BackupManager.PostgresBackup srv)
                       backup_type tables include_permissions
  = Raise (DriverFault msg).
Proof. intros H. unfold BackupManager.backup. now rewrite H. Qed.

(** C9, evaluated on a script whose second statement the server
    rejects and on a server that has lost its connection.  The MySQL
    family raises the domain error with the fault as its cause; in the
    Postgres family the restore and the backup let the driver fault
    through as it is, and so does the backup manager above them. *)
Theorem postgres_driver_fault_not_wrapped :
  mysql_restore Examples.logging_execute
                ["CREATE TABLE t (id int)"; "BOGUS"; "DROP TABLE t"] []
  = Raise (RestoreError
             "An error occurred while restoring the database: syntax error at or near BOGUS"
             (DriverFault "syntax error at or near BOGUS"))
  /\ postgres_restore Examples.logging_execute
                      ["CREATE TABLE t (id int)"; "BOGUS"; "DROP TABLE t"] []
     = Raise (DriverFault "syntax error at or near BOGUS")
  /\ MySQL.backup Examples.broken_mysql "structure_data" None false
     = Raise (BackupError "Error during backup: server has gone away"
                          (DriverFault "server has gone away"))
  /\ Postgres.backup Examples.broken_postgres "structure_data" None false
     = Raise (DriverFault "connection already closed")
  /\ BackupManager.backup (BackupManager.MySQLBackup Examples.broken_mysql)
                          "structure_data" None false
     = Raise (BackupError
                "Failed to perform backup: Error during backup: server has gone away"
                (BackupError "Error during backup: server has gone away"
                             (DriverFault "server has gone away")))
  /\ BackupManager.backup (BackupManager.PostgresBackup Examples.broken_postgres)
                          "structure_data" None false
     = Raise (DriverFault "connection already closed").
Proof. repeat split; reflexivity. Qed.

(* ================================================================= *)
(** * The error monad *)

Lemma bind_ok {A B} (m : result A) (k : A -> result B) (b : B) :
  bind m k = Ok b -> exists a, m = Ok a /\ k a = Ok b.
Proof. destruct m as [a|e]; cbn; [eauto | discriminate]. Qed.

(** Splits a hypothesis [x <- m ;; k = Ok b] into [m = Ok a] and
    [k a = Ok b]. *)
Tactic Notation "bind_inv" hyp(H) "as" ident(a) ident(E) :=
  apply bind_ok in H; destruct H as (a & E & H).

Lemma mapM_ok_length {A B} (f : A -> result B) (xs : list A) (ys : list B) :
  mapM f xs = Ok ys -> Forall2 (fun x y => f x = Ok y) xs ys.
Proof.
  revert ys. induction xs as [|x xs IH]; intros ys H; cbn in H.
  - inversion H. constructor.
  - bind_inv H as y Ey. bind_inv H as ys' Eys. inversion H; subst.
    constructor; auto.
Qed.

Lemma mapM_total {A B} (f : A -> result B) (xs : list A) :
  Forall (fun x => exists y, f x = Ok y) xs -> exists ys, mapM f xs = Ok ys.
Proof.
  induction 1 as [|x xs (y & Hy) _ (ys & Hys)]; cbn [mapM].
  - now exists [].
  - rewrite Hy. cbn [bind]. rewrite Hys. cbn [bind]. now exists (y :: ys).
Qed.

Lemma foldM_total {A B} (f : A -> B -> result A) (xs : list B) :
  (forall acc x, In x xs -> exists acc', f acc x = Ok acc') ->
  forall acc, exists r, foldM f acc xs = Ok r.
Proof.
  induction xs as [|x xs IH]; intros Hf acc; cbn [foldM].
  - now exists acc.
  - destruct (Hf acc x (or_introl eq_refl)) as (acc' & ->). cbn [bind].
    apply IH. intros acc0 y Hy. apply Hf. now right.
Qed.

(* ================================================================= *)
(** * Dictionaries *)

Lemma dict_get_set {V} (d : dict V) (k q : string) (v : V) :
  dict_get (dict_set d k v) q
  = if String.eqb k q then Some v else dict_get d q.
Proof.
  induction d as [|[k' v'] d IH]; cbn [dict_set dict_get].
  - reflexivity.
  - destruct (String.eqb_spec k' k) as [->|Hk]; cbn [dict_get].
    + destruct (String.eqb k q); reflexivity.
    + rewrite IH. destruct (String.eqb_spec k' q) as [->|Hq]; [|reflexivity].
      destruct (String.eqb_spec k q) as [->|_]; [contradiction | reflexivity].
Qed.

Lemma dict_get_set_same {V} (d : dict V) (k : string) (v : V) :
  dict_get (dict_set d k v) k = Some v.
Proof. now rewrite dict_get_set, String.eqb_refl. Qed.

Lemma dict_get_set_other {V} (d : dict V) (k q : string) (v : V) :
  k <> q -> dict_get (dict_set d k v) q = dict_get d q.
Proof.
  intros H. rewrite dict_get_set.
  destruct (String.eqb_spec k q); [contradiction | reflexivity].
Qed.

(* ================================================================= *)
(** * BackupOrchestrator, Postgres family: the phases *)

Module PostgresFacts.
Import Postgres.

Lemma structure_phase_acc (srv : server) (defs : dict (list column))
      (ts : list string) :
  forall ps fs ps' fs',
    foldM (fun '(pieces, foreign_keys_to_add) table =>
             columns <- dict_item defs table ;;
             stmt <- create_table_statement srv table columns ;;
             foreign_keys <- get_foreign_keys srv table ;;
             Ok ((pieces ++ [mkPiece (TableStructure table) (stmt ++ nl)])%list,
                 (foreign_keys_to_add ++ [(table, foreign_keys)])%list))
          (ps, fs) ts = Ok (ps', fs') ->
    exists new,
      ps' = (ps ++ new)%list
      /\ fs' = (fs ++ map (fun t => (t, Spec.foreign_keys_of srv t)) ts)%list
      /\ Forall2 (Spec.structure_piece_of srv defs) ts new.
Proof.
  induction ts as [|t ts IH]; intros ps fs ps' fs' H; cbn [foldM] in H.
  - inversion H; subst. exists []. rewrite !app_nil_r. repeat split. constructor.
  - bind_inv H as st Est. destruct st as [ps1 fs1].
    bind_inv Est as columns Ecols. bind_inv Est as stmt Estmt.
    bind_inv Est as fks Efks. inversion Est; subst; clear Est.
    apply IH in H as (new & -> & -> & Hnew).
    exists (mkPiece (TableStructure t) (stmt ++ nl) :: new).
    rewrite <- !app_assoc. cbn [app map].
    unfold Spec.foreign_keys_of at 2. unfold get_foreign_keys in Efks.
    rewrite Efks.
    repeat split. constructor; [|exact Hnew].
    exists columns, stmt. auto.
Qed.

Lemma structure_phase_ok (srv : server) (defs : dict (list column))
      (ts : list string) (ps : list piece) (fs : list (string * list foreign_key)) :
  structure_phase srv defs ts = Ok (ps, fs) ->
  fs = map (fun t => (t, Spec.foreign_keys_of srv t)) ts
  /\ Forall2 (Spec.structure_piece_of srv defs) ts ps.
Proof.
  intros H. apply structure_phase_acc in H as (new & -> & -> & Hnew). auto.
Qed.

Lemma data_phase_acc (srv : server) (ts : list string) :
  forall ps ps',
    foldM (fun pieces table =>
             rows <- select_all srv table ;;
             cols <- information_schema_columns srv table ;;
             let columns := map (fun c => (col_name c, data_type c)) cols in
             match rows with
             | [] => Ok pieces
             | _ =>
                 stmt <- create_insert_statement table columns rows ;;
                 Ok (pieces ++ [mkPiece (TableData table) (stmt ++ nl)])%list
             end)
          ps ts = Ok ps' ->
    exists new,
      ps' = (ps ++ new)%list
      /\ map piece_origin new = map TableData (filter (Spec.has_rows srv) ts).
Proof.
  induction ts as [|t ts IH]; intros ps ps' H; cbn [foldM] in H.
  - inversion H; subst. exists []. now rewrite app_nil_r.
  - bind_inv H as ps1 E. bind_inv E as rows Erows. bind_inv E as cols Ecols.
    cbn [filter]. unfold Spec.has_rows at 1.
    rewrite Erows. destruct rows as [|row rows].
    + inversion E; subst. now apply IH.
    + bind_inv E as stmt Estmt. inversion E; subst; clear E.
      apply IH in H as (new & -> & Hnew).
      exists (mkPiece (TableData t) (stmt ++ nl) :: new).
      rewrite <- app_assoc. split; [reflexivity|]. cbn. now rewrite Hnew.
Qed.

Lemma data_phase_ok (srv : server) (ts : list string) (ps : list piece) :
  data_phase srv ts = Ok ps ->
  map piece_origin ps = map TableData (filter (Spec.has_rows srv) ts).
Proof. intros H. apply data_phase_acc in H as (new & -> & Hnew). exact Hnew. Qed.

Lemma permission_phase_acc (srv : server) (ts : list string) :
  forall ps ps',
    foldM (fun pieces table =>
             permissions <- get_table_permissions srv table ;;
             match permissions with
             | [] => Ok pieces
             | _ => Ok (pieces ++ [mkPiece (Permissions table)
                                           (create_permission_statements table permissions ++ nl)])%list
             end)
          ps ts = Ok ps' ->
    exists new,
      ps' = (ps ++ new)%list
      /\ map piece_origin new = map Permissions (filter (Spec.has_grants srv) ts).
Proof.
  induction ts as [|t ts IH]; intros ps ps' H; cbn [foldM] in H.
  - inversion H; subst. exists []. now rewrite app_nil_r.
  - bind_inv H as ps1 E. bind_inv E as grants Egrants.
    cbn [filter]. unfold Spec.has_grants at 1.
    unfold get_table_permissions in Egrants. rewrite Egrants.
    destruct grants as [|g gs].
    + inversion E; subst. now apply IH.
    + inversion E; subst; clear E.
      apply IH in H as (new & -> & Hnew).
      eexists (_ :: new).
      rewrite <- app_assoc. split; [reflexivity|]. cbn. now rewrite Hnew.
Qed.

Lemma permission_phase_ok (srv : server) (ts : list string) (ps : list piece) :
  permission_phase srv ts = Ok ps ->
  map piece_origin ps = map Permissions (filter (Spec.has_grants srv) ts).
Proof.
  intros H. apply permission_phase_acc in H as (new & -> & Hnew). exact Hnew.
Qed.

Lemma foreign_key_phase_flat_map (fs : list (string * list foreign_key)) :
  foreign_key_phase fs = flat_map Spec.foreign_key_piece fs.
Proof.
  unfold foreign_key_phase.
  enough (G : forall acc,
             fold_left (fun pieces '(table, foreign_keys) =>
                          match foreign_keys with
                          | [] => pieces
                          | _ => (pieces ++ [mkPiece (ForeignKeys table)
                                                     (create_foreign_key_statement foreign_keys ++ nl)])%list
                          end) fs acc
             = (acc ++ flat_map Spec.foreign_key_piece fs)%list)
    by apply (G []).
  induction fs as [|[t fks] fs IH]; intros acc; cbn [fold_left flat_map].
  - now rewrite app_nil_r.
  - rewrite IH. unfold Spec.foreign_key_piece at 2. cbn [fst snd].
    destruct fks; [reflexivity | now rewrite <- app_assoc].
Qed.

Lemma foreign_key_phase_origins (srv : server) (ts : list string) :
  map piece_origin
      (foreign_key_phase (map (fun t => (t, Spec.foreign_keys_of srv t)) ts))
  = map ForeignKeys (filter (Spec.has_foreign_keys srv) ts).
Proof.
  rewrite foreign_key_phase_flat_map.
  induction ts as [|t ts IH]; [reflexivity|].
  cbn [map flat_map filter]. rewrite map_app, IH.
  unfold Spec.foreign_key_piece at 1, Spec.has_foreign_keys at 2. cbn [fst snd].
  destruct (Spec.foreign_keys_of srv t); reflexivity.
Qed.

(** [table_definitions] holds answers of the server. *)
Lemma gather_definitions_acc (srv : server) (ts : list string) :
  forall defs0 deps0 defs deps,
    foldM (fun '(table_definitions, dependency_map) table =>
             columns <- get_table_definitions srv table ;;
             let table_definitions := dict_set table_definitions table columns in
             foreign_keys <- get_foreign_keys srv table ;;
             let dependency_map :=
               fold_left (fun m fk => defaultdict_append m table (foreign_table_name fk))
                         foreign_keys dependency_map in
             Ok (table_definitions, dependency_map))
          (defs0, deps0) ts = Ok (defs, deps) ->
    forall t columns,
      dict_get defs t = Some columns ->
      dict_get defs0 t = Some columns
      \/ information_schema_columns srv t = Ok columns.
Proof.
  induction ts as [|t0 ts IH]; intros defs0 deps0 defs deps H t columns Hget;
    cbn [foldM] in H.
  - inversion H; subst. now left.
  - bind_inv H as st Est. destruct st as [defs1 deps1].
    bind_inv Est as cols0 Ecols. bind_inv Est as fks Efks.
    inversion Est; subst; clear Est.
    destruct (IH _ _ _ _ H t columns Hget) as [Hset|Hq]; [|now right].
    rewrite dict_get_set in Hset.
    destruct (String.eqb_spec t0 t) as [->|_]; [|now left].
    inversion Hset; subst. now right.
Qed.

Lemma gather_definitions_ok (srv : server) (ts : list string)
      (defs : dict (list column)) (deps : dict (list string))
      (t : string) (columns : list column) :
  gather_definitions srv ts = Ok (defs, deps) ->
  dict_item defs t = Ok columns ->
  information_schema_columns srv t = Ok columns.
Proof.
  intros H Hitem. unfold dict_item in Hitem.
  destruct (dict_get defs t) as [cols|] eqn:Hget; [|discriminate].
  inversion Hitem; subst.
  destruct (gather_definitions_acc srv ts _ _ _ _ H t columns Hget) as [Hnil|Hq].
  - discriminate.
  - exact Hq.
Qed.

Lemma structure_phase_well_tagged (srv : server) (ts0 ts : list string)
      (defs : dict (list column)) (deps : dict (list string)) (ps : list piece) :
  gather_definitions srv ts0 = Ok (defs, deps) ->
  Forall2 (Spec.structure_piece_of srv defs) ts ps ->
  Forall (Spec.well_tagged srv) ps.
Proof.
  intros Hdefs. induction 1 as [|t p ts ps (columns & stmt & Hc & Hs & ->) _ IH];
    constructor; [|exact IH].
  exists columns, stmt. repeat split; [|exact Hs].
  eapply gather_definitions_ok; eassumption.
Qed.

Lemma data_phase_well_tagged_acc (srv : server) (ts : list string) :
  forall ps ps',
    foldM (fun pieces table =>
             rows <- select_all srv table ;;
             cols <- information_schema_columns srv table ;;
             let columns := map (fun c => (col_name c, data_type c)) cols in
             match rows with
             | [] => Ok pieces
             | _ =>
                 stmt <- create_insert_statement table columns rows ;;
                 Ok (pieces ++ [mkPiece (TableData table) (stmt ++ nl)])%list
             end)
          ps ts = Ok ps' ->
    Forall (Spec.well_tagged srv) ps -> Forall (Spec.well_tagged srv) ps'.
Proof.
  induction ts as [|t ts IH]; intros ps ps' H Hps; cbn [foldM] in H.
  - now inversion H; subst.
  - bind_inv H as ps1 E. bind_inv E as rows Erows. bind_inv E as cols Ecols.
    destruct rows as [|row rows].
    + inversion E; subst. now apply (IH _ _ H).
    + bind_inv E as stmt Estmt. inversion E; subst; clear E.
      apply (IH _ _ H), Forall_app. split; [exact Hps|].
      constructor; [|constructor].
      exists (row :: rows), cols, stmt. repeat split; try assumption. discriminate.
Qed.

Lemma permission_phase_well_tagged_acc (srv : server) (ts : list string) :
  forall ps ps',
    foldM (fun pieces table =>
             permissions <- get_table_permissions srv table ;;
             match permissions with
             | [] => Ok pieces
             | _ => Ok (pieces ++ [mkPiece (Permissions table)
                                           (create_permission_statements table permissions ++ nl)])%list
             end)
          ps ts = Ok ps' ->
    Forall (Spec.well_tagged srv) ps -> Forall (Spec.well_tagged srv) ps'.
Proof.
  induction ts as [|t ts IH]; intros ps ps' H Hps; cbn [foldM] in H.
  - now inversion H; subst.
  - bind_inv H as ps1 E. bind_inv E as grants Egrants.
    destruct grants as [|g gs].
    + inversion E; subst. now apply (IH _ _ H).
    + inversion E; subst; clear E.
      apply (IH _ _ H), Forall_app. split; [exact Hps|].
      constructor; [|constructor].
      exists (g :: gs). repeat split; [exact Egrants | discriminate].
Qed.

Lemma foreign_key_phase_well_tagged (srv : server) (ts : list string) :
  Forall (Spec.well_tagged srv)
         (foreign_key_phase (map (fun t => (t, Spec.foreign_keys_of srv t)) ts)).
Proof.
  rewrite foreign_key_phase_flat_map.
  induction ts as [|t ts IH]; cbn [map flat_map]; [constructor|].
  apply Forall_app. split; [|exact IH].
  unfold Spec.foreign_key_piece. cbn [fst snd].
  destruct (Spec.foreign_keys_of srv t) as [|fk fks] eqn:E; constructor;
    [|constructor].
  unfold Spec.well_tagged. cbn [piece_origin piece_text]. rewrite E.
  split; [discriminate | reflexivity].
Qed.

Lemma sequence_pieces_well_tagged (srv : server) (sequences : list string)
      (ps : list piece) :
  mapM (fun sequence =>
          stmt <- create_sequence_statement srv sequence ;;
          Ok (mkPiece (SequenceStatement sequence) (stmt ++ nl)))
       sequences = Ok ps ->
  Forall (Spec.well_tagged srv) ps.
Proof.
  intros H. apply mapM_ok_length in H.
  induction H as [|sequence p sequences ps Hp _ IH]; constructor; [|exact IH].
  bind_inv Hp as stmt Estmt. inversion Hp; subst. now exists stmt.
Qed.

Lemma type_pieces_well_tagged (srv : server) (types : dict (list string)) :
  Forall (Spec.well_tagged srv)
         (map (fun '(type_name, labels) =>
                 mkPiece (TypeStatement type_name)
                         (create_type_statement type_name labels ++ nl))
              (dict_items types)).
Proof.
  unfold dict_items. induction types as [|[n ls] types IH]; cbn [map];
    constructor; [now exists ls | exact IH].
Qed.

Lemma structure_phase_origins (srv : server) (defs : dict (list column))
      (ts : list string) (ps : list piece) :
  Forall2 (Spec.structure_piece_of srv defs) ts ps ->
  map piece_origin ps = map TableStructure ts.
Proof.
  induction 1 as [|t p ts ps (columns & stmt & _ & _ & ->) _ IH]; cbn.
  - reflexivity.
  - now rewrite IH.
Qed.

Lemma sequence_pieces_origins (srv : server) (sequences : list string)
      (ps : list piece) :
  mapM (fun sequence =>
          stmt <- create_sequence_statement srv sequence ;;
          Ok (mkPiece (SequenceStatement sequence) (stmt ++ nl)))
       sequences = Ok ps ->
  map piece_origin ps = map SequenceStatement sequences.
Proof.
  intros H. apply mapM_ok_length in H.
  induction H as [|sequence p sequences ps Hp _ IH]; cbn.
  - reflexivity.
  - bind_inv Hp as stmt Estmt. inversion Hp; subst. cbn. now rewrite IH.
Qed.

Lemma type_pieces_origins (types : dict (list string)) :
  map piece_origin
      (map (fun '(type_name, labels) =>
              mkPiece (TypeStatement type_name)
                      (create_type_statement type_name labels ++ nl))
           (dict_items types))
  = map TypeStatement (map fst types).
Proof.
  unfold dict_items. induction types as [|[n ls] types IH]; cbn [map fst].
  - reflexivity.
  - f_equal. exact IH.
Qed.

(** The pieces of a script follow its outline. *)
Lemma backup_pieces_outline (srv : server) (backup_type : string)
      (tables : option (list string)) (include_permissions : bool)
      (pieces : list piece) :
  backup_pieces srv backup_type tables include_permissions = Ok pieces ->
  exists all_tables include_sequences_and_types sequences types,
    target_tables srv tables = Ok (all_tables, include_sequences_and_types)
    /\ map piece_origin pieces
       = Spec.outline srv backup_type include_permissions all_tables
                      include_sequences_and_types sequences types.
Proof.
  unfold backup_pieces. intros H.
  bind_inv H as target Etarget. destruct target as [all_tables incl].
  bind_inv H as steps Esteps. clear steps Esteps.
  bind_inv H as gathered Egathered. destruct gathered as [defs deps].
  bind_inv H as retrieved Eretrieved. destruct retrieved as [sequences types].
  bind_inv H as sequences_sql Eseq.
  bind_inv H as structure Estructure. destruct structure as [tables_sql fks].
  bind_inv H as data_sql Edata.
  bind_inv H as permissions_sql Eperm.
  bind_inv H as closed Eclosed. inversion H; subst pieces; clear H.
  exists all_tables, incl, sequences, (map fst types).
  split; [exact Etarget|].
  unfold Spec.outline. rewrite !map_app.
  f_equal; [|f_equal; [|f_equal; [|f_equal; [|f_equal]]]].
  - destruct (wants_structure backup_type && incl);
      [apply type_pieces_origins | reflexivity].
  - destruct (wants_structure backup_type && incl).
    + now apply (sequence_pieces_origins srv).
    + now inversion Eseq.
  - destruct (wants_structure backup_type).
    + apply structure_phase_ok in Estructure as [_ Hps].
      now apply structure_phase_origins in Hps.
    + now inversion Estructure.
  - destruct (wants_data backup_type).
    + now apply data_phase_ok.
    + now inversion Edata.
  - destruct (wants_structure backup_type); [|reflexivity].
    apply structure_phase_ok in Estructure as [-> _].
    apply foreign_key_phase_origins.
  - destruct include_permissions.
    + now apply permission_phase_ok.
    + now inversion Eperm.
Qed.

(** Every piece of a script is the statement that its origin names. *)
Lemma backup_pieces_well_tagged (srv : server) (backup_type : string)
      (tables : option (list string)) (include_permissions : bool)
      (pieces : list piece) :
  backup_pieces srv backup_type tables include_permissions = Ok pieces ->
  Forall (Spec.well_tagged srv) pieces.
Proof.
  unfold backup_pieces. intros H.
  bind_inv H as target Etarget. destruct target as [all_tables incl].
  bind_inv H as steps Esteps. clear steps Esteps.
  bind_inv H as gathered Egathered. destruct gathered as [defs deps].
  bind_inv H as retrieved Eretrieved. destruct retrieved as [sequences types].
  bind_inv H as sequences_sql Eseq.
  bind_inv H as structure Estructure. destruct structure as [tables_sql fks].
  bind_inv H as data_sql Edata.
  bind_inv H as permissions_sql Eperm.
  bind_inv H as closed Eclosed. inversion H; subst pieces; clear H.
  repeat (apply Forall_app; split).
  - destruct (wants_structure backup_type && incl);
      [apply type_pieces_well_tagged | constructor].
  - destruct (wants_structure backup_type && incl).
    + now apply sequence_pieces_well_tagged in Eseq.
    + inversion Eseq. constructor.
  - destruct (wants_structure backup_type).
    + apply structure_phase_ok in Estructure as [_ Hps].
      eapply structure_phase_well_tagged; eassumption.
    + inversion Estructure. constructor.
  - destruct (wants_data backup_type).
    + apply (data_phase_well_tagged_acc srv all_tables [] data_sql Edata).
      constructor.
    + inversion Edata. constructor.
  - destruct (wants_structure backup_type); [|constructor].
    apply structure_phase_ok in Estructure as [-> _].
    apply foreign_key_phase_well_tagged.
  - destruct include_permissions.
    + apply (permission_phase_well_tagged_acc srv all_tables [] permissions_sql Eperm).
      constructor.
    + inversion Eperm. constructor.
Qed.

End PostgresFacts.

(* ================================================================= *)
(** * BackupOrchestrator, Postgres family: what a script holds *)

Section Selection.

Lemma flat_map_map_single {A B} (f : B -> list A) (g : A -> B) (l : list A) :
  (forall x, f (g x) = [x]) -> flat_map f (map g l) = l.
Proof.
  intros H. induction l as [|x l IH]; cbn; [reflexivity|].
  now rewrite H, IH.
Qed.

Lemma flat_map_map_nil {A B C} (f : B -> list C) (g : A -> B) (l : list A) :
  (forall x, f (g x) = []) -> flat_map f (map g l) = [].
Proof.
  intros H. induction l as [|x l IH]; cbn; [reflexivity|].
  now rewrite H, IH.
Qed.

End Selection.

(** Selects the tables of one kind of piece in an outline. *)
Ltac select_in_outline :=
  unfold Spec.outline;
  repeat match goal with
         | |- context [if ?b then _ else _] => destruct b
         end;
  rewrite ?flat_map_app;
  repeat first [ rewrite flat_map_map_single by (intros; reflexivity)
               | rewrite flat_map_map_nil by (intros; reflexivity) ];
  cbn [flat_map app]; rewrite ?app_nil_r; try reflexivity.

Section OutlineFacts.
Variable srv : Postgres.server.
Variables (backup_type : string) (include_permissions : bool).
Variables (all_tables : list string) (incl : bool) (sequences types : list string).

Lemma outline_structure_tables :
  flat_map Spec.structure_table
           (Spec.outline srv backup_type include_permissions all_tables incl
                         sequences types)
  = if wants_structure backup_type then all_tables else [].
Proof. select_in_outline. Qed.

Lemma outline_foreign_key_tables :
  flat_map Spec.foreign_key_table
           (Spec.outline srv backup_type include_permissions all_tables incl
                         sequences types)
  = if wants_structure backup_type
    then filter (Spec.has_foreign_keys srv) all_tables else [].
Proof. select_in_outline. Qed.

Lemma outline_data_tables :
  flat_map Spec.data_table
           (Spec.outline srv backup_type include_permissions all_tables incl
                         sequences types)
  = if wants_data backup_type
    then filter (Spec.has_rows srv) all_tables else [].
Proof. select_in_outline. Qed.

(** Without the sequences and the types in scope the outline names
    neither. *)
Lemma outline_without_sequences_and_types :
  incl = false ->
  Forall (fun o => Spec.is_sequence_or_type o = false)
       (Spec.outline srv backup_type include_permissions all_tables incl
                     sequences types).
Proof.
  intros ->. unfold Spec.outline.
  rewrite andb_false_r.
  repeat match goal with
         | |- context [if ?b then _ else _] => destruct b
         end;
    repeat (apply Forall_app; split);
    try (apply Forall_nil);
    apply Forall_forall; intros o Ho; apply in_map_iff in Ho as (t & <- & _);
    reflexivity.
Qed.

(** The outline is in two parts: no foreign key piece in the first,
    no table structure piece in the second. *)
Lemma outline_two_parts :
  exists first second,
    Spec.outline srv backup_type include_permissions all_tables incl
                 sequences types
    = (first ++ second)%list
    /\ Forall (fun o => Spec.is_foreign_keys o = false) first
    /\ Forall (fun o => Spec.is_table_structure o = false) second.
Proof.
  unfold Spec.outline.
  match goal with
  | |- context [(?a ++ ?b ++ ?c ++ ?d ++ ?e ++ ?f)%list] =>
      exists (a ++ b ++ c ++ d)%list, (e ++ f)%list
  end.
  split; [now rewrite <- !app_assoc|].
  split;
    repeat match goal with
           | |- context [if ?b then _ else _] => destruct b
           end;
    repeat (apply Forall_app; split);
    try (apply Forall_nil);
    apply Forall_forall; intros o Ho; apply in_map_iff in Ho as (t & <- & _);
    reflexivity.
Qed.

End OutlineFacts.

(** In a list in two parts, what can only be in the second part comes
    after what can only be in the first. *)
Lemma two_parts_order {A} (P Q : A -> bool) (l1 l2 : list A) :
  Forall (fun x => P x = false) l1 -> Forall (fun x => Q x = false) l2 ->
  forall i j x y,
    nth_error (l1 ++ l2) i = Some x -> nth_error (l1 ++ l2) j = Some y ->
    P x = true -> Q y = true -> j < i.
Proof.
  intros H1 H2 i j x y Hi Hj Px Qy.
  rewrite Forall_forall in H1, H2.
  destruct (Nat.lt_ge_cases i (List.length l1)) as [Hlt|Hge].
  - rewrite nth_error_app1 in Hi by assumption.
    apply nth_error_In, H1 in Hi. congruence.
  - destruct (Nat.lt_ge_cases j (List.length l1)) as [Hlt'|Hge']; [lia|].
    rewrite nth_error_app2 in Hj by assumption.
    apply nth_error_In, H2 in Hj. congruence.
Qed.

(** C4.  With an explicit list of tables the script has no sequence
    statement and no enum type statement, whatever the backup type and
    whatever sequences and enum types the database has: none of its
    pieces comes from there, each piece is the statement its origin
    names, and the whole outcome of the backup is the same for any
    other sequences and enum types. *)
Theorem explicit_tables_exclude_sequences_and_types
        (srv : Postgres.server) (backup_type : string) (tables : list string)
        (include_permissions : bool) :
  (forall pieces,
      Postgres.backup_pieces srv backup_type (Some tables) include_permissions
      = Ok pieces ->
      Postgres.backup srv backup_type (Some tables) include_permissions
      = Ok (Postgres.render pieces)
      /\ Forall (Spec.well_tagged srv) pieces
      /\ Forall (fun p => Spec.is_sequence_or_type (Postgres.piece_origin p) = false)
                pieces)
  /\ (forall sequences infos enums,
         Postgres.backup (Spec.with_sequences_and_types srv sequences infos enums)
                         backup_type (Some tables) include_permissions
         = Postgres.backup srv backup_type (Some tables) include_permissions).
Proof.
  split.
  - intros pieces H. split; [|split].
    + unfold Postgres.backup. now rewrite H.
    + now apply PostgresFacts.backup_pieces_well_tagged in H.
    + apply PostgresFacts.backup_pieces_outline in H
        as (all_tables & incl & sequences & types & Htarget & Houtline).
      cbn in Htarget. inversion Htarget; subst.
      apply (proj1 (Forall_map Postgres.piece_origin
                               (fun o => Spec.is_sequence_or_type o = false)
                               pieces)).
      rewrite Houtline.
      now apply outline_without_sequences_and_types.
  - intros sequences infos enums.
    unfold Postgres.backup, Postgres.backup_pieces.
    cbn [Postgres.target_tables bind]. rewrite !andb_false_r. reflexivity.
Qed.

(** C4 on the shop database, which has a sequence and an enum type. *)
Lemma explicit_tables_exclude_sequences_and_types_witness :
  exists pieces,
    Postgres.backup Examples.shop_db "structure_data" (Some ["orders"; "customers"]) true
    = Ok (Postgres.render pieces)
    /\ map Postgres.piece_origin pieces
       = [Postgres.TableStructure "orders"; Postgres.TableStructure "customers";
          Postgres.TableData "customers"; Postgres.ForeignKeys "orders";
          Postgres.Permissions "orders"; Postgres.Permissions "customers"]
    /\ Forall (fun p => Spec.is_sequence_or_type (Postgres.piece_origin p) = false)
              pieces.
Proof.
  destruct (Postgres.backup_pieces Examples.shop_db "structure_data"
                                   (Some ["orders"; "customers"]) true)
    as [pieces|e] eqn:E; [|discriminate E].
  exists pieces.
  destruct (explicit_tables_exclude_sequences_and_types
              Examples.shop_db "structure_data" ["orders"; "customers"] true)
    as [H _].
  destruct (H pieces E) as (Hb & _ & Hf).
  split; [exact Hb|]. split; [|exact Hf].
  vm_compute in E. inversion E. reflexivity.
Defined.

Lemma text_of_cons (p : Postgres.piece) (ps : list Postgres.piece) :
  Postgres.text_of (p :: ps) = Postgres.piece_text p ++ Postgres.text_of ps.
Proof.
  unfold Postgres.text_of. cbn [map String.concat].
  destruct (map Postgres.piece_text ps); [now rewrite string_app_nil_r|].
  reflexivity.
Qed.

Lemma text_of_app (ps qs : list Postgres.piece) :
  Postgres.text_of (ps ++ qs) = Postgres.text_of ps ++ Postgres.text_of qs.
Proof.
  induction ps as [|p ps IH]; [reflexivity|].
  cbn [app]. now rewrite !text_of_cons, IH, string_app_assoc.
Qed.

(** C5.  In a script, every piece of deferred foreign key statements
    (the ALTER TABLE ... ADD CONSTRAINT statements of one table) comes
    after every CREATE TABLE piece: the script is the preamble, a first
    part without foreign key statements and a second part without
    CREATE TABLE statements.  The foreign key pieces follow the order
    of the CREATE TABLE pieces: their tables are the tables of the
    CREATE TABLE pieces that have foreign keys, in that order.  Under a
    backup type with structure the CREATE TABLE pieces are those of the
    target tables, in retrieval order. *)
Theorem foreign_keys_follow_every_create
        (srv : Postgres.server) (backup_type : string)
        (tables : option (list string)) (include_permissions : bool)
        (pieces : list Postgres.piece) :
  Postgres.backup_pieces srv backup_type tables include_permissions = Ok pieces ->
  Postgres.backup srv backup_type tables include_permissions
  = Ok (Postgres.render pieces)
  /\ Forall (Spec.well_tagged srv) pieces
  /\ (exists before after,
         pieces = (before ++ after)%list
         /\ Postgres.render pieces
            = Postgres.preamble ++ Postgres.text_of before ++ Postgres.text_of after
         /\ Forall (fun p => Spec.is_foreign_keys (Postgres.piece_origin p) = false)
                   before
         /\ Forall (fun p => Spec.is_table_structure (Postgres.piece_origin p) = false)
                   after)
  /\ (forall i j p q,
         nth_error pieces i = Some p -> nth_error pieces j = Some q ->
         Spec.is_foreign_keys (Postgres.piece_origin p) = true ->
         Spec.is_table_structure (Postgres.piece_origin q) = true ->
         j < i)
  /\ Spec.foreign_key_tables pieces
     = filter (Spec.has_foreign_keys srv) (Spec.structure_tables pieces)
  /\ (wants_structure backup_type = true ->
      exists all_tables include_sequences_and_types,
        Postgres.target_tables srv tables
        = Ok (all_tables, include_sequences_and_types)
        /\ Spec.structure_tables pieces = all_tables).
Proof.
  intros H. split; [|split].
  { unfold Postgres.backup. now rewrite H. }
  { now apply PostgresFacts.backup_pieces_well_tagged in H. }
  apply PostgresFacts.backup_pieces_outline in H
    as (all_tables & incl & sequences & types & Htarget & Houtline).
  assert (Hparts : exists before after,
             pieces = (before ++ after)%list
             /\ Forall (fun p => Spec.is_foreign_keys (Postgres.piece_origin p) = false)
                       before
             /\ Forall (fun p => Spec.is_table_structure (Postgres.piece_origin p) = false)
                       after).
  { destruct (outline_two_parts srv backup_type include_permissions
                                all_tables incl sequences types)
      as (first & second & Hsplit & Hfirst & Hsecond).
    pose proof Houtline as Hmap. rewrite Hsplit in Hmap.
    apply map_eq_app in Hmap as (before & after & Hpieces & <- & <-).
    exists before, after. split; [exact Hpieces|].
    split; [now apply Forall_map in Hfirst | now apply Forall_map in Hsecond]. }
  destruct Hparts as (before & after & Hpieces & Hbefore & Hafter).
  split; [|split; [|split]].
  - exists before, after. split; [exact Hpieces|]. split; [|now split].
    unfold Postgres.render. now rewrite Hpieces, text_of_app.
  - intros i j p q Hi Hj Hp Hq. rewrite Hpieces in Hi, Hj.
    exact (two_parts_order
             (fun p => Spec.is_foreign_keys (Postgres.piece_origin p))
             (fun p => Spec.is_table_structure (Postgres.piece_origin p))
             _ _ Hbefore Hafter _ _ _ _ Hi Hj Hp Hq).
  - unfold Spec.foreign_key_tables, Spec.structure_tables. rewrite Houtline.
    rewrite outline_foreign_key_tables, outline_structure_tables.
    now destruct (wants_structure backup_type).
  - intros Hs. exists all_tables, incl. split; [exact Htarget|].
    unfold Spec.structure_tables.
    now rewrite Houtline, outline_structure_tables, Hs.
Qed.

(** C5 on the shop database, where [orders] refers to [customers]. *)
Lemma foreign_keys_follow_every_create_witness :
  exists pieces,
    Postgres.backup Examples.shop_db "structure_data" None false
    = Ok (Postgres.render pieces)
    /\ Spec.structure_tables pieces = ["customers"; "orders"]
    /\ Spec.foreign_key_tables pieces = ["orders"].
Proof.
  destruct (Postgres.backup_pieces Examples.shop_db "structure_data" None false)
    as [pieces|e] eqn:E; [|discriminate E].
  exists pieces.
  destruct (foreign_keys_follow_every_create _ _ _ _ _ E)
    as (Hb & _ & _ & _ & Hfk & Hst).
  destruct (Hst eq_refl) as (all_tables & incl & Htarget & Hall).
  split; [exact Hb|].
  rewrite Hfk, Hall. vm_compute in Htarget. inversion Htarget; subst.
  split; reflexivity.
Defined.

(* ================================================================= *)
(** * BackupOrchestrator, Postgres family: rows and kinds of relations *)

(** A target table without rows has its CREATE TABLE statement in the
    script and no INSERT statement. *)
Lemma postgres_empty_table
      (srv : Postgres.server) (backup_type : string)
      (tables : option (list string)) (include_permissions : bool)
      (pieces : list Postgres.piece)
      (all_tables : list string) (incl : bool) (table : string) :
  Postgres.backup_pieces srv backup_type tables include_permissions = Ok pieces ->
  Postgres.target_tables srv tables = Ok (all_tables, incl) ->
  wants_structure backup_type = true ->
  In table all_tables ->
  Postgres.select_all srv table = Ok [] ->
  (exists p columns stmt,
      In p pieces
      /\ Postgres.piece_origin p = Postgres.TableStructure table
      /\ Postgres.information_schema_columns srv table = Ok columns
      /\ Postgres.create_table_statement srv table columns = Ok stmt
      /\ Postgres.piece_text p = stmt ++ nl)
  /\ ~ In table (Spec.data_tables pieces).
Proof.
  intros H Htarget Hs Hin Hrows.
  pose proof (PostgresFacts.backup_pieces_well_tagged _ _ _ _ _ H) as Htag.
  apply PostgresFacts.backup_pieces_outline in H
    as (all' & incl' & sequences & types & Htarget' & Houtline).
  rewrite Htarget in Htarget'. inversion Htarget'; subst all' incl'.
  split.
  - assert (Hst : In table (Spec.structure_tables pieces)).
    { unfold Spec.structure_tables.
      now rewrite Houtline, outline_structure_tables, Hs. }
    unfold Spec.structure_tables in Hst. rewrite flat_map_concat_map in Hst.
    apply in_concat in Hst as (l & Hl & Ht).
    apply in_map_iff in Hl as (o & <- & Ho).
    apply in_map_iff in Ho as (p & <- & Hp).
    rewrite Forall_forall in Htag. specialize (Htag p Hp).
    unfold Spec.well_tagged in Htag.
    destruct (Postgres.piece_origin p) eqn:Eo; cbn in Ht; try contradiction.
    destruct Ht as [->|[]].
    destruct Htag as (columns & stmt & Hc & Hstmt & Htext).
    exists p, columns, stmt. auto.
  - unfold Spec.data_tables. rewrite Houtline, outline_data_tables.
    destruct (wants_data backup_type); [|exact (fun x => x)].
    rewrite filter_In. unfold Spec.has_rows. rewrite Hrows.
    intros [_ Hf]. discriminate.
Qed.

(** When all tables are asked for, the tables with an INSERT statement
    are base tables of the catalog. *)
Lemma postgres_all_tables_data_is_base
      (srv : Postgres.server) (backup_type : string)
      (include_permissions : bool) (pieces : list Postgres.piece)
      (table : string) :
  Postgres.backup_pieces srv backup_type None include_permissions = Ok pieces ->
  In table (Spec.data_tables pieces) ->
  exists rows,
    Postgres.information_schema_tables srv = Ok rows
    /\ In (table, "BASE TABLE") rows.
Proof.
  intros H Hin.
  apply PostgresFacts.backup_pieces_outline in H
    as (all_tables & incl & sequences & types & Htarget & Houtline).
  unfold Spec.data_tables in Hin. rewrite Houtline, outline_data_tables in Hin.
  destruct (wants_data backup_type); [|contradiction].
  apply filter_In in Hin as [Hin _].
  cbn in Htarget.
  destruct (Postgres.information_schema_tables srv) as [rows|e]; [|discriminate].
  cbn in Htarget. inversion Htarget; subst. exists rows. split; [reflexivity|].
  apply in_map_iff in Hin as ([name kind] & <- & Hrow).
  apply filter_In in Hrow as [Hrow Hkind]. cbn in Hkind.
  apply String.eqb_eq in Hkind. now subst kind.
Qed.

(** C6, evaluated on a backup of the data of an explicit list that
    names a view: the view is a VIEW in the catalog, and the script has
    an INSERT statement for it. *)
Theorem postgres_explicit_view_gets_insert :
  Spec.table_kind Examples.shop_db "vip_customers" = Some "VIEW"
  /\ Postgres.backup_pieces Examples.shop_db "data" (Some ["vip_customers"]) false
     = Ok [Postgres.mkPiece
             (Postgres.TableData "vip_customers")
             ("INSERT INTO public.vip_customers (id, name) VALUES " ++ nl
              ++ "(1, 'O''Brien')," ++ nl ++ "(2, NULL);" ++ nl)]
  /\ Postgres.backup Examples.shop_db "data" (Some ["vip_customers"]) false
     = Ok (Postgres.preamble
           ++ "INSERT INTO public.vip_customers (id, name) VALUES " ++ nl
           ++ "(1, 'O''Brien')," ++ nl ++ "(2, NULL);" ++ nl).
Proof. repeat split; reflexivity. Qed.

(* ================================================================= *)
(** * BackupOrchestrator, MySQL family *)

Module MySQLFacts.
Import MySQL.

(** One turn of the loop for a table without rows, under a backup type
    with structure: the structure fragment and no data fragment. *)
Lemma backup_table_empty (srv : server) (backup_type : string)
      (backup_data : artifact) (header_written : bool)
      (table table_type : string) (column_names : list string)
      (st : artifact * bool) :
  wants_structure backup_type = true ->
  select_all srv table = Ok (column_names, []) ->
  backup_table srv backup_type (backup_data, header_written) (table, table_type)
  = Ok st ->
  exists create_table_statement,
    show_create_table srv table = Ok create_table_statement
    /\ st = (dict_set backup_data table
                      (Spec.opening header_written
                       ++ [structure_fragment table table_type create_table_statement])%list,
             true).
Proof.
  intros Hs Hrows H. unfold backup_table in H. rewrite Hs in H.
  destruct header_written; cbn [negb app Spec.opening] in *.
  - bind_inv H as frags E. bind_inv E as stmt Estmt. inversion E; subst; clear E.
    exists stmt. split; [exact Estmt|].
    destruct (String.eqb table_type "BASE TABLE" && wants_data backup_type).
    + rewrite Hrows in H. cbn in H. now inversion H.
    + cbn in H. now inversion H.
  - bind_inv H as frags E. bind_inv E as stmt Estmt. inversion E; subst; clear E.
    exists stmt. split; [exact Estmt|].
    destruct (String.eqb table_type "BASE TABLE" && wants_data backup_type).
    + rewrite Hrows in H. cbn in H. now inversion H.
    + cbn in H. now inversion H.
Qed.

(** One turn of the loop for a relation that is not a base table: its
    rows are not read and its list has no data fragment. *)
Lemma backup_table_not_base (srv : server) (backup_type : string)
      (backup_data : artifact) (header_written : bool)
      (table table_type : string) (st : artifact * bool) :
  String.eqb table_type "BASE TABLE" = false ->
  backup_table srv backup_type (backup_data, header_written) (table, table_type)
  = Ok st ->
  exists structure,
    (if wants_structure backup_type
     then exists create_table_statement,
         show_create_table srv table = Ok create_table_statement
         /\ structure = [structure_fragment table table_type create_table_statement]
     else structure = [])
    /\ st = (dict_set backup_data table (Spec.opening header_written ++ structure)%list,
             true).
Proof.
  intros Hk H. unfold backup_table in H. rewrite Hk in H. cbn [andb] in H.
  destruct (wants_structure backup_type), header_written;
    cbn [negb app Spec.opening] in *.
  - bind_inv H as frags E. bind_inv E as stmt Estmt. inversion E; subst; clear E.
    cbn in H. inversion H; subst. eexists. split; [eauto | reflexivity].
  - bind_inv H as frags E. bind_inv E as stmt Estmt. inversion E; subst; clear E.
    cbn in H. inversion H; subst. eexists. split; [eauto | reflexivity].
  - cbn in H. inversion H; subst. exists []. split; reflexivity.
  - cbn in H. inversion H; subst. exists []. split; reflexivity.
Qed.

(** A turn of the loop assigns to the key of its table only. *)
Lemma backup_table_other (srv : server) (backup_type : string)
      (backup_data : artifact) (header_written : bool)
      (entry : string * string) (backup_data' : artifact) (header_written' : bool)
      (key : string) :
  backup_table srv backup_type (backup_data, header_written) entry
  = Ok (backup_data', header_written') ->
  fst entry <> key ->
  dict_get backup_data' key = dict_get backup_data key.
Proof.
  destruct entry as [table table_type]. unfold backup_table. intros H Hne.
  destruct (negb header_written);
    bind_inv H as frags1 E1; bind_inv H as frags2 E2; inversion H; subst;
    now apply dict_get_set_other.
Qed.

Lemma backup_loop_other (srv : server) (backup_type : string)
      (entries : list (string * string)) (key : string) :
  forall backup_data header_written backup_data' header_written',
    foldM (backup_table srv backup_type) (backup_data, header_written) entries
    = Ok (backup_data', header_written') ->
    ~ In key (map fst entries) ->
    dict_get backup_data' key = dict_get backup_data key.
Proof.
  induction entries as [|entry entries IH];
    intros bd hw bd' hw' H Hnot; cbn [foldM] in H.
  - now inversion H.
  - bind_inv H as st Est. destruct st as [bd1 hw1].
    rewrite (IH _ _ _ _ H) by (intros Hin; apply Hnot; now right).
    eapply backup_table_other; [eassumption|].
    intros Heq. apply Hnot. now left.
Qed.

(** After the loop, the list of a table without rows is the structure
    fragment, preceded by the header for the first table. *)
Lemma backup_loop_empty (srv : server) (backup_type : string)
      (entries : list (string * string))
      (table : string) (column_names : list string) :
  wants_structure backup_type = true ->
  select_all srv table = Ok (column_names, []) ->
  In table (map fst entries) ->
  forall backup_data header_written backup_data' header_written',
    foldM (backup_table srv backup_type) (backup_data, header_written) entries
    = Ok (backup_data', header_written') ->
    exists table_type create_table_statement opened,
      In (table, table_type) entries
      /\ show_create_table srv table = Ok create_table_statement
      /\ dict_get backup_data' table
         = Some (Spec.opening opened
                 ++ [structure_fragment table table_type create_table_statement])%list.
Proof.
  intros Hs Hrows. induction entries as [|[name kind] entries IH];
    intros Hin bd hw bd' hw' H; [contradiction|].
  cbn [foldM] in H. bind_inv H as st Est. destruct st as [bd1 hw1].
  destruct (in_dec string_dec table (map fst entries)) as [Hlater|Hlast].
  - destruct (IH Hlater _ _ _ _ H) as (ty & stmt & opened & Hty & Hstmt & Hget).
    exists ty, stmt, opened. split; [now right | now split].
  - destruct Hin as [Heq|Hin]; [|contradiction]. cbn [fst] in Heq. subst name.
    apply (backup_table_empty _ _ _ _ _ _ column_names) in Est
      as (stmt & Hstmt & Hst); [|assumption..].
    inversion Hst; subst. exists kind, stmt, hw.
    split; [now left|]. split; [exact Hstmt|].
    rewrite (backup_loop_other _ _ _ _ _ _ _ _ H Hlast).
    apply dict_get_set_same.
Qed.

Lemma try_except_driver_ok {A} (body : result A) (handler : exn -> result A) (a : A) :
  (forall e, handler e <> Ok a) ->
  try_except_driver body handler = Ok a -> body = Ok a.
Proof.
  intros Hh. unfold try_except_driver.
  destruct body as [x|[]]; intros H; try assumption; try discriminate.
  now apply Hh in H.
Qed.

(** Apart from the keys that the artifact reserves, a table without
    rows keeps its structure fragment, and gets no data fragment, in
    the artifact. *)
Lemma artifact_empty_table (srv : server) (backup_type : string)
      (tables : option (list string)) (include_permissions : bool)
      (art : artifact) (entries : list (string * string))
      (table : string) (column_names : list string) :
  backup srv backup_type tables include_permissions = Ok art ->
  match tables with
  | None => tables_all srv
  | Some ts => tables_in srv ts
  end = Ok entries ->
  In table (map fst entries) ->
  wants_structure backup_type = true ->
  select_all srv table = Ok (column_names, []) ->
  table <> "footer" ->
  include_permissions = false \/ table <> "permissions" ->
  exists table_type create_table_statement opened,
    In (table, table_type) entries
    /\ show_create_table srv table = Ok create_table_statement
    /\ dict_get art table
       = Some (Spec.opening opened
               ++ [structure_fragment table table_type create_table_statement])%list.
Proof.
  intros H Hentries Hin Hs Hrows Hfooter Hperm.
  unfold backup in H. apply try_except_driver_ok in H; [|discriminate].
  rewrite Hentries in H. cbn [bind] in H.
  bind_inv H as st Eloop. destruct st as [bd hw].
  bind_inv H as bd1 Eperm. bind_inv H as closed Eclose.
  inversion H; subst art; clear H.
  destruct (backup_loop_empty _ _ _ _ _ Hs Hrows Hin _ _ _ _ Eloop)
    as (ty & stmt & opened & Hty & Hstmt & Hget).
  exists ty, stmt, opened. split; [exact Hty|]. split; [exact Hstmt|].
  assert (Hget1 : dict_get bd1 table = dict_get bd table).
  { destruct include_permissions.
    - bind_inv Eperm as grants Egrants. inversion Eperm; subst.
      apply dict_get_set_other. destruct Hperm; congruence.
    - now inversion Eperm. }
  rewrite <- Hget, <- Hget1.
  destruct hw; [|reflexivity].
  apply dict_get_set_other. congruence.
Qed.

End MySQLFacts.

(** A data fragment is neither the header nor a structure fragment. *)
Lemma data_fragment_not_opening_or_structure
      (table table' table_type stmt : string) (column_names : list string)
      (rows : list (list pyvalue)) (opened : bool) :
  ~ In (MySQL.data_fragment table column_names rows)
       (Spec.opening opened ++ [MySQL.structure_fragment table' table_type stmt])%list.
Proof.
  intros H. apply in_app_or in H as [H|[H|[]]].
  - destruct opened; [contradiction|]. destruct H as [H|[]].
    unfold MySQL.data_fragment in H. cbn [append] in H. discriminate H.
  - unfold MySQL.data_fragment, MySQL.structure_fragment in H.
    destruct (String.eqb table_type "VIEW"); cbn [append] in H; discriminate H.
Qed.

(** Where a table without rows does get its structure and no INSERT
    statement, under a backup type with structure.  MySQL family, for a
    table whose name is not a key under which [backup] also stores the
    grants or the footer ([footer]; [permissions] when the permissions
    are included): the list of the table is its structure fragment,
    after the header for the first table, and no data fragment is in
    it.  Postgres family, for every table, whatever its name: the
    script has the piece with the CREATE TABLE statement of the table
    and no piece with an INSERT statement for it. *)
Theorem empty_table_structure_without_insert :
  (forall (srv : MySQL.server) (backup_type : string)
          (tables : option (list string)) (include_permissions : bool)
          (art : MySQL.artifact) (entries : list (string * string))
          (table : string) (column_names : list string),
      MySQL.backup srv backup_type tables include_permissions = Ok art ->
      match tables with
      | None => MySQL.tables_all srv
      | Some ts => MySQL.tables_in srv ts
      end = Ok entries ->
      In table (map fst entries) ->
      wants_structure backup_type = true ->
      MySQL.select_all srv table = Ok (column_names, []) ->
      table <> "footer" ->
      include_permissions = false \/ table <> "permissions" ->
      exists table_type create_table_statement fragments,
        In (table, table_type) entries
        /\ MySQL.show_create_table srv table = Ok create_table_statement
        /\ dict_get art table = Some fragments
        /\ In (MySQL.structure_fragment table table_type create_table_statement)
              fragments
        /\ (forall names rows, ~ In (MySQL.data_fragment table names rows) fragments))
  /\ (forall (srv : Postgres.server) (backup_type : string)
             (tables : option (list string)) (include_permissions : bool)
             (pieces : list Postgres.piece)
             (all_tables : list string) (incl : bool) (table : string),
         Postgres.backup_pieces srv backup_type tables include_permissions = Ok pieces ->
         Postgres.target_tables srv tables = Ok (all_tables, incl) ->
         wants_structure backup_type = true ->
         In table all_tables ->
         Postgres.select_all srv table = Ok [] ->
         Postgres.backup srv backup_type tables include_permissions
         = Ok (Postgres.render pieces)
         /\ (exists p columns stmt,
                In p pieces
                /\ Postgres.piece_origin p = Postgres.TableStructure table
                /\ Postgres.information_schema_columns srv table = Ok columns
                /\ Postgres.create_table_statement srv table columns = Ok stmt
                /\ Postgres.piece_text p = stmt ++ nl)
         /\ ~ In table (Spec.data_tables pieces)).
Proof.
  split.
  - intros srv backup_type tables include_permissions art entries table
           column_names H Hentries Hin Hs Hrows Hfooter Hperm.
    destruct (MySQLFacts.artifact_empty_table
                _ _ _ _ _ _ _ _ H Hentries Hin Hs Hrows Hfooter Hperm)
      as (ty & stmt & opened & Hty & Hstmt & Hget).
    exists ty, stmt. eexists. split; [exact Hty|]. split; [exact Hstmt|].
    split; [exact Hget|]. split.
    + apply in_or_app. right. now left.
    + intros names rows. apply data_fragment_not_opening_or_structure.
  - intros srv backup_type tables include_permissions pieces all_tables incl
           table H Htarget Hs Hin Hrows.
    split.
    + unfold Postgres.backup. now rewrite H.
    + eapply postgres_empty_table; eassumption.
Qed.

(** The same on the empty tables [drafts] (MySQL) and [orders] (Postgres). *)
Lemma empty_table_structure_without_insert_witness :
  (exists art fragments,
      MySQL.backup Examples.blog_db "structure_data" None true = Ok art
      /\ dict_get art "drafts" = Some fragments
      /\ forall names rows, ~ In (MySQL.data_fragment "drafts" names rows) fragments)
  /\ (exists pieces,
         Postgres.backup Examples.shop_db "structure_data" None false
         = Ok (Postgres.render pieces)
         /\ ~ In "orders" (Spec.data_tables pieces)).
Proof.
  destruct empty_table_structure_without_insert as [Hm Hp]. split.
  - destruct (MySQL.backup Examples.blog_db "structure_data" None true)
      as [art|e] eqn:E; [|discriminate E].
    destruct (Hm Examples.blog_db "structure_data" None true art
                 [("posts", "BASE TABLE"); ("drafts", "BASE TABLE"); ("recent", "VIEW")]
                 "drafts" ["id"; "title"])
      as (ty & stmt & fragments & _ & _ & Hget & _ & Hno).
    + exact E.
    + reflexivity.
    + cbn. tauto.
    + reflexivity.
    + reflexivity.
    + discriminate.
    + right. discriminate.
    + exists art, fragments. auto.
  - destruct (Postgres.backup_pieces Examples.shop_db "structure_data" None false)
      as [pieces|e] eqn:E; [|discriminate E].
    destruct (Hp Examples.shop_db "structure_data" None false pieces
                 ["customers"; "orders"] true "orders")
      as (Hb & _ & Hno).
    + exact E.
    + reflexivity.
    + reflexivity.
    + cbn. tauto.
    + reflexivity.
    + exists pieces. auto.
Defined.

(** C3.  A table without rows must have its structure DDL in the
    artifact.  On a MySQL database whose table without rows is called
    [footer] the code does not do it: under either backup type with
    structure the artifact holds, under that name, the closing pragmas
    only.  [backup_data['footer'] = [footer]] overwrites the list that
    [backup_data[table]] stored for the table, so its DROP TABLE and
    CREATE TABLE statements, and the header, are lost. *)
Theorem mysql_table_named_footer_loses_structure :
  MySQL.select_all Examples.footer_db "footer" = Ok (["id"], [])
  /\ MySQL.backup Examples.footer_db "structure" None false
     = Ok [("footer", [MySQL._generate_backup_footer])]
  /\ MySQL.backup Examples.footer_db "structure_data" None false
     = Ok [("footer", [MySQL._generate_backup_footer])]
  /\ ~ In (MySQL.structure_fragment "footer" "BASE TABLE"
                                    "CREATE TABLE `footer` (`id` int)")
          [MySQL._generate_backup_footer].
Proof.
  repeat split; try reflexivity.
  intros [H|[]]. discriminate H.
Qed.

(** The Postgres family keeps such a table: the script of a database
    whose table without rows is called [footer] has its DROP TABLE and
    CREATE TABLE statements. *)
Lemma postgres_table_named_footer_keeps_structure :
  Postgres.select_all Examples2.footer_pg "footer" = Ok []
  /\ Postgres.backup Examples2.footer_pg "structure" None false
     = Ok (Postgres.preamble
             ++ "DROP TABLE IF EXISTS public.footer CASCADE;" ++ nl
             ++ "CREATE TABLE public.footer (" ++ nl
             ++ tab ++ "id integer NOT NULL" ++ nl
             ++ ");" ++ nl ++ nl)
  /\ Postgres.backup Examples2.footer_pg "structure_data" None false
     = Postgres.backup Examples2.footer_pg "structure" None false.
Proof. repeat split; vm_compute; reflexivity. Qed.

(* ================================================================= *)
(** * A server that answers gets its backup *)

(** MySQL family: when the server answers, [backup] returns an
    artifact. *)
Lemma mysql_backup_total (srv : MySQL.server) (backup_type : string)
      (tables : option (list string)) (include_permissions : bool) :
  Spec.mysql_answers srv ->
  exists art, MySQL.backup srv backup_type tables include_permissions = Ok art.
Proof.
  intros ((all & Hall) & Hin & Hshow & Hselect & (grants & Hgrants) & Hclose).
  unfold MySQL.backup.
  assert (Hentries : exists entries,
             match tables with
             | None => MySQL.tables_all srv
             | Some ts => MySQL.tables_in srv ts
             end = Ok entries)
    by (destruct tables as [ts|]; [apply Hin | now exists all]).
  destruct Hentries as (entries & ->). cbn [bind].
  match goal with
  | |- context [foldM ?f ?a0 ?l] =>
      assert (Hf : forall acc x, In x l -> exists acc', f acc x = Ok acc');
        [|destruct (foldM_total f l Hf a0) as ([bd hw] & Hloop)]
  end.
  { intros [bd hw] [t ty] _. unfold MySQL.backup_table.
    destruct (Hshow t) as (stmt & ->), (Hselect t) as ([names rows] & ->).
    destruct (negb hw), (wants_structure backup_type),
      (String.eqb ty "BASE TABLE" && wants_data backup_type), rows;
      cbn; eauto. }
  rewrite Hloop. cbn [bind]. rewrite Hgrants, Hclose.
  destruct include_permissions, hw; cbn; eauto.
Qed.

Lemma gather_definitions_keys (srv : Postgres.server) (ts : list string) :
  forall defs0 deps0 defs deps,
    foldM (fun '(table_definitions, dependency_map) table =>
             columns <- Postgres.get_table_definitions srv table ;;
             let table_definitions := dict_set table_definitions table columns in
             foreign_keys <- Postgres.get_foreign_keys srv table ;;
             let dependency_map :=
               fold_left (fun m fk =>
                            defaultdict_append m table (Postgres.foreign_table_name fk))
                         foreign_keys dependency_map in
             Ok (table_definitions, dependency_map))
          (defs0, deps0) ts = Ok (defs, deps) ->
    forall t, In t ts \/ dict_get defs0 t <> None -> dict_get defs t <> None.
Proof.
  induction ts as [|t0 ts IH]; intros defs0 deps0 defs deps H t Ht;
    cbn [foldM] in H.
  - inversion H; subst. destruct Ht as [[]|Ht]. exact Ht.
  - bind_inv H as st Est. destruct st as [defs1 deps1].
    bind_inv Est as cols0 Ecols. bind_inv Est as fks Efks.
    inversion Est; subst; clear Est.
    apply (IH _ _ _ _ H).
    destruct (in_dec string_dec t ts) as [Hin|Hnot]; [now left|]. right.
    rewrite dict_get_set. destruct (String.eqb_spec t0 t) as [->|Hne].
    + discriminate.
    + destruct Ht as [[Heq|Hin]|Hget]; [contradiction | contradiction | exact Hget].
Qed.

(** Postgres family: when the server answers, with rows that the
    encoder accepts, [backup] returns a script. *)
Lemma postgres_backup_total (srv : Postgres.server) (backup_type : string)
      (tables : option (list string)) (include_permissions : bool) :
  Spec.postgres_answers srv ->
  exists pieces,
    Postgres.backup_pieces srv backup_type tables include_permissions = Ok pieces
    /\ Postgres.backup srv backup_type tables include_permissions
       = Ok (Postgres.render pieces).
Proof.
  intros ((catalog & Hcatalog) & Hcolumns & Hfks & Hpks & (sequences & Hsequences)
          & Hinfo & (enums & Henums) & Hselect & Hgrants & Hclose).
  enough (G : exists pieces,
             Postgres.backup_pieces srv backup_type tables include_permissions
             = Ok pieces).
  { destruct G as (pieces & G). exists pieces. split; [exact G|].
    unfold Postgres.backup. now rewrite G. }
  unfold Postgres.backup_pieces.
  assert (Htarget : exists all_tables incl,
             Postgres.target_tables srv tables = Ok (all_tables, incl)).
  { destruct tables as [ts|]; cbn; [eauto|]. rewrite Hcatalog. cbn. eauto. }
  destruct Htarget as (all_tables & incl & ->). cbn [bind].
  unfold Postgres.get_sequences, Postgres.get_user_defined_types.
  rewrite Hsequences, Henums. cbn [bind].
  replace (if incl then Ok tt else Ok tt) with (Ok tt : result unit)
    by now destruct incl.
  cbn [bind].
  unfold Postgres.gather_definitions.
  match goal with
  | |- context [foldM ?f ?a0 ?l] =>
      assert (Hf : forall acc x, In x l -> exists acc', f acc x = Ok acc');
        [|destruct (foldM_total f l Hf a0) as ([defs deps] & Hgather)]
  end.
  { intros [d m] t _. unfold Postgres.get_table_definitions, Postgres.get_foreign_keys.
    destruct (Hcolumns t) as (cols & ->), (Hfks t) as (fks & ->). cbn. eauto. }
  rewrite Hgather. cbn [bind].
  pose proof (gather_definitions_keys srv all_tables _ _ _ _ Hgather) as Hkeys.
  (* the sequences *)
  assert (Hseq : forall l,
             exists ps,
               mapM (fun sequence =>
                       stmt <- Postgres.create_sequence_statement srv sequence ;;
                       Ok (Postgres.mkPiece (Postgres.SequenceStatement sequence)
                                            (stmt ++ nl)))
                    l = Ok ps).
  { intros l. apply mapM_total, Forall_forall. intros s _.
    unfold Postgres.create_sequence_statement.
    destruct (Hinfo s) as (info & ->). cbn. eauto. }
  (* the tables *)
  assert (Hstructure : exists r, Postgres.structure_phase srv defs all_tables = Ok r).
  { apply foldM_total. intros [ps fs] t Ht. unfold dict_item.
    destruct (dict_get defs t) as [cols|] eqn:Hget;
      [|exfalso; apply (Hkeys t); [now left | exact Hget]].
    cbn [bind]. unfold Postgres.create_table_statement, Postgres.get_primary_keys,
                 Postgres.get_foreign_keys.
    destruct (Hpks t) as (pks & ->), (Hfks t) as (fks & ->). cbn. eauto. }
  (* the rows *)
  assert (Hdata : exists r, Postgres.data_phase srv all_tables = Ok r).
  { apply foldM_total. intros ps t _.
    destruct (Hselect t) as (rows & -> & Hrows), (Hcolumns t) as (cols & ->).
    cbn [bind]. destruct rows as [|row rows]; [eauto|].
    unfold Postgres.create_insert_statement.
    destruct (mapM_total
                (fun row => formatted <- mapM Postgres.format_value row ;;
                            Ok ("(" ++ PyStr.join ", " formatted ++ ")"))
                (row :: rows)) as (values & ->).
    { revert Hrows. apply Forall_impl. intros r Hr.
      destruct (mapM_total Postgres.format_value r Hr) as (texts & ->).
      cbn. eauto. }
    cbn. eauto. }
  (* the grants *)
  assert (Hperm : exists r, Postgres.permission_phase srv all_tables = Ok r).
  { apply foldM_total. intros ps t _. unfold Postgres.get_table_permissions.
    destruct (Hgrants t) as (grants & ->). cbn. destruct grants; eauto. }
  destruct Hstructure as ([tables_sql fks_to_add] & Hstructure),
           Hdata as (data_sql & Hdata), Hperm as (perm_sql & Hperm).
  rewrite Hclose.
  destruct incl; cbn [bind];
    destruct (wants_structure backup_type); cbn [andb];
    try (destruct (Hseq sequences) as (seq_sql & ->)); cbn [bind];
    rewrite ?Hstructure; cbn [bind];
    destruct (wants_data backup_type); rewrite ?Hdata; cbn [bind];
    destruct include_permissions; rewrite ?Hperm; cbn [bind]; eauto.
Qed.

(* ================================================================= *)
(** * More on the script splitter *)

Section SplitterMore.
Import PyStr.

Lemma join_cons (sep x : string) (xs : list string) :
  xs <> [] -> join sep (x :: xs) = x ++ sep ++ join sep xs.
Proof. destruct xs; [contradiction | reflexivity]. Qed.

(** Joining the fragments with the separator gives the text back. *)
Lemma join_split_char (q : ascii) (text : string) :
  join (String q EmptyString) (split (String q EmptyString) text) = text.
Proof.
  induction text as [|c text IH]; [reflexivity|].
  rewrite split_char_cons.
  destruct (Ascii.eqb_spec c q) as [->|Hne].
  - rewrite join_cons by apply split_not_nil. now rewrite IH.
  - destruct (split (String q EmptyString) text) as [|h t] eqn:E.
    + now apply split_not_nil in E.
    + destruct t as [|h' t].
      * cbn in IH |- *. now rewrite <- IH.
      * rewrite join_cons in IH |- * by discriminate.
        rewrite <- IH. reflexivity.
Qed.

Lemma split_script (statements : list string) :
  Forall (fun s => Spec.free_of ";" s = true) statements ->
  split ";" (Spec2.script statements) = (statements ++ [EmptyString])%list.
Proof.
  induction 1 as [|s statements Hs _ IH]; [reflexivity|].
  cbn [Spec2.script app].
  change (s ++ ";" ++ Spec2.script statements)
    with (s ++ String ";" (Spec2.script statements)).
  rewrite (split_char_app ";"%char), IH, (split_char_free ";"%char) by assumption.
  reflexivity.
Qed.

Lemma split_char_length (q : ascii) (text : string) :
  List.length (split (String q EmptyString) text) = S (Spec2.count_char q text).
Proof.
  induction text as [|c text IH]; [reflexivity|].
  rewrite split_char_cons. cbn [Spec2.count_char].
  destruct (Ascii.eqb c q); cbn [List.length].
  - now rewrite IH.
  - destruct (split (String q EmptyString) text) as [|h t] eqn:E.
    + now apply split_not_nil in E.
    + cbn [List.length] in IH |- *. exact IH.
Qed.

Lemma drop_last_length {A} (xs : list A) :
  xs <> [] -> S (List.length (drop_last xs)) = List.length xs.
Proof.
  intros H. unfold drop_last.
  destruct (exists_last H) as (l & x & ->).
  rewrite removelast_last, length_app. cbn. lia.
Qed.

End SplitterMore.

(** X1.  Splitting loses nothing but the terminators: the fragments,
    joined again with [;], are the text.  A script written as
    statements without [;] inside, each followed by [;], reads back as
    exactly these statements. *)
Theorem splitter_round_trip :
  (forall text, PyStr.join ";" (PyStr.split ";" text) = text)
  /\ (forall statements path,
         Forall (fun s => Spec.free_of ";" s = true) statements ->
         read_sql_commands_from_file (file_holding (Spec2.script statements)) path
         = Ok statements).
Proof.
  split.
  - intros text. apply (join_split_char ";"%char).
  - intros statements path H.
    rewrite read_file_holding, split_script by assumption.
    now rewrite drop_last_snoc.
Qed.

(** X1 on a script of two statements. *)
Lemma splitter_round_trip_witness :
  read_sql_commands_from_file
    (file_holding "DROP TABLE t;CREATE TABLE t (id int);") "dump.sql"
  = Ok ["DROP TABLE t"; "CREATE TABLE t (id int)"].
Proof.
  destruct splitter_round_trip as [_ H].
  apply (H ["DROP TABLE t"; "CREATE TABLE t (id int)"] "dump.sql").
  repeat constructor.
Defined.

(** X2.  The splitter returns as many commands as the text has
    terminators, wherever they stand (also inside a string literal or
    a comment). *)
Theorem commands_count_terminators (text path : string) :
  exists commands,
    read_sql_commands_from_file (file_holding text) path = Ok commands
    /\ List.length commands = Spec2.count_char ";" text.
Proof.
  eexists. split; [apply read_file_holding|].
  pose proof (drop_last_length (PyStr.split ";" text) (split_not_nil _ _)) as H.
  rewrite (split_char_length ";"%char) in H. now injection H.
Qed.

(* ================================================================= *)
(** * More on the replay *)

Section ReplayMore.
Context {St : Type}.
Variable execute : St -> string -> result St.

Lemma foldM_app {A B} (f : A -> B -> result A) (xs ys : list B) (acc : A) :
  foldM f acc (xs ++ ys) = bind (foldM f acc xs) (fun acc' => foldM f acc' ys).
Proof.
  revert acc. induction xs as [|x xs IH]; intros acc; cbn [app foldM].
  - reflexivity.
  - destruct (f acc x) as [acc'|e]; cbn [bind]; [apply IH | reflexivity].
Qed.

(** The loop of the MySQL replay is the plain loop over the commands
    that are not blank. *)
Lemma mysql_loop_filter (sql_commands : list string) (st : St) :
  foldM (fun st command =>
           if PyStr.truthy (PyStr.strip command)
           then execute st command
           else Ok st)
        st sql_commands
  = foldM execute st (filter Spec2.nonblank sql_commands).
Proof.
  revert st. induction sql_commands as [|c cs IH]; intros st; cbn [foldM filter].
  - reflexivity.
  - unfold Spec2.nonblank at 1. destruct (PyStr.truthy (PyStr.strip c)).
    + cbn [foldM]. destruct (execute st c); cbn [bind]; [apply IH | reflexivity].
    + cbn [bind]. apply IH.
Qed.

Lemma mysql_restore_as_filter (sql_commands : list string) (st : St) :
  mysql_restore execute sql_commands st
  = try_except_driver
      (postgres_restore execute (filter Spec2.nonblank sql_commands) st)
      (fun e =>
         Raise (RestoreError
                  ("An error occurred while restoring the database: " ++ str_exn e)
                  e)).
Proof. unfold mysql_restore, postgres_restore. now rewrite mysql_loop_filter. Qed.

Lemma filter_nonblank_idempotent (sql_commands : list string) :
  filter Spec2.nonblank (filter Spec2.nonblank sql_commands)
  = filter Spec2.nonblank sql_commands.
Proof.
  induction sql_commands as [|c cs IH]; cbn [filter]; [reflexivity|].
  destruct (Spec2.nonblank c) eqn:E; cbn [filter]; [|exact IH].
  now rewrite E, IH.
Qed.

End ReplayMore.

(** X3.  The MySQL replay does not send blank commands (empty or made
    of white space) to the server: it is the replay of the commands
    that are not blank, and it succeeds exactly when executing these,
    one after the other, succeeds. *)
Theorem mysql_replay_skips_blank_commands
        (St : Type) (execute : St -> string -> result St)
        (sql_commands : list string) (st : St) :
  mysql_restore execute sql_commands st
  = mysql_restore execute (filter Spec2.nonblank sql_commands) st
  /\ (forall st',
         mysql_restore execute sql_commands st = Ok st'
         <-> postgres_restore execute (filter Spec2.nonblank sql_commands) st = Ok st').
Proof.
  split.
  - now rewrite !mysql_restore_as_filter, filter_nonblank_idempotent.
  - intros st'. rewrite mysql_restore_as_filter. unfold try_except_driver.
    destruct (postgres_restore execute (filter Spec2.nonblank sql_commands) st)
      as [a|[]]; split; intros H; try discriminate; exact H.
Qed.

(** X4.  The first statement that the server rejects ends the replay:
    whatever follows it in the script has no effect on the outcome.
    The MySQL family raises RestoreError, with the driver's message
    after a fixed prefix and the fault as cause; the Postgres family
    raises the fault itself. *)
Theorem replay_stops_at_first_fault
        (St : Type) (execute : St -> string -> result St)
        (done todo : list string) (command msg : string) (st st' : St) :
  execute st' command = Raise (DriverFault msg) ->
  (postgres_restore execute done st = Ok st' ->
   postgres_restore execute (done ++ command :: todo) st = Raise (DriverFault msg))
  /\ (mysql_restore execute done st = Ok st' ->
      Spec2.nonblank command = true ->
      mysql_restore execute (done ++ command :: todo) st
      = Raise (RestoreError
                 ("An error occurred while restoring the database: " ++ msg)
                 (DriverFault msg))).
Proof.
  intros Hfault. split.
  - intros Hdone. unfold postgres_restore in *.
    rewrite foldM_app, Hdone. cbn [bind foldM]. now rewrite Hfault.
  - intros Hdone Hnb. rewrite mysql_restore_as_filter in Hdone |- *.
    unfold try_except_driver in Hdone.
    destruct (postgres_restore execute (filter Spec2.nonblank done) st)
      as [a|[]] eqn:E; try discriminate; inversion Hdone; subst a.
    unfold postgres_restore in *.
    rewrite filter_app, foldM_app, E. cbn [bind filter]. rewrite Hnb.
    cbn [foldM]. rewrite Hfault. reflexivity.
Qed.

(** X4 on a script whose second statement is rejected. *)
Lemma replay_stops_at_first_fault_witness :
  postgres_restore Examples.logging_execute
                   ["CREATE TABLE t (id int)"; "BOGUS"; "DROP TABLE t"] []
  = Raise (DriverFault "syntax error at or near BOGUS")
  /\ mysql_restore Examples.logging_execute
                   ["CREATE TABLE t (id int)"; "BOGUS"; "DROP TABLE t"] []
     = Raise (RestoreError
                "An error occurred while restoring the database: syntax error at or near BOGUS"
                (DriverFault "syntax error at or near BOGUS")).
Proof.
  destruct (replay_stops_at_first_fault
              (list string) Examples.logging_execute
              ["CREATE TABLE t (id int)"] ["DROP TABLE t"] "BOGUS"
              "syntax error at or near BOGUS" [] ["CREATE TABLE t (id int)"]
              eq_refl) as [Hp Hm].
  split; [apply Hp | apply Hm]; reflexivity.
Defined.

(** X5.  Replaying two lists of commands one after the other is
    replaying their concatenation: for the Postgres family always, for
    the MySQL family when the first list succeeds. *)
Theorem replay_of_concatenation
        (St : Type) (execute : St -> string -> result St)
        (first second : list string) (st : St) :
  postgres_restore execute (first ++ second) st
  = bind (postgres_restore execute first st) (postgres_restore execute second)
  /\ (forall st',
         mysql_restore execute first st = Ok st' ->
         mysql_restore execute (first ++ second) st
         = mysql_restore execute second st').
Proof.
  split.
  - apply foldM_app.
  - intros st' H. rewrite mysql_restore_as_filter in H.
    rewrite !mysql_restore_as_filter.
    unfold try_except_driver in H.
    destruct (postgres_restore execute (filter Spec2.nonblank first) st)
      as [a|[]] eqn:E; try discriminate; inversion H; subst a.
    unfold postgres_restore in *. now rewrite filter_app, foldM_app, E.
Qed.

(** X5 on a structure script followed by a data script. *)
Lemma replay_of_concatenation_witness :
  mysql_restore Examples.logging_execute
                (["CREATE TABLE t (id int)"] ++ ["INSERT INTO t VALUES (1)"]) []
  = Ok ["CREATE TABLE t (id int)"; "INSERT INTO t VALUES (1)"].
Proof.
  destruct (replay_of_concatenation
              (list string) Examples.logging_execute
              ["CREATE TABLE t (id int)"] ["INSERT INTO t VALUES (1)"] [])
    as [_ H].
  rewrite (H ["CREATE TABLE t (id int)"]); reflexivity.
Defined.

(* ================================================================= *)
(** * The restore classes with their connection *)

Module SessionFacts.
Import Session.

Lemma adds_ret {A} (P : call -> Prop) (a : A) : Spec2.adds P (ret a).
Proof.
  intros h h' r H. inversion H; subst. exists []. now rewrite app_nil_r.
Qed.

Lemma adds_raise {A} (P : call -> Prop) (e : exn) : Spec2.adds P (@raise A e).
Proof.
  intros h h' r H. inversion H; subst. exists []. now rewrite app_nil_r.
Qed.

Lemma adds_lift {A} (P : call -> Prop) (x : result A) : Spec2.adds P (lift x).
Proof.
  intros h h' r H. inversion H; subst. exists []. now rewrite app_nil_r.
Qed.

Lemma adds_fetchone (P : call -> Prop) (d : driver) : Spec2.adds P (fetchone d).
Proof.
  intros h h' r H. inversion H; subst. exists []. now rewrite app_nil_r.
Qed.

Lemma adds_perform (P : call -> Prop) (d : driver) (c : call) :
  P c -> Spec2.adds P (perform d c).
Proof.
  intros Hc h h' r H. unfold perform in H.
  destruct (fault d h c); inversion H; subst.
  - exists []. now rewrite app_nil_r.
  - exists [c]. split; [reflexivity | now constructor].
Qed.

Lemma adds_bind {A B} (P : call -> Prop) (m : io A) (k : A -> io B) :
  Spec2.adds P m -> (forall a, Spec2.adds P (k a)) -> Spec2.adds P (bind_io m k).
Proof.
  intros Hm Hk h h' r H. unfold bind_io in H.
  destruct (m h) as [h1 [a|e]] eqn:E.
  - apply Hm in E as (ext1 & -> & H1). apply Hk in H as (ext2 & -> & H2).
    exists (ext1 ++ ext2)%list. rewrite app_assoc. split; [reflexivity|].
    now apply Forall_app.
  - inversion H; subst. now apply Hm in E.
Qed.

Lemma adds_try {A} (P : call -> Prop) (body : io A) (handler : exn -> io A) :
  Spec2.adds P body -> (forall e, Spec2.adds P (handler e)) ->
  Spec2.adds P (try_driver body handler).
Proof.
  intros Hb Hh h h' r H. unfold try_driver in H.
  destruct (body h) as [h1 [a|e]] eqn:E.
  - inversion H; subst. now apply Hb in E.
  - apply Hb in E as (ext1 & -> & H1).
    destruct e; try (inversion H; subst; now exists ext1).
    apply Hh in H as (ext2 & -> & H2).
    exists (ext1 ++ ext2)%list. rewrite app_assoc. split; [reflexivity|].
    now apply Forall_app.
Qed.

Lemma adds_for_each {A} (P : call -> Prop) (xs : list A) (body : A -> io unit) :
  (forall x, Spec2.adds P (body x)) -> Spec2.adds P (for_each xs body).
Proof.
  intros Hb. induction xs as [|x xs IH]; cbn [for_each].
  - apply adds_ret.
  - apply adds_bind; [apply Hb | intros _; exact IH].
Qed.

Ltac adds_tac :=
  repeat first
    [ apply adds_ret | apply adds_raise | apply adds_lift | apply adds_fetchone
    | apply adds_perform; reflexivity
    | apply adds_bind; [|intros ?]
    | apply adds_try; [|intros ?]
    | apply adds_for_each; intros ?
    | match goal with |- Spec2.adds _ (if ?b then _ else _) => destruct b end ].



Lemma postgres_restore_not_closing (d : driver) (sql_commands : list string) :
  Spec2.adds Spec2.not_closing (Postgres.restore d sql_commands).
Proof. unfold Postgres.restore. adds_tac. Qed.





End SessionFacts.



Section CreateFacts.
Import Session.

Lemma free_of_app (c : ascii) (a b : string) :
  Spec.free_of c (a ++ b) = Spec.free_of c a && Spec.free_of c b.
Proof.
  induction a as [|x a IH]; cbn; [reflexivity|].
  rewrite IH. now rewrite andb_assoc.
Qed.

(** The fragments of a text hold no separator. *)
Lemma split_fragments_free (q : ascii) (text : string) :
  Forall (fun s => Spec.free_of q s = true) (PyStr.split (String q EmptyString) text).
Proof.
  induction text as [|c text IH].
  - repeat constructor.
  - rewrite split_char_cons. destruct (Ascii.eqb c q) eqn:E.
    + constructor; [reflexivity | exact IH].
    + destruct (PyStr.split (String q EmptyString) text) as [|h t].
      * constructor; [|constructor]. cbn. now rewrite E.
      * inversion IH; subst. constructor; [|assumption].
        cbn. rewrite E. assumption.
Qed.

Lemma commands_free (fs : filesystem) (path : string) (commands : list string) :
  read_sql_commands_from_file fs path = Ok commands ->
  Forall (fun s => Spec.free_of ";" s = true) commands.
Proof.
  unfold read_sql_commands_from_file. intros H.
  destruct (fs path) as [text|e]; [|discriminate]. cbn in H. inversion H; subst.
  pose proof (split_fragments_free ";"%char text) as Hall.
  pose proof (split_not_nil ";" text) as Hne.
  destruct (exists_last Hne) as (l & x & E). rewrite E in Hall |- *.
  rewrite drop_last_snoc. now apply Forall_app in Hall as [Hall _].
Qed.

End CreateFacts.

Module CreateDatabaseFacts.
Import Session.

Lemma adds_for_each_in {A} (P : call -> Prop) (xs : list A) (body : A -> io unit) :
  (forall x, In x xs -> Spec2.adds P (body x)) -> Spec2.adds P (for_each xs body).
Proof.
  induction xs as [|x xs IH]; intros Hb; cbn [for_each].
  - apply SessionFacts.adds_ret.
  - apply SessionFacts.adds_bind.
    + apply Hb. now left.
    + intros _. apply IH. intros y Hy. apply Hb. now right.
Qed.

Lemma own_call (fs : filesystem) (file_path : string) (c : call) :
  Spec2.creates_database c = false -> Spec2.own_or_scripted fs file_path c.
Proof. intros H. now left. Qed.

Lemma mysql_close_own (d : driver) (fs : filesystem) (file_path : string) :
  Spec2.adds (Spec2.own_or_scripted fs file_path) (MySQL.close_connection d).
Proof.
  unfold MySQL.close_connection.
  repeat (apply SessionFacts.adds_bind; [|intros _]);
    apply SessionFacts.adds_perform; now apply own_call.
Qed.

Lemma postgres_close_own (d : driver) (fs : filesystem) (file_path : string) :
  Spec2.adds (Spec2.own_or_scripted fs file_path) (Postgres.close_connection d).
Proof.
  unfold Postgres.close_connection.
  repeat (apply SessionFacts.adds_bind; [|intros _]);
    apply SessionFacts.adds_perform; now apply own_call.
Qed.

(** The replay sends commands of the script only. *)
Lemma mysql_restore_scripted (d : driver) (fs : filesystem) (file_path : string)
      (sql_commands : list string) :
  read_sql_commands_from_file fs file_path = Ok sql_commands ->
  Spec2.adds (Spec2.own_or_scripted fs file_path) (MySQL.restore d sql_commands).
Proof.
  intros H. unfold MySQL.restore.
  apply SessionFacts.adds_try; [|intros e; apply SessionFacts.adds_raise].
  apply adds_for_each_in. intros c Hc.
  destruct (PyStr.truthy (PyStr.strip c)); [|apply SessionFacts.adds_ret].
  apply SessionFacts.adds_perform. right. now exists sql_commands, c.
Qed.

Lemma postgres_restore_scripted (d : driver) (fs : filesystem) (file_path : string)
      (sql_commands : list string) :
  read_sql_commands_from_file fs file_path = Ok sql_commands ->
  Spec2.adds (Spec2.own_or_scripted fs file_path) (Postgres.restore d sql_commands).
Proof.
  intros H. unfold Postgres.restore.
  apply adds_for_each_in. intros c Hc.
  apply SessionFacts.adds_perform. right. now exists sql_commands, c.
Qed.

(** After the constructor, a statement that creates a database is sent
    only if the script holds it. *)
Lemma mysql_after_init_scripted (d : driver) (fs : filesystem)
      (file_path : string) :
  Spec2.adds (Spec2.own_or_scripted fs file_path)
             (sql_commands <-- lift (read_sql_commands_from_file fs file_path) ;;
              _ <-- MySQL.restore d sql_commands ;;
              MySQL.close_connection d).
Proof.
  intros h h' r H. unfold bind_io at 1, lift in H.
  destruct (read_sql_commands_from_file fs file_path) as [cmds|e] eqn:E.
  - revert H.
    apply (SessionFacts.adds_bind _ (MySQL.restore d cmds)
                                  (fun _ => MySQL.close_connection d)).
    + now apply mysql_restore_scripted.
    + intros _. apply mysql_close_own.
  - inversion H; subst. exists []. now rewrite app_nil_r.
Qed.

Lemma postgres_after_init_scripted (d : driver) (fs : filesystem)
      (file_path : string) :
  Spec2.adds (Spec2.own_or_scripted fs file_path)
             (sql_commands <-- lift (read_sql_commands_from_file fs file_path) ;;
              _ <-- Postgres.restore d sql_commands ;;
              Postgres.close_connection d).
Proof.
  intros h h' r H. unfold bind_io at 1, lift in H.
  destruct (read_sql_commands_from_file fs file_path) as [cmds|e] eqn:E.
  - revert H.
    apply (SessionFacts.adds_bind _ (Postgres.restore d cmds)
                                  (fun _ => Postgres.close_connection d)).
    + now apply postgres_restore_scripted.
    + intros _. apply postgres_close_own.
  - inversion H; subst. exists []. now rewrite app_nil_r.
Qed.

Ltac step_fault d :=
  match goal with
  | H : context [fault d ?h ?c] |- _ =>
      destruct (fault d h c) as [?|];
      [inversion H; subst; repeat constructor|]
  end.

(** When the query finds the database, the MySQL constructor sends no
    statement that creates a database. *)
Lemma mysql_init_present (d : driver) (host user password db_name : string)
      (row : list pyvalue) (h : list call) (r : result unit) :
  fetched d (Spec2.mysql_asked host user password db_name) = Some row ->
  MySQL.init d host user password db_name [] = (h, r) ->
  Forall (fun c => Spec2.creates_database c = false) h.
Proof.
  intros Hrow H.
  unfold MySQL.init, MySQL.create_database_if_not_exists, MySQL.database_exists,
    try_driver, bind_io, perform, fetchone, ret, raise in H.
  cbn [app] in H.
  destruct (fault d [] (Connect host user password None)) as [m|].
  { inversion H; subst. constructor. }
  cbn [app] in H.
  destruct (fault d [Connect host user password None]
                  (Execute ("SHOW DATABASES LIKE '" ++ db_name ++ "';"))) as [m|].
  { inversion H; subst. repeat constructor. }
  cbn [app] in H.
  change [Connect host user password None;
          Execute ("SHOW DATABASES LIKE '" ++ db_name ++ "';")]
    with (Spec2.mysql_asked host user password db_name) in H.
  rewrite Hrow in H. cbn [is_row negb] in H.
  destruct (fault d (Spec2.mysql_asked host user password db_name) (SelectDb db_name));
    inversion H; subst; repeat constructor.
Qed.

(** When the second query finds the database, the Postgres constructor
    sends no statement that creates a database. *)
Lemma postgres_init_present (d : driver) (host user password db_name : string)
      (row : list pyvalue) (h : list call) (r : result unit) :
  fetched d (Spec2.postgres_asked host user password db_name) = Some row ->
  Postgres.init d host user password db_name [] = (h, r) ->
  Forall (fun c => Spec2.creates_database c = false) h.
Proof.
  intros Hrow H.
  unfold Postgres.init, Postgres.create_database_if_not_exists,
    Postgres.database_exists, Postgres.close_connection,
    bind_io, perform, fetchone, ret in H.
  cbn [app] in H.
  step_fault d. cbn [app] in H.
  step_fault d. cbn [app] in H.
  step_fault d. cbn [app] in H.
  step_fault d. cbn [app] in H.
  change [Connect host user password (Some "postgres"); SetAutocommit;
          Execute ("SELECT 1 FROM pg_database WHERE datname='" ++ db_name ++ "';");
          Execute ("SELECT 1 FROM pg_database WHERE datname='" ++ db_name ++ "';")]
    with (Spec2.postgres_asked host user password db_name) in H.
  rewrite Hrow in H. cbn [is_row negb] in H.
  unfold Spec2.postgres_asked, Spec2.select_pg_database in H.
  step_fault d. cbn [app] in H.
  step_fault d. cbn [app] in H.
  step_fault d. cbn [app] in H.
  step_fault d. cbn [app] in H.
  inversion H; subst; repeat constructor.
Qed.

End CreateDatabaseFacts.

(** X7.  The database is created only when the query does not find it.
    When the existence query finds a row, the constructor of either
    family sends no statement that begins with CREATE DATABASE,
    whatever faults happen; and in the whole of [restore_data] every
    statement sent that begins with CREATE DATABASE is a command of the
    script in the file: the code adds none of its own.  On a connection
    without faults the constructors make these calls: MySQL connects,
    asks, creates if no row was found and selects the database;
    Postgres connects to [postgres], asks twice (the first answer is
    dropped), creates if the second query found no row, closes and
    connects to the database. *)
Theorem database_created_only_when_absent
        (d : Session.driver) (fs : filesystem)
        (host user password db_name file_path : string) :
  (forall row h r,
      Session.fetched d (Spec2.mysql_asked host user password db_name) = Some row ->
      Session.MySQL.init d host user password db_name [] = (h, r) ->
      Forall (fun c => Spec2.creates_database c = false) h)
  /\ (forall row h r,
         Session.fetched d (Spec2.postgres_asked host user password db_name) = Some row ->
         Session.Postgres.init d host user password db_name [] = (h, r) ->
         Forall (fun c => Spec2.creates_database c = false) h)
  /\ (forall row h r,
         Session.fetched d (Spec2.mysql_asked host user password db_name) = Some row ->
         Session.MySQL.restore_data d fs host user password db_name file_path []
         = (h, r) ->
         Forall (Spec2.own_or_scripted fs file_path) h)
  /\ (forall row h r,
         Session.fetched d (Spec2.postgres_asked host user password db_name) = Some row ->
         Session.Postgres.restore_data d fs host user password db_name file_path []
         = (h, r) ->
         Forall (Spec2.own_or_scripted fs file_path) h)
  /\ (Spec2.never_faults d ->
      Session.MySQL.init d host user password db_name []
      = ((Spec2.mysql_asked host user password db_name
          ++ (if Session.is_row
                   (Session.fetched d (Spec2.mysql_asked host user password db_name))
              then [] else [Spec2.create_database db_name])
          ++ [Session.SelectDb db_name])%list,
         Ok tt))
  /\ (Spec2.never_faults d ->
      Session.Postgres.init d host user password db_name []
      = ((Spec2.postgres_asked host user password db_name
          ++ (if Session.is_row
                   (Session.fetched d (Spec2.postgres_asked host user password db_name))
              then [] else [Spec2.create_database db_name])
          ++ [Session.CloseCursor; Session.CloseConnection;
              Session.Connect host user password (Some db_name);
              Session.SetAutocommit])%list,
         Ok tt)).
Proof.
  split; [|split; [|split; [|split; [|split]]]].
  - intros row h r. apply CreateDatabaseFacts.mysql_init_present.
  - intros row h r. apply CreateDatabaseFacts.postgres_init_present.
  - intros row h r Hrow H.
    unfold Session.MySQL.restore_data, Session.bind_io at 1 in H.
    destruct (Session.MySQL.init d host user password db_name []) as [h1 r1] eqn:E.
    pose proof (CreateDatabaseFacts.mysql_init_present _ _ _ _ _ _ _ _ Hrow E) as H1.
    assert (H1' : Forall (Spec2.own_or_scripted fs file_path) h1)
      by (eapply Forall_impl; [|exact H1]; intros c Hc; now left).
    destruct r1 as [[]|e]; [|now inversion H; subst].
    apply (CreateDatabaseFacts.mysql_after_init_scripted d fs file_path) in H
      as (ext & -> & Hext).
    now apply Forall_app.
  - intros row h r Hrow H.
    unfold Session.Postgres.restore_data, Session.bind_io at 1 in H.
    destruct (Session.Postgres.init d host user password db_name []) as [h1 r1] eqn:E.
    pose proof (CreateDatabaseFacts.postgres_init_present _ _ _ _ _ _ _ _ Hrow E) as H1.
    assert (H1' : Forall (Spec2.own_or_scripted fs file_path) h1)
      by (eapply Forall_impl; [|exact H1]; intros c Hc; now left).
    destruct r1 as [[]|e]; [|now inversion H; subst].
    apply (CreateDatabaseFacts.postgres_after_init_scripted d fs file_path) in H
      as (ext & -> & Hext).
    now apply Forall_app.
  - intros Hnf.
    unfold Session.MySQL.init, Session.MySQL.create_database_if_not_exists,
      Session.MySQL.database_exists, Session.try_driver, Session.bind_io,
      Session.perform, Session.fetchone, Session.ret.
    rewrite !Hnf. cbn [app].
    change [Session.Connect host user password None;
            Session.Execute ("SHOW DATABASES LIKE '" ++ db_name ++ "';")]
      with (Spec2.mysql_asked host user password db_name).
    destruct (Session.fetched d (Spec2.mysql_asked host user password db_name));
      cbn [Session.is_row negb]; rewrite !Hnf; reflexivity.
  - intros Hnf.
    unfold Session.Postgres.init, Session.Postgres.create_database_if_not_exists,
      Session.Postgres.database_exists, Session.Postgres.close_connection,
      Session.bind_io, Session.perform, Session.fetchone, Session.ret.
    rewrite !Hnf. cbn [app].
    change [Session.Connect host user password (Some "postgres");
            Session.SetAutocommit;
            Session.Execute ("SELECT 1 FROM pg_database WHERE datname='"
                             ++ db_name ++ "';");
            Session.Execute ("SELECT 1 FROM pg_database WHERE datname='"
                             ++ db_name ++ "';")]
      with (Spec2.postgres_asked host user password db_name).
    destruct (Session.fetched d (Spec2.postgres_asked host user password db_name));
      cbn [Session.is_row negb]; rewrite !Hnf; reflexivity.
Qed.

(** X7 on a server that has the database, with a script that creates
    it all the same, and on a server that has not. *)
Lemma database_created_only_when_absent_witness :
  Session.MySQL.restore_data
    (Session.obliging (Some [VStr "shop"]))
    (file_holding "CREATE DATABASE shop;")
    "localhost" "root" "secret" "shop" "dump.sql" []
  = ([Session.Connect "localhost" "root" "secret" None;
      Session.Execute "SHOW DATABASES LIKE 'shop';";
      Session.SelectDb "shop";
      Session.Execute "CREATE DATABASE shop";
      Session.Commit; Session.CloseCursor; Session.CloseConnection],
     Ok tt)
  /\ Forall (Spec2.own_or_scripted (file_holding "CREATE DATABASE shop;") "dump.sql")
            (fst (Session.MySQL.restore_data
                    (Session.obliging (Some [VStr "shop"]))
                    (file_holding "CREATE DATABASE shop;")
                    "localhost" "root" "secret" "shop" "dump.sql" []))
  /\ Session.Postgres.init (Session.obliging None)
                           "localhost" "postgres" "secret" "shop" []
     = ([Session.Connect "localhost" "postgres" "secret" (Some "postgres");
         Session.SetAutocommit;
         Session.Execute "SELECT 1 FROM pg_database WHERE datname='shop';";
         Session.Execute "SELECT 1 FROM pg_database WHERE datname='shop';";
         Session.Execute "CREATE DATABASE shop;";
         Session.CloseCursor; Session.CloseConnection;
         Session.Connect "localhost" "postgres" "secret" (Some "shop");
         Session.SetAutocommit],
        Ok tt).
Proof.
  split; [reflexivity|]. split.
  - destruct (database_created_only_when_absent
                (Session.obliging (Some [VStr "shop"]))
                (file_holding "CREATE DATABASE shop;")
                "localhost" "root" "secret" "shop" "dump.sql") as (_ & _ & H & _).
    destruct (Session.MySQL.restore_data
                (Session.obliging (Some [VStr "shop"]))
                (file_holding "CREATE DATABASE shop;")
                "localhost" "root" "secret" "shop" "dump.sql" []) as [h r] eqn:E.
    exact (H [VStr "shop"] h r eq_refl eq_refl).
  - destruct (database_created_only_when_absent
                (Session.obliging None) (file_holding EmptyString)
                "localhost" "postgres" "secret" "shop" "dump.sql")
      as (_ & _ & _ & _ & _ & H).
    rewrite H; [reflexivity|]. intros h c. reflexivity.
Defined.

Module AgreementFacts.
Import Session.

(** The replay with its connection and the replay by state passing are
    the same loop. *)
Lemma postgres_loop_agrees (d : driver) (sql_commands : list string) :
  forall h,
    match Postgres.restore d sql_commands h with
    | (h', Ok _) => postgres_restore (execute_of d) sql_commands h = Ok h'
    | (_, Raise e) => postgres_restore (execute_of d) sql_commands h = Raise e
    end.
Proof.
  unfold Postgres.restore, postgres_restore.
  induction sql_commands as [|c cs IH]; intros h; cbn [for_each foldM].
  - reflexivity.
  - unfold bind_io, perform.
    destruct (fault d h (Execute c)) as [m|] eqn:E.
    + assert (Hx : execute_of d h c = Raise (DriverFault m))
        by (unfold execute_of; now rewrite E).
      now rewrite Hx.
    + assert (Hx : execute_of d h c = Ok (h ++ [Execute c])%list)
        by (unfold execute_of; now rewrite E).
      rewrite Hx. cbn [bind]. apply IH.
Qed.

Lemma mysql_loop_agrees (d : driver) (sql_commands : list string) :
  forall h,
    match MySQL.restore d sql_commands h with
    | (h', Ok _) => mysql_restore (execute_of d) sql_commands h = Ok h'
    | (_, Raise e) => mysql_restore (execute_of d) sql_commands h = Raise e
    end.
Proof.
  unfold MySQL.restore, mysql_restore, try_driver, try_except_driver.
  induction sql_commands as [|c cs IH]; intros h; cbn [for_each foldM].
  - reflexivity.
  - unfold bind_io at 1.
    destruct (PyStr.truthy (PyStr.strip c)).
    + unfold perform.
      destruct (fault d h (Execute c)) as [m|] eqn:E.
      * assert (Hx : execute_of d h c = Raise (DriverFault m))
          by (unfold execute_of; now rewrite E).
        now rewrite Hx.
      * assert (Hx : execute_of d h c = Ok (h ++ [Execute c])%list)
          by (unfold execute_of; now rewrite E).
        rewrite Hx. cbn [bind]. apply IH.
    + cbn [ret bind]. apply IH.
Qed.

End AgreementFacts.

(** X8.  What the constructors and the dispatcher raise before any
    statement of the script.  The MySQL constructor turns a fault of
    the connect into DatabaseConnectionError with the host, the user
    and the fault as cause, and nothing else: a fault of the existence
    query, of CREATE DATABASE or of the selection of the database gets
    out as it is, after the connect.  The Postgres constructor wraps
    nothing.  The dispatcher raises ValueError for a family it does not
    know, before any call on a driver. *)
Theorem constructor_faults
        (d : Session.driver) (fs : filesystem)
        (host user password db_name file_path : string) :
  (forall h e,
      Session.MySQL.init d host user password db_name [] = (h, Raise e) ->
      (exists msg,
          Session.fault d [] (Session.Connect host user password None) = Some msg
          /\ h = []
          /\ e = DatabaseConnectionError host user (DriverFault msg))
      \/ (exists msg,
             e = DriverFault msg
             /\ hd_error h = Some (Session.Connect host user password None)))
  /\ (forall h e,
         Session.Postgres.init d host user password db_name [] = (h, Raise e) ->
         exists msg, e = DriverFault msg)
  /\ (forall db_type,
         String.eqb db_type "mysql" = false ->
         String.eqb db_type "postgres" = false ->
         Session.restore_data d fs db_type host user password db_name file_path []
         = ([], Raise (ValueError ("Unsupported database type: " ++ db_type)))).
Proof.
  split; [|split].
  - intros h e H.
    unfold Session.MySQL.init, Session.MySQL.create_database_if_not_exists,
      Session.MySQL.database_exists, Session.try_driver, Session.bind_io,
      Session.perform, Session.fetchone, Session.ret, Session.raise in H.
    cbn [app] in H.
    destruct (Session.fault d [] (Session.Connect host user password None)) as [m|].
    { inversion H; subst. left. exists m. auto. }
    right.
    repeat match type of H with
           | context [Session.fault d ?h' ?c] =>
               destruct (Session.fault d h' c) as [?m|];
               [inversion H; subst; eexists; split; reflexivity|];
               cbn [app Session.is_row negb] in H
           | context [Session.fetched d ?h'] =>
               destruct (Session.fetched d h');
               cbn [app Session.is_row negb] in H
           end; discriminate H.
  - intros h e H.
    unfold Session.Postgres.init, Session.Postgres.create_database_if_not_exists,
      Session.Postgres.database_exists, Session.Postgres.close_connection,
      Session.bind_io, Session.perform, Session.fetchone, Session.ret in H.
    cbn [app] in H.
    repeat match type of H with
           | context [Session.fault d ?h' ?c] =>
               destruct (Session.fault d h' c) as [?m|];
               [inversion H; subst; eexists; reflexivity|];
               cbn [app Session.is_row negb] in H
           | context [Session.fetched d ?h'] =>
               destruct (Session.fetched d h');
               cbn [app Session.is_row negb] in H
           end; discriminate H.
  - intros db_type Hm Hp. unfold Session.restore_data. now rewrite Hm, Hp.
Qed.

(** X8 on a server that refuses the connection. *)
Lemma constructor_faults_witness :
  Session.MySQL.init Session.unreachable "db.example" "root" "secret" "shop" []
  = ([], Raise (DatabaseConnectionError "db.example" "root"
                                        (DriverFault "connection refused")))
  /\ Session.restore_data Session.unreachable (file_holding EmptyString)
                          "sqlite" "db.example" "root" "secret" "shop" "dump.sql" []
     = ([], Raise (ValueError "Unsupported database type: sqlite")).
Proof.
  destruct (constructor_faults Session.unreachable (file_holding EmptyString)
                               "db.example" "root" "secret" "shop" "dump.sql")
    as (Hm & _ & Hd).
  split.
  - destruct (Session.MySQL.init Session.unreachable "db.example" "root" "secret"
                                 "shop" []) as [h [[]|e]] eqn:E;
      [vm_compute in E; discriminate E|].
    destruct (Hm h e eq_refl) as [(msg & Hf & -> & ->)|(msg & -> & Hh)].
    + vm_compute in Hf. now inversion Hf.
    + vm_compute in E. discriminate E.
  - now apply Hd.
Defined.

(* ================================================================= *)
(** * More on the value encoders *)

Section EncoderMore.

Lemma join_items_cases (items : list pyvalue) :
  forall i,
    match Spec2.first_non_string i items with
    | None => exists strs, join_items i items = Ok strs
    | Some (j, item) => join_items i items = Raise (join_error j item)
    end.
Proof.
  induction items as [|v items IH]; intros i;
    cbn [join_items Spec2.first_non_string].
  - now exists [].
  - destruct v; try reflexivity.
    specialize (IH (i + 1)%Z).
    destruct (Spec2.first_non_string (i + 1) items) as [[j item]|].
    + now rewrite IH.
    + destruct IH as (strs & ->). cbn [bind]. now eexists.
Qed.

Lemma first_non_string_strings (items : list pyvalue) :
  forall i,
    forallb (fun item => match item with VStr _ => true | _ => false end) items
    = match Spec2.first_non_string i items with
      | None => true
      | Some _ => false
      end.
Proof.
  induction items as [|v items IH]; intros i;
    cbn [forallb Spec2.first_non_string]; [reflexivity|].
  destruct v; try reflexivity. cbn [andb]. apply IH.
Qed.

Lemma offender_strings_only (value : pyvalue) :
  Spec2.strings_only value
  = match Spec2.offender value with
    | None => true
    | Some _ => false
    end.
Proof.
  destruct value; try reflexivity.
  cbn [Spec2.strings_only Spec2.offender]. apply first_non_string_strings.
Qed.

Lemma first_some_forallb {A B} (f : A -> option B) (g : A -> bool) (xs : list A) :
  (forall x, g x = match f x with None => true | Some _ => false end) ->
  forallb g xs = match Spec2.first_some f xs with None => true | Some _ => false end.
Proof.
  intros H. induction xs as [|x xs IH]; cbn [forallb Spec2.first_some];
    [reflexivity|].
  rewrite H. destruct (f x); [reflexivity | exact IH].
Qed.

Lemma first_offender_strings_only (rows : list (list pyvalue)) :
  forallb (forallb Spec2.strings_only) rows
  = match Spec2.first_offender rows with
    | None => true
    | Some _ => false
    end.
Proof.
  unfold Spec2.first_offender. apply first_some_forallb. intros row.
  apply first_some_forallb. exact offender_strings_only.
Qed.

Lemma format_value_cases (value : pyvalue) :
  match Spec2.offender value with
  | None => exists text, Postgres.format_value value = Ok text
  | Some (i, item) => Postgres.format_value value = Raise (join_error i item)
  end.
Proof.
  destruct value; cbn [Spec2.offender]; try (eexists; reflexivity).
  unfold Postgres.format_value. cbn [is_None isinstance orb items_of].
  unfold join_values. pose proof (join_items_cases items 0) as H.
  destruct (Spec2.first_non_string 0 items) as [[i item]|].
  - now rewrite H.
  - destruct H as (strs & ->). cbn [bind]. now eexists.
Qed.

Lemma mapM_first_some {A B C} (f : A -> result B) (g : A -> option C)
      (error : C -> exn) (xs : list A) :
  (forall x, match g x with
             | None => exists y, f x = Ok y
             | Some c => f x = Raise (error c)
             end) ->
  match Spec2.first_some g xs with
  | None => exists ys, mapM f xs = Ok ys
  | Some c => mapM f xs = Raise (error c)
  end.
Proof.
  intros H. induction xs as [|x xs IH]; cbn [mapM Spec2.first_some].
  - now exists [].
  - specialize (H x). destruct (g x) as [c|].
    + now rewrite H.
    + destruct H as (y & ->). cbn [bind].
      destruct (Spec2.first_some g xs) as [c|].
      * now rewrite IH.
      * destruct IH as (ys & ->). cbn [bind]. now eexists.
Qed.

Lemma insert_statement_cases (table : string) (columns : list (string * string))
      (rows : list (list pyvalue)) :
  match Spec2.first_offender rows with
  | None => exists stmt, Postgres.create_insert_statement table columns rows = Ok stmt
  | Some (i, item) =>
      Postgres.create_insert_statement table columns rows = Raise (join_error i item)
  end.
Proof.
  unfold Postgres.create_insert_statement, Spec2.first_offender.
  match goal with
  | |- context [mapM ?f rows] =>
      pose proof (mapM_first_some
                    f (Spec2.first_some Spec2.offender)
                    (fun c => join_error (fst c) (snd c)) rows) as G
  end.
  match type of G with
  | ?P -> _ => assert (Hrow : P); [|specialize (G Hrow); clear Hrow]
  end.
  { intros row.
    pose proof (mapM_first_some
                  Postgres.format_value Spec2.offender
                  (fun c => join_error (fst c) (snd c)) row) as R.
    match type of R with
    | ?P -> _ => assert (Hv : P); [|specialize (R Hv); clear Hv]
    end.
    { intros value. pose proof (format_value_cases value) as V.
      destruct (Spec2.offender value) as [[i item]|]; exact V. }
    destruct (Spec2.first_some Spec2.offender row) as [[i item]|].
    - now rewrite R.
    - destruct R as (formatted & ->). cbn [bind]. now eexists. }
  destruct (Spec2.first_some (Spec2.first_some Spec2.offender) rows) as [[i item]|].
  - cbn [fst snd] in G. now rewrite G.
  - destruct G as (values_list & ->). cbn [bind]. now eexists.
Qed.

Lemma join_items_strings (items : list string) :
  forall i, join_items i (map VStr items) = Ok items.
Proof.
  induction items as [|s items IH]; intros i; cbn [map join_items];
    [reflexivity|].
  now rewrite IH.
Qed.

Lemma array_literal (items : list string) (text : string) :
  Postgres.format_value (VList (map VStr items) text)
  = Ok ("'{" ++ PyStr.join "," items ++ "}'").
Proof.
  unfold Postgres.format_value. cbn [is_None isinstance orb items_of].
  unfold join_values. now rewrite join_items_strings.
Qed.

Lemma unhex_hex_byte (x : byte) (rest : string) :
  Spec2.unhex (PyStr.hex_byte x ++ rest)
  = match Spec2.unhex rest with
    | Some bytes => Some (x :: bytes)
    | None => None
    end.
Proof.
  destruct x; cbn; destruct (Spec2.unhex rest); reflexivity.
Qed.

Lemma unhex_hex (b : list byte) : Spec2.unhex (PyStr.hex b) = Some b.
Proof.
  induction b as [|x b IH]; [reflexivity|].
  cbn [PyStr.hex]. now rewrite unhex_hex_byte, IH.
Qed.

End EncoderMore.

(** X9.  The Postgres INSERT statement can be built exactly when every
    list among the values holds strings only.  Otherwise building it
    raises the TypeError of [','.join] for the first item that is not a
    string, in the first such list of the first such row: its message
    gives the index of the item in its list and the name of its type.
    A data backup of a listed table with such a row raises that
    TypeError: no script is returned. *)
Theorem insert_statement_needs_string_arrays :
  (forall table columns rows,
      match Spec2.first_offender rows with
      | None =>
          forallb (forallb Spec2.strings_only) rows = true
          /\ exists stmt,
              Postgres.create_insert_statement table columns rows = Ok stmt
      | Some (i, item) =>
          forallb (forallb Spec2.strings_only) rows = false
          /\ Postgres.create_insert_statement table columns rows
             = Raise (TypeError ("sequence item " ++ PyStr.str_Z i
                                 ++ ": expected str instance, "
                                 ++ substring 0 80 (tp_name item) ++ " found"))
      end)
  /\ (forall srv table columns foreign_keys rows include_permissions i item,
         Postgres.information_schema_columns srv table = Ok columns ->
         Postgres.foreign_key_rows srv table = Ok foreign_keys ->
         Postgres.select_all srv table = Ok rows ->
         Spec2.first_offender rows = Some (i, item) ->
         Postgres.backup srv "data" (Some [table]) include_permissions
         = Raise (TypeError ("sequence item " ++ PyStr.str_Z i
                             ++ ": expected str instance, "
                             ++ substring 0 80 (tp_name item) ++ " found"))).
Proof.
  split.
  - intros table columns rows.
    pose proof (insert_statement_cases table columns rows) as H.
    rewrite first_offender_strings_only.
    destruct (Spec2.first_offender rows) as [[i item]|]; split;
      try reflexivity; exact H.
  - intros srv table columns fks rows perms i item Hcols Hfks Hrows Hbad.
    unfold Postgres.backup, Postgres.backup_pieces, Postgres.gather_definitions,
      Postgres.get_table_definitions, Postgres.get_foreign_keys, Postgres.data_phase.
    cbn [Postgres.target_tables bind foldM wants_structure wants_data
         String.eqb Ascii.eqb Bool.eqb orb andb].
    rewrite Hcols. cbn [bind]. rewrite Hfks.
    cbn [bind foldM wants_structure wants_data String.eqb Ascii.eqb Bool.eqb
         orb andb].
    rewrite Hrows. cbn [bind].
    destruct rows as [|row rows]; [discriminate Hbad|].
    pose proof (insert_statement_cases
                  table
                  (map (fun c => (Postgres.col_name c, Postgres.data_type c)) columns)
                  (row :: rows)) as H.
    rewrite Hbad in H. rewrite H. reflexivity.
Qed.

(** X9 on a table with a column of integer arrays. *)
Lemma insert_statement_needs_string_arrays_witness :
  Postgres.backup Examples2.tags_db "data" (Some ["posts"]) false
  = Raise (TypeError "sequence item 0: expected str instance, int found").
Proof.
  destruct insert_statement_needs_string_arrays as [_ H].
  apply (H Examples2.tags_db "posts"
           [Postgres.mkColumn "id" "integer" "NO" None;
            Postgres.mkColumn "scores" "ARRAY" "YES" None]
           [] [[VInt 1; VList [VInt 10; VInt 20] "[10, 20]"]] false 0%Z (VInt 10));
    reflexivity.
Defined.

(** X10.  An array of strings is encoded as its items joined by commas
    between braces, as they are: nothing is quoted or escaped.  An item
    with a comma is therefore taken for two items: the array of the one
    string [a,b] and the array of the two strings [a] and [b] have the
    same literal. *)
Theorem array_literal_is_not_escaped :
  (forall items text,
      Postgres.format_value (VList (map VStr items) text)
      = Ok ("'{" ++ PyStr.join "," items ++ "}'"))
  /\ (forall a b text text',
         Postgres.format_value (VList [VStr (a ++ "," ++ b)] text)
         = Postgres.format_value (VList [VStr a; VStr b] text')).
Proof.
  split; [apply array_literal|].
  intros a b text text'.
  now rewrite (array_literal [a ++ "," ++ b]), (array_literal [a; b]).
Qed.

(** X11.  The binary literal of the MySQL family loses nothing: reading
    the hexadecimal digits after [0x] gives the bytes back. *)
Theorem binary_literal_round_trip (b : list byte) :
  MySQL._format_value (VBytes b) = "0x" ++ PyStr.hex b
  /\ Spec2.parse_binary_literal (MySQL._format_value (VBytes b)) = Some b.
Proof.
  split; [reflexivity|].
  change (Spec2.unhex (PyStr.hex b) = Some b). apply unhex_hex.
Qed.

(* ================================================================= *)
(** * More on dictionaries and on the enum types *)

Section DictMore.

Lemma dict_set_keys {V} (d : dict V) (k : string) (v : V) :
  map fst (dict_set d k v)
  = match dict_get d k with
    | Some _ => map fst d
    | None => (map fst d ++ [k])%list
    end.
Proof.
  induction d as [|[k' v'] d IH]; cbn [dict_set dict_get map fst app].
  - reflexivity.
  - destruct (String.eqb k' k); cbn [map fst]; [reflexivity|].
    rewrite IH. now destruct (dict_get d k).
Qed.

Lemma dict_get_none_keys {V} (d : dict V) (k : string) :
  dict_get d k = None <-> ~ In k (map fst d).
Proof.
  induction d as [|[k' v'] d IH]; cbn [dict_get map fst In].
  - tauto.
  - destruct (String.eqb_spec k' k) as [->|Hne].
    + split; [discriminate | intros H; exfalso; apply H; now left].
    + rewrite IH. tauto.
Qed.

Lemma dict_set_nodup {V} (d : dict V) (k : string) (v : V) :
  NoDup (map fst d) -> NoDup (map fst (dict_set d k v)).
Proof.
  intros H. rewrite dict_set_keys.
  destruct (dict_get d k) eqn:E; [exact H|].
  apply dict_get_none_keys in E.
  apply NoDup_app; [exact H | repeat constructor; intros [] | ].
  intros x Hx [<-|[]]. contradiction.
Qed.

Lemma dict_set_absent {V} (d : dict V) (k : string) (v : V) :
  dict_get d k = None -> dict_set d k v = (d ++ [(k, v)])%list.
Proof.
  induction d as [|[k' v'] d IH]; cbn [dict_set dict_get app]; [reflexivity|].
  destruct (String.eqb k' k); [discriminate|].
  intros H. now rewrite IH.
Qed.

Lemma dict_get_in {V} (d : dict V) (k : string) (v : V) :
  NoDup (map fst d) -> In (k, v) d -> dict_get d k = Some v.
Proof.
  induction d as [|[k' v'] d IH]; cbn [map fst dict_get]; [contradiction|].
  intros Hnd [Heq|Hin]; apply NoDup_cons_iff in Hnd as [Hfresh Hnd].
  - inversion Heq; subst. now rewrite String.eqb_refl.
  - destruct (String.eqb_spec k' k) as [->|_]; [|now apply IH].
    exfalso. apply Hfresh. now apply (in_map fst) in Hin.
Qed.

Lemma defaultdict_append_nodup {V} (d : dict (list V)) (k : string) (v : V) :
  NoDup (map fst d) -> NoDup (map fst (defaultdict_append d k v)).
Proof.
  intros H. unfold defaultdict_append.
  destruct (dict_get d k); now apply dict_set_nodup.
Qed.

Lemma defaultdict_append_get {V} (d : dict (list V)) (k q : string) (v : V) :
  dict_get (defaultdict_append d k v) q
  = if String.eqb k q
    then Some (match dict_get d q with
               | Some vs => vs ++ [v]
               | None => [v]
               end)%list
    else dict_get d q.
Proof.
  unfold defaultdict_append.
  destruct (dict_get d k) eqn:E; rewrite dict_get_set;
    destruct (String.eqb_spec k q) as [->|_]; try reflexivity; now rewrite E.
Qed.

(** Grouping the rows of the enum query: the labels of a type are
    added after those already there. *)
Lemma group_rows_get (rows : list (string * string * string)) :
  forall (types : dict (list string)) (type_name : string),
    dict_get (fold_left (fun types '(schema, type_name, enum_label) =>
                           defaultdict_append types type_name enum_label)
                        rows types) type_name
    = match dict_get types type_name, Spec2.labels_of type_name rows with
      | Some present, labels => Some (present ++ labels)%list
      | None, [] => None
      | None, labels => Some labels
      end.
Proof.
  induction rows as [|[[schema name] label] rows IH]; intros types n;
    cbn [fold_left].
  - unfold Spec2.labels_of. cbn [filter map].
    destruct (dict_get types n); [now rewrite app_nil_r | reflexivity].
  - rewrite IH, defaultdict_append_get.
    unfold Spec2.labels_of. cbn [filter fst snd].
    destruct (String.eqb name n); cbn [map snd].
    + destruct (dict_get types n); [now rewrite <- app_assoc | reflexivity].
    + reflexivity.
Qed.

Lemma group_rows_nodup (rows : list (string * string * string)) :
  forall types : dict (list string),
    NoDup (map fst types) ->
    NoDup (map fst (fold_left (fun types '(schema, type_name, enum_label) =>
                                 defaultdict_append types type_name enum_label)
                              rows types)).
Proof.
  induction rows as [|[[schema name] label] rows IH]; intros types H;
    cbn [fold_left]; [exact H|].
  now apply IH, defaultdict_append_nodup.
Qed.

End DictMore.

(** X12.  [get_user_defined_types] groups the rows of the enum query by
    type: every type has one entry, which holds the labels of its rows
    in the order of the rows, and a type without row has no entry. *)
Theorem enum_labels_grouped_by_type
        (srv : Postgres.server) (rows : list (string * string * string)) :
  Postgres.enum_rows srv = Ok rows ->
  exists types,
    Postgres.get_user_defined_types srv = Ok types
    /\ NoDup (map fst types)
    /\ (forall type_name,
           dict_get types type_name
           = match Spec2.labels_of type_name rows with
             | [] => None
             | labels => Some labels
             end)
    /\ (forall type_name labels,
           In (type_name, labels) types ->
           labels = Spec2.labels_of type_name rows /\ labels <> []).
Proof.
  intros H. unfold Postgres.get_user_defined_types. rewrite H. cbn [bind].
  eexists. split; [reflexivity|].
  assert (Hnd : NoDup (map fst (fold_left
                                  (fun types '(schema, type_name, enum_label) =>
                                     defaultdict_append types type_name enum_label)
                                  rows ([] : dict (list string)))))
    by (apply group_rows_nodup; constructor).
  split; [exact Hnd|]. split.
  - intros n. now rewrite group_rows_get.
  - intros n labels Hin. apply (dict_get_in _ _ _ Hnd) in Hin.
    rewrite group_rows_get in Hin. cbn [dict_get] in Hin.
    destruct (Spec2.labels_of n rows); inversion Hin; subst.
    split; [reflexivity | discriminate].
Qed.

(** X12 on the enum rows of the shop database. *)
Lemma enum_labels_grouped_by_type_witness :
  Postgres.get_user_defined_types Examples.shop_db = Ok [("mood", ["sad"; "happy"])].
Proof.
  destruct (enum_labels_grouped_by_type
              Examples.shop_db
              [("public", "mood", "sad"); ("public", "mood", "happy")] eq_refl)
    as (types & H & _).
  rewrite H. vm_compute in H. now inversion H.
Defined.

(* ================================================================= *)
(** * More on the MySQL artifact *)

Module ArtifactFacts.
Import MySQL.

(** A turn of the loop assigns a list of fragments to the key of its
    table; the first turn puts the header in front. *)
Lemma backup_table_shape (srv : server) (backup_type : string)
      (backup_data : artifact) (header_written : bool)
      (table table_type : string) (st : artifact * bool) :
  backup_table srv backup_type (backup_data, header_written) (table, table_type)
  = Ok st ->
  exists fragments,
    st = (dict_set backup_data table fragments, true)
    /\ (header_written = false ->
        exists rest, fragments = _generate_backup_header :: rest).
Proof.
  unfold backup_table. intros H.
  destruct header_written; cbn [negb app] in H;
    bind_inv H as f1 E1; bind_inv H as f2 E2; inversion H; subst; clear H;
    eexists; (split; [reflexivity|]); intros Hh; try discriminate.
  destruct (wants_structure backup_type).
  - bind_inv E1 as stmt Estmt. inversion E1; subst; clear E1.
    destruct (String.eqb table_type "BASE TABLE" && wants_data backup_type).
    + bind_inv E2 as answer Eanswer. destruct answer as [names rows].
      destruct rows; inversion E2; subst; eexists; reflexivity.
    + inversion E2; subst. eexists; reflexivity.
  - inversion E1; subst; clear E1.
    destruct (String.eqb table_type "BASE TABLE" && wants_data backup_type).
    + bind_inv E2 as answer Eanswer. destruct answer as [names rows].
      destruct rows; inversion E2; subst; eexists; reflexivity.
    + inversion E2; subst. eexists; reflexivity.
Qed.

Lemma loop_keys (srv : server) (backup_type : string)
      (entries : list (string * string)) :
  forall backup_data header_written backup_data' header_written',
    foldM (backup_table srv backup_type) (backup_data, header_written) entries
    = Ok (backup_data', header_written') ->
    (forall key,
        dict_get backup_data' key <> None
        <-> dict_get backup_data key <> None \/ In key (map fst entries))
    /\ header_written' = header_written || Spec2.some_table entries.
Proof.
  induction entries as [|[t ty] entries IH]; intros bd hw bd' hw' H;
    cbn [foldM] in H.
  - inversion H; subst. split; [|now rewrite orb_false_r].
    intros key. cbn. tauto.
  - bind_inv H as st Est. apply backup_table_shape in Est as (frags & -> & _).
    apply IH in H as [Hkeys ->]. split; [|now rewrite orb_true_r].
    intros key. rewrite Hkeys, dict_get_set. cbn [map fst In].
    destruct (String.eqb_spec t key) as [->|Hne].
    + split; [intros _; right; now left | intros _; left; discriminate].
    + tauto.
Qed.

Lemma map_snd_combine {A B} (xs : list A) (ys : list B) :
  List.length ys = List.length xs -> map snd (combine xs ys) = ys.
Proof.
  revert ys. induction xs as [|x xs IH]; intros [|y ys] H; try discriminate;
    cbn; [reflexivity|]. f_equal. apply IH. now injection H.
Qed.

Lemma map_fst_combine {A B} (xs : list A) (ys : list B) :
  List.length ys = List.length xs -> map fst (combine xs ys) = xs.
Proof.
  revert ys. induction xs as [|x xs IH]; intros [|y ys] H; try discriminate;
    cbn; [reflexivity|]. f_equal. apply IH. now injection H.
Qed.

(** With table names that are distinct and new to the dictionary, the
    loop appends one entry per table, in the order of the tables. *)
Lemma loop_shape (srv : server) (backup_type : string)
      (entries : list (string * string)) :
  forall backup_data header_written backup_data' header_written',
    NoDup (map fst entries) ->
    (forall t, In t (map fst entries) -> dict_get backup_data t = None) ->
    foldM (backup_table srv backup_type) (backup_data, header_written) entries
    = Ok (backup_data', header_written') ->
    exists lists,
      backup_data' = (backup_data ++ combine (map fst entries) lists)%list
      /\ List.length lists = List.length entries
      /\ (header_written = false ->
          forall l ls, lists = l :: ls ->
                       exists rest, l = _generate_backup_header :: rest).
Proof.
  induction entries as [|[t ty] entries IH]; intros bd hw bd' hw' Hnd Hnew H;
    cbn [foldM] in H.
  - inversion H; subst. exists []. cbn. rewrite app_nil_r.
    repeat split. intros _ l ls E. discriminate E.
  - bind_inv H as st Est. apply backup_table_shape in Est as (frags & -> & Hhead).
    cbn [map fst] in Hnd. apply NoDup_cons_iff in Hnd as [Hfresh Hnd].
    apply IH in H as (lists & -> & Hlen & _); [|exact Hnd|].
    + exists (frags :: lists).
      rewrite dict_set_absent by (apply Hnew; now left).
      rewrite <- app_assoc. cbn [map fst combine app List.length].
      repeat split; [now rewrite Hlen|].
      intros Hhw l ls E. inversion E; subst. now apply Hhead.
    + intros t' Ht'. rewrite dict_get_set_other.
      * apply Hnew. now right.
      * intros ->. contradiction.
Qed.

End ArtifactFacts.

(** X13.  The keys of the MySQL artifact are the names of the tables
    listed, [permissions] when the permissions are included, and
    [footer] when there is at least one table.  The two reserved keys
    hold the grants and the closing pragmas, also when a table has that
    name.  The backup of a database without tables is empty when the
    permissions are left out. *)
Theorem artifact_keys
        (srv : MySQL.server) (backup_type : string)
        (tables : option (list string)) (include_permissions : bool)
        (art : MySQL.artifact) (entries : list (string * string)) :
  MySQL.backup srv backup_type tables include_permissions = Ok art ->
  Spec2.mysql_entries srv tables = Ok entries ->
  (forall key,
      dict_get art key <> None
      <-> In key (map fst entries)
          \/ (include_permissions = true /\ key = "permissions")
          \/ (entries <> [] /\ key = "footer"))
  /\ (entries <> [] -> dict_get art "footer" = Some [MySQL._generate_backup_footer])
  /\ (include_permissions = true ->
      exists grants,
        MySQL.show_grants srv = Ok grants
        /\ dict_get art "permissions" = Some [MySQL.permissions_fragment grants])
  /\ (entries = [] -> include_permissions = false -> art = []).
Proof.
  intros H Hentries. unfold MySQL.backup in H.
  apply MySQLFacts.try_except_driver_ok in H; [|discriminate].
  unfold Spec2.mysql_entries in Hentries. rewrite Hentries in H. cbn [bind] in H.
  bind_inv H as st Eloop. destruct st as [bd hw].
  bind_inv H as bd1 Eperm. bind_inv H as closed Eclose.
  inversion H; subst art; clear H.
  pose proof Eloop as Eloop'.
  apply ArtifactFacts.loop_keys in Eloop as [Hkeys Hhw].
  cbn [orb] in Hhw. subst hw.
  assert (Hsome : Spec2.some_table entries = true <-> entries <> [])
    by (destruct entries; cbn; split; congruence).
  split; [|split; [|split]].
  - intros key.
    assert (Hbd1 : dict_get bd1 key <> None
                   <-> In key (map fst entries)
                       \/ (include_permissions = true /\ key = "permissions")).
    { destruct include_permissions.
      - bind_inv Eperm as grants Egrants. inversion Eperm; subst.
        rewrite dict_get_set.
        destruct (String.eqb_spec "permissions" key) as [<-|Hne].
        + split; [intros _; right; now split | discriminate].
        + rewrite Hkeys. cbn [dict_get]. split.
          * intros [Hx|Hx]; [congruence | now left].
          * intros [Hx|[_ Hx]]; [now right | congruence].
      - inversion Eperm; subst. rewrite Hkeys. cbn [dict_get]. split.
        + intros [Hx|Hx]; [congruence | now left].
        + intros [Hx|[Hx _]]; [now right | discriminate]. }
    destruct (Spec2.some_table entries) eqn:Es.
    + rewrite dict_get_set.
      destruct (String.eqb_spec "footer" key) as [<-|Hne].
      * split; [|discriminate]. intros _. right. right.
        split; [now apply Hsome | reflexivity].
      * rewrite Hbd1. split; [tauto|].
        intros [Hx|[Hx|[_ Hx]]]; [tauto | tauto | congruence].
    + rewrite Hbd1. split; [tauto|].
      intros [Hx|[Hx|[Hx _]]]; [tauto | tauto |].
      apply Hsome in Hx. congruence.
  - intros Hne. apply Hsome in Hne. rewrite Hne. apply dict_get_set_same.
  - intros ->. bind_inv Eperm as grants Egrants. inversion Eperm; subst.
    exists grants. split; [exact Egrants|].
    destruct (Spec2.some_table entries).
    + rewrite dict_get_set_other by discriminate. apply dict_get_set_same.
    + apply dict_get_set_same.
  - intros -> ->. cbn in Eloop'. inversion Eloop'; subst.
    now inversion Eperm.
Qed.

(** X13 on the blog database. *)
Lemma artifact_keys_witness :
  exists art,
    MySQL.backup Examples.blog_db "structure" None true = Ok art
    /\ map fst art = ["posts"; "drafts"; "recent"; "permissions"; "footer"]
    /\ dict_get art "footer" = Some [MySQL._generate_backup_footer].
Proof.
  destruct (MySQL.backup Examples.blog_db "structure" None true)
    as [art|e] eqn:E; [|discriminate E].
  exists art. split; [reflexivity|].
  destruct (artifact_keys _ _ _ _ _ _ E eq_refl) as (_ & Hfooter & _).
  split; [|apply Hfooter; discriminate].
  vm_compute in E. now inversion E.
Defined.

(* ================================================================= *)
(** * The single file of a MySQL backup *)

Section SingleFile.
Import PyStr.

Lemma join_empty_cons (x : string) (xs : list string) :
  join EmptyString (x :: xs) = x ++ join EmptyString xs.
Proof.
  unfold join. destruct xs as [|y ys]; cbn [String.concat].
  - now rewrite string_app_nil_r.
  - reflexivity.
Qed.

Lemma join_empty_app (xs ys : list string) :
  join EmptyString (xs ++ ys) = join EmptyString xs ++ join EmptyString ys.
Proof.
  induction xs as [|x xs IH]; [reflexivity|].
  change ((x :: xs) ++ ys)%list with (x :: (xs ++ ys))%list.
  now rewrite !join_empty_cons, IH, string_app_assoc.
Qed.

Lemma joined_app (a b : MySQL.artifact) :
  SaveBackup.joined (a ++ b)%list = SaveBackup.joined a ++ SaveBackup.joined b.
Proof.
  unfold SaveBackup.joined, dict_values. now rewrite !map_app, join_empty_app.
Qed.

Lemma joined_single (key text : string) :
  SaveBackup.joined [(key, [text])] = text.
Proof. reflexivity. Qed.

End SingleFile.

(** X14.  The single file of a MySQL backup.  When the tables listed
    have distinct names, none of them [permissions] or [footer], and
    there is at least one, the artifact holds the tables in the order
    listed, then the permissions if they are included, then the footer;
    the file that [save_backup_data] writes for it begins with the
    header, ends with the footer, and has the grants just before the
    footer. *)
Theorem single_file_layout
        (srv : MySQL.server) (backup_type : string)
        (tables : option (list string)) (include_permissions : bool)
        (art : MySQL.artifact) (entries : list (string * string))
        (can_open : string -> SaveBackup.open_outcome) (now : datetime)
        (output_file : string) (w : SaveBackup.world) :
  MySQL.backup srv backup_type tables include_permissions = Ok art ->
  Spec2.mysql_entries srv tables = Ok entries ->
  entries <> [] ->
  NoDup (map fst entries) ->
  ~ In "permissions" (map fst entries) ->
  ~ In "footer" (map fst entries) ->
  PyStr.truthy output_file = true ->
  can_open (SaveBackup.os_path_join "./single_backups" output_file)
  = SaveBackup.Opened ->
  exists middle permissions,
    map fst art
    = (map fst entries
         ++ (if include_permissions then ["permissions"] else [])
         ++ ["footer"])%list
    /\ (if include_permissions
        then exists grants, MySQL.show_grants srv = Ok grants
                            /\ permissions = MySQL.permissions_fragment grants
        else permissions = EmptyString)
    /\ let '(w', raised) :=
         SaveBackup.save_backup_data can_open now (BackupManager.Fragments art)
                                     (Some output_file) None (Some "mysql") w in
       raised = None
       /\ SaveBackup.stdout w' = SaveBackup.stdout w
       /\ dict_get (SaveBackup.files w')
                   (SaveBackup.os_path_join "./single_backups" output_file)
          = Some (MySQL._generate_backup_header ++ middle ++ permissions
                    ++ MySQL._generate_backup_footer).
Proof.
  intros H Hentries Hne Hnd Hperm Hfoot Hname Hopen. unfold MySQL.backup in H.
  apply MySQLFacts.try_except_driver_ok in H; [|discriminate].
  unfold Spec2.mysql_entries in Hentries. rewrite Hentries in H. cbn [bind] in H.
  bind_inv H as st Eloop. destruct st as [bd hw].
  bind_inv H as bd1 Eperm. bind_inv H as closed Eclose.
  inversion H; subst art; clear H.
  pose proof Eloop as Eloop'.
  apply ArtifactFacts.loop_keys in Eloop' as [_ Hhw].
  destruct entries as [|entry entries']; [congruence|]. cbn in Hhw. subst hw.
  apply ArtifactFacts.loop_shape in Eloop as (lists & Hbd & Hlen & Hhead);
    [|exact Hnd | reflexivity].
  cbn [app] in Hbd.
  destruct lists as [|l ls]; [discriminate Hlen|].
  destruct (Hhead eq_refl l ls eq_refl) as (rest & ->).
  set (names := map fst (entry :: entries')) in *.
  assert (Hkeys : map fst bd = names).
  { subst bd. apply ArtifactFacts.map_fst_combine.
    unfold names. now rewrite length_map. }
  assert (Hjoined : exists middle,
             SaveBackup.joined bd = MySQL._generate_backup_header ++ middle).
  { subst bd. destruct entry as [t ty]. cbn [names map fst combine].
    change ((t, MySQL._generate_backup_header :: rest)
              :: combine (map fst entries') ls)
      with ([(t, MySQL._generate_backup_header :: rest)]
              ++ combine (map fst entries') ls)%list.
    rewrite joined_app. unfold SaveBackup.joined at 1.
    cbn [dict_values map snd]. rewrite join_empty_cons.
    change (PyStr.join EmptyString []) with EmptyString.
    rewrite string_app_nil_r, join_empty_cons, string_app_assoc.
    eexists. reflexivity. }
  destruct Hjoined as (middle & Hjoined).
  assert (Hbd1 : exists permissions,
             bd1 = (bd ++ (if include_permissions
                           then [("permissions", [permissions])] else []))%list
             /\ (if include_permissions
                 then exists grants, MySQL.show_grants srv = Ok grants
                                     /\ permissions = MySQL.permissions_fragment grants
                 else permissions = EmptyString)).
  { destruct include_permissions.
    - bind_inv Eperm as grants Egrants. inversion Eperm; subst bd1.
      exists (MySQL.permissions_fragment grants). split.
      + apply dict_set_absent. apply dict_get_none_keys. now rewrite Hkeys.
      + now exists grants.
    - inversion Eperm; subst bd1. exists EmptyString.
      now rewrite app_nil_r. }
  destruct Hbd1 as (permissions & Hbd1 & Hgrants).
  assert (Hart : dict_set bd1 "footer" [MySQL._generate_backup_footer]
                 = (bd1 ++ [("footer", [MySQL._generate_backup_footer])])%list).
  { apply dict_set_absent. apply dict_get_none_keys. rewrite Hbd1, map_app, Hkeys.
    intros Hin. apply in_app_or in Hin as [Hin|Hin]; [contradiction|].
    destruct include_permissions; cbn in Hin; [|contradiction].
    destruct Hin as [Hin|[]]. discriminate Hin. }
  exists middle, permissions. cbv iota. split; [|split; [exact Hgrants|]].
  - rewrite Hart, Hbd1, !map_app, Hkeys, <- app_assoc.
    now destruct include_permissions.
  - unfold SaveBackup.save_backup_data, SaveBackup.given.
    rewrite Hname. cbn [SaveBackup.given]. rewrite Hopen.
    cbn [String.eqb Ascii.eqb Bool.eqb].
    repeat split.
    unfold SaveBackup.write_file. cbn [SaveBackup.files].
    rewrite dict_get_set_same. f_equal.
    rewrite Hart, Hbd1, !joined_app, joined_single, Hjoined, !string_app_assoc.
    do 2 f_equal.
    destruct include_permissions.
    + now rewrite joined_single.
    + now rewrite Hgrants.
Qed.

(** X14 on the blog database. *)
Lemma single_file_layout_witness :
  exists art middle permissions,
    MySQL.backup Examples.blog_db "structure_data" None true = Ok art
    /\ dict_get
         (SaveBackup.files
            (fst (SaveBackup.save_backup_data
                    (fun _ => SaveBackup.Opened)
                    (mkDatetime (mkDate 2024 1 2) 3 4 5 0)
                    (BackupManager.Fragments art) (Some "blog.sql") None
                    (Some "mysql") (SaveBackup.mkWorld [] []))))
         "./single_backups/blog.sql"
       = Some (MySQL._generate_backup_header ++ middle ++ permissions
                 ++ MySQL._generate_backup_footer).
Proof.
  destruct (MySQL.backup Examples.blog_db "structure_data" None true)
    as [art|e] eqn:E; [|discriminate E].
  destruct (single_file_layout
              Examples.blog_db "structure_data" None true art
              [("posts", "BASE TABLE"); ("drafts", "BASE TABLE"); ("recent", "VIEW")]
              (fun _ => SaveBackup.Opened) (mkDatetime (mkDate 2024 1 2) 3 4 5 0)
              "blog.sql" (SaveBackup.mkWorld [] []) E eq_refl)
    as (middle & permissions & _ & _ & Hsave).
  - discriminate.
  - repeat constructor; cbn; intuition discriminate.
  - cbn; intuition discriminate.
  - cbn; intuition discriminate.
  - reflexivity.
  - reflexivity.
  - exists art, middle, permissions. split; [reflexivity|].
    destruct (SaveBackup.save_backup_data _ _ _ _ _ _ _) as [w' raised].
    exact (proj2 (proj2 Hsave)).
Defined.

(* ================================================================= *)
(** * What a backup asks the server *)

Section BackupAsks.

Lemma foldM_ext {A B} (f g : A -> B -> result A) (xs : list B) :
  (forall a x, f a x = g a x) ->
  forall a, foldM f a xs = foldM g a xs.
Proof.
  intros Hfg. induction xs as [|x xs IH]; intros a; cbn [foldM]; [reflexivity|].
  rewrite Hfg. destruct (g a x) as [a'|e]; cbn [bind]; [apply IH | reflexivity].
Qed.

Lemma foldM_raise {A B} (f : A -> B -> result A) (xs : list B) (e : exn) :
  forall a, foldM f a xs = Raise e ->
            exists a' x, In x xs /\ f a' x = Raise e.
Proof.
  induction xs as [|x xs IH]; intros a H; cbn [foldM] in H; [discriminate|].
  destruct (f a x) as [a'|e'] eqn:E; cbn [bind] in H.
  - apply IH in H as (a'' & y & Hy & Hf). exists a'', y. split; [now right | exact Hf].
  - inversion H; subst. exists a, x. split; [now left | exact E].
Qed.

Lemma bind_raise {A B} (m : result A) (k : A -> result B) (e : exn) :
  bind m k = Raise e -> m = Raise e \/ exists a, m = Ok a /\ k a = Raise e.
Proof. destruct m as [a|e']; cbn; [right; eauto | left; congruence]. Qed.

Lemma mysql_turn_without_data (srv : MySQL.server) (backup_type : string)
      (rows : string -> result (list string * list (list pyvalue)))
      (st : MySQL.artifact * bool) (entry : string * string) :
  wants_data backup_type = false ->
  MySQL.backup_table (Spec2.mysql_with_rows srv rows) backup_type st entry
  = MySQL.backup_table srv backup_type st entry.
Proof.
  intros H. destruct st as [bd hw], entry as [t ty]. unfold MySQL.backup_table.
  rewrite H, andb_false_r. reflexivity.
Qed.

Lemma mysql_turn_without_structure (srv : MySQL.server) (backup_type : string)
      (create : string -> result string)
      (st : MySQL.artifact * bool) (entry : string * string) :
  wants_structure backup_type = false ->
  MySQL.backup_table (Spec2.mysql_with_create srv create) backup_type st entry
  = MySQL.backup_table srv backup_type st entry.
Proof.
  intros H. destruct st as [bd hw], entry as [t ty]. unfold MySQL.backup_table.
  rewrite H. reflexivity.
Qed.

End BackupAsks.

(** X15.  A MySQL backup asks the server only for what it dumps: with a
    backup type that has no data the rows of the tables are not read,
    and with a backup type that has no structure SHOW CREATE TABLE is
    not asked; whatever the server would answer, rows, other rows or a
    fault, the outcome of the backup is the same. *)
Theorem mysql_backup_asks_what_it_dumps
        (srv : MySQL.server) (backup_type : string)
        (tables : option (list string)) (include_permissions : bool)
        (rows : string -> result (list string * list (list pyvalue)))
        (create : string -> result string) :
  (wants_data backup_type = false ->
   MySQL.backup (Spec2.mysql_with_rows srv rows)
                backup_type tables include_permissions
   = MySQL.backup srv backup_type tables include_permissions)
  /\ (wants_structure backup_type = false ->
      MySQL.backup (Spec2.mysql_with_create srv create)
                   backup_type tables include_permissions
      = MySQL.backup srv backup_type tables include_permissions).
Proof.
  split; intros H; unfold MySQL.backup; f_equal.
  - change (MySQL.tables_all (Spec2.mysql_with_rows srv rows))
      with (MySQL.tables_all srv).
    change (MySQL.tables_in (Spec2.mysql_with_rows srv rows))
      with (MySQL.tables_in srv).
    destruct (match tables with
              | Some ts => MySQL.tables_in srv ts
              | None => MySQL.tables_all srv
              end) as [all_tables|e]; cbn [bind]; [|reflexivity].
    rewrite (foldM_ext _ (MySQL.backup_table srv backup_type))
      by (intros a x; now apply mysql_turn_without_data).
    reflexivity.
  - change (MySQL.tables_all (Spec2.mysql_with_create srv create))
      with (MySQL.tables_all srv).
    change (MySQL.tables_in (Spec2.mysql_with_create srv create))
      with (MySQL.tables_in srv).
    destruct (match tables with
              | Some ts => MySQL.tables_in srv ts
              | None => MySQL.tables_all srv
              end) as [all_tables|e]; cbn [bind]; [|reflexivity].
    rewrite (foldM_ext _ (MySQL.backup_table srv backup_type))
      by (intros a x; now apply mysql_turn_without_structure).
    reflexivity.
Qed.

(** X15 on the blog database: a server that refuses every SELECT gives
    the same structure backup, and it is not a failure. *)
Lemma mysql_backup_asks_what_it_dumps_witness :
  MySQL.backup
    (Spec2.mysql_with_rows Examples.blog_db
                           (fun _ => Raise (DriverFault "SELECT command denied")))
    "structure" None true
  = MySQL.backup Examples.blog_db "structure" None true
  /\ exists art, MySQL.backup Examples.blog_db "structure" None true = Ok art.
Proof.
  split.
  - apply (mysql_backup_asks_what_it_dumps
             Examples.blog_db "structure" None true
             (fun _ => Raise (DriverFault "SELECT command denied"))
             (fun _ => Ok EmptyString)).
    reflexivity.
  - eexists. vm_compute. reflexivity.
Defined.



(* ================================================================= *)
(** * The order of a Postgres script *)

Section PhaseOrder.

Lemma phases_block (r : nat) (xs ys : list Postgres.origin) :
  Forall (fun o => Spec2.rank o = r) xs ->
  Forall (fun o => r <= Spec2.rank o) ys ->
  Spec2.phases_in_order ys = true ->
  Spec2.phases_in_order (xs ++ ys) = true
  /\ Forall (fun o => r <= Spec2.rank o) (xs ++ ys).
Proof.
  intros Hxs Hys Hord. induction Hxs as [|x xs Hx Hxs [IHo IHf]]; cbn [app].
  - now split.
  - split.
    + cbn [Spec2.phases_in_order]. rewrite IHo, andb_true_r.
      apply forallb_forall. intros o Ho. apply Nat.leb_le. rewrite Hx.
      now apply (proj1 (Forall_forall _ _) IHf).
    + constructor; [lia | exact IHf].
Qed.

Lemma rank_of_map {A} (f : A -> Postgres.origin) (r : nat) (xs : list A) :
  (forall x, Spec2.rank (f x) = r) ->
  Forall (fun o => Spec2.rank o = r) (map f xs).
Proof. intros H. apply Forall_map. apply Forall_forall. intros x _. apply H. Qed.

Lemma rank_of_block {A} (f : A -> Postgres.origin) (r : nat) (b : bool)
      (xs : list A) :
  (forall x, Spec2.rank (f x) = r) ->
  Forall (fun o => Spec2.rank o = r) (if b then map f xs else []).
Proof. intros H. destruct b; [now apply rank_of_map | constructor]. Qed.

Lemma at_least_weaken (r r' : nat) (os : list Postgres.origin) :
  r' <= r ->
  Forall (fun o => r <= Spec2.rank o) os ->
  Forall (fun o => r' <= Spec2.rank o) os.
Proof. intros Hr. apply Forall_impl. intros o Ho. lia. Qed.

Lemma outline_in_order (srv : Postgres.server) (backup_type : string)
      (include_permissions : bool) (all_tables : list string)
      (include_sequences_and_types : bool) (sequences types : list string) :
  Spec2.phases_in_order
    (Spec.outline srv backup_type include_permissions all_tables
                  include_sequences_and_types sequences types) = true.
Proof.
  unfold Spec.outline.
  assert (H5 : Spec2.phases_in_order
                 (if include_permissions
                  then map Postgres.Permissions
                           (filter (Spec.has_grants srv) all_tables)
                  else []) = true
               /\ Forall (fun o => 5 <= Spec2.rank o)
                         (if include_permissions
                          then map Postgres.Permissions
                                   (filter (Spec.has_grants srv) all_tables)
                          else [])).
  { rewrite <- (app_nil_r (if include_permissions then _ else _)).
    apply phases_block; [now apply rank_of_block | constructor | reflexivity]. }
  destruct H5 as [O5 F5].
  edestruct (phases_block 4) as [O4 F4];
    [apply rank_of_block with (f := Postgres.ForeignKeys); reflexivity
    | apply (at_least_weaken 5); [lia | exact F5] | exact O5 |].
  edestruct (phases_block 3) as [O3 F3];
    [apply rank_of_block with (f := Postgres.TableData); reflexivity
    | apply (at_least_weaken 4); [lia | exact F4] | exact O4 |].
  edestruct (phases_block 2) as [O2 F2];
    [apply rank_of_block with (f := Postgres.TableStructure); reflexivity
    | apply (at_least_weaken 3); [lia | exact F3] | exact O3 |].
  edestruct (phases_block 1) as [O1 F1];
    [apply rank_of_block with (f := Postgres.SequenceStatement); reflexivity
    | apply (at_least_weaken 2); [lia | exact F2] | exact O2 |].
  edestruct (phases_block 0) as [O0 F0];
    [apply rank_of_block with (f := Postgres.TypeStatement); reflexivity
    | apply (at_least_weaken 1); [lia | exact F1] | exact O1 |].
  exact O0.
Qed.

End PhaseOrder.

Section TypePieces.
Import Postgres.

Lemma type_pieces_from_catalog (srv : server)
      (rows : list (string * string * string)) (types : dict (list string)) :
  enum_rows srv = Ok rows ->
  get_user_defined_types srv = Ok types ->
  Forall (Spec2.tagged_by_server srv)
         (map (fun '(type_name, labels) =>
                 mkPiece (TypeStatement type_name)
                         (create_type_statement type_name labels ++ nl))
              (dict_items types)).
Proof.
  intros Hrows H. unfold get_user_defined_types in H. rewrite Hrows in H.
  cbn [bind] in H. injection H as <-.
  unfold dict_items. apply Forall_map, Forall_forall. intros [n labels] Hin.
  apply dict_get_in in Hin; [|apply group_rows_nodup; constructor].
  rewrite group_rows_get in Hin. cbn [dict_get] in Hin.
  unfold Spec2.tagged_by_server. cbn [piece_origin piece_text].
  exists rows.
  destruct (Spec2.labels_of n rows) eqn:El; inversion Hin; subst.
  repeat split; [exact Hrows | discriminate].
Qed.

Lemma tagged_when_not_type (srv : server) (p : piece) :
  (forall type_name, piece_origin p <> TypeStatement type_name) ->
  Spec.well_tagged srv p -> Spec2.tagged_by_server srv p.
Proof.
  unfold Spec2.tagged_by_server, Spec.well_tagged.
  destruct (piece_origin p); intros Hne H; try exact H.
  now contradiction (Hne type_name).
Qed.

Lemma origins_not_type {A} (make : A -> origin) (xs : list A) (ps : list piece) :
  (forall x type_name, make x <> TypeStatement type_name) ->
  map piece_origin ps = map make xs ->
  Forall (fun p => forall type_name, piece_origin p <> TypeStatement type_name) ps.
Proof.
  intros Hmake. revert xs. induction ps as [|p ps IH]; intros [|x xs] H;
    try discriminate; constructor.
  - cbn in H. injection H as Hp _. rewrite Hp. apply Hmake.
  - cbn in H. injection H as _ Hps. now apply (IH xs).
Qed.

Lemma tagged_block {A} (srv : server) (make : A -> origin) (xs : list A)
      (ps : list piece) :
  (forall x type_name, make x <> TypeStatement type_name) ->
  map piece_origin ps = map make xs ->
  Forall (Spec.well_tagged srv) ps ->
  Forall (Spec2.tagged_by_server srv) ps.
Proof.
  intros Hmake Ho Hw. pose proof (origins_not_type make xs ps Hmake Ho) as Hn.
  rewrite Forall_forall in *. intros p Hp.
  apply tagged_when_not_type; [now apply Hn | now apply Hw].
Qed.

(** Every piece of a script is the statement that its origin names,
    built from the answers of the server. *)
Lemma backup_pieces_tagged_by_server (srv : server) (backup_type : string)
      (tables : option (list string)) (include_permissions : bool)
      (pieces : list piece) :
  backup_pieces srv backup_type tables include_permissions = Ok pieces ->
  Forall (Spec2.tagged_by_server srv) pieces.
Proof.
  intros Hpieces.
  pose proof (PostgresFacts.backup_pieces_well_tagged _ _ _ _ _ Hpieces) as Hall.
  revert Hall. unfold backup_pieces in Hpieces. rename Hpieces into H.
  bind_inv H as target Etarget. destruct target as [all_tables incl].
  bind_inv H as steps Esteps. clear steps Esteps.
  bind_inv H as gathered Egathered. destruct gathered as [defs deps].
  bind_inv H as retrieved Eretrieved. destruct retrieved as [sequences types].
  bind_inv H as sequences_sql Eseq.
  bind_inv H as structure Estructure. destruct structure as [tables_sql fks].
  bind_inv H as data_sql Edata.
  bind_inv H as permissions_sql Eperm.
  bind_inv H as closed Eclosed. inversion H; subst pieces; clear H.
  intros Hall.
  apply Forall_app in Hall as [_ Hall]. apply Forall_app in Hall as [Hseq Hall].
  apply Forall_app in Hall as [Htab Hall]. apply Forall_app in Hall as [Hdat Hall].
  apply Forall_app in Hall as [Hfk Hperm].
  repeat (apply Forall_app; split).
  - destruct (wants_structure backup_type && incl) eqn:Ew; [|constructor].
    apply andb_prop in Ew as [_ ->].
    bind_inv Eretrieved as sequences' Eseqs.
    bind_inv Eretrieved as types' Etypes. inversion Eretrieved; subst.
    pose proof Etypes as Etypes'.
    unfold get_user_defined_types in Etypes'.
    destruct (enum_rows srv) as [rows|e] eqn:Erows; [|discriminate Etypes'].
    now apply (type_pieces_from_catalog srv rows).
  - destruct (wants_structure backup_type && incl).
    + apply (tagged_block srv SequenceStatement sequences);
        [discriminate | now apply (PostgresFacts.sequence_pieces_origins srv) | exact Hseq].
    + inversion Eseq. constructor.
  - destruct (wants_structure backup_type).
    + apply PostgresFacts.structure_phase_ok in Estructure as [_ Hps].
      apply (tagged_block srv TableStructure all_tables);
        [discriminate
        | now apply PostgresFacts.structure_phase_origins in Hps
        | exact Htab].
    + inversion Estructure. constructor.
  - destruct (wants_data backup_type).
    + apply (tagged_block srv TableData (filter (Spec.has_rows srv) all_tables));
        [discriminate | now apply PostgresFacts.data_phase_ok | exact Hdat].
    + inversion Edata. constructor.
  - destruct (wants_structure backup_type); [|constructor].
    apply PostgresFacts.structure_phase_ok in Estructure as [-> _].
    apply (tagged_block srv ForeignKeys
                        (filter (Spec.has_foreign_keys srv) all_tables));
      [discriminate | apply PostgresFacts.foreign_key_phase_origins | exact Hfk].
  - destruct include_permissions.
    + apply (tagged_block srv Permissions (filter (Spec.has_grants srv) all_tables));
        [discriminate | now apply PostgresFacts.permission_phase_ok | exact Hperm].
    + inversion Eperm. constructor.
Qed.

End TypePieces.

(** X17.  The order of a Postgres script.  Every script is the preamble
    followed by its statements in this order: enum types, sequences,
    table structures, rows, foreign keys, grants; no statement of a
    later kind comes before one of an earlier kind.  Each statement is
    the one that the builder of its kind returns for the answers of the
    server: a CREATE TYPE statement is built from the labels that the
    enum query returns for the type, which has at least one. *)
Theorem postgres_script_phases
        (srv : Postgres.server) (backup_type : string)
        (tables : option (list string)) (include_permissions : bool)
        (script : string) :
  Postgres.backup srv backup_type tables include_permissions = Ok script ->
  exists pieces,
    script = Postgres.preamble ++ Postgres.text_of pieces
    /\ Spec2.phases_in_order (map Postgres.piece_origin pieces) = true
    /\ Forall (Spec2.tagged_by_server srv) pieces.
Proof.
  unfold Postgres.backup. intros H. bind_inv H as pieces Epieces.
  inversion H; subst script; clear H.
  exists pieces. split; [reflexivity|]. split.
  - destruct (PostgresFacts.backup_pieces_outline _ _ _ _ _ Epieces)
      as (all_tables & incl & sequences & types & _ & ->).
    apply outline_in_order.
  - eapply backup_pieces_tagged_by_server. exact Epieces.
Qed.

(** X17 on the shop database. *)
Lemma postgres_script_phases_witness :
  exists script pieces,
    Postgres.backup Examples.shop_db "structure_data" None true = Ok script
    /\ script = Postgres.preamble ++ Postgres.text_of pieces
    /\ Spec2.phases_in_order (map Postgres.piece_origin pieces) = true.
Proof.
  destruct (Postgres.backup Examples.shop_db "structure_data" None true)
    as [script|e] eqn:E; [|discriminate E].
  destruct (postgres_script_phases _ _ _ _ _ E) as (pieces & Hs & Ho & _).
  exists script, pieces. repeat split; assumption.
Defined.

(** X18.  Nothing to dump.  With an empty list of tables, and also with
    a backup type that is none of structure, data and structure_data
    when the permissions are left out, a Postgres backup that succeeds
    returns the bare preamble; it is not an error. *)
Theorem postgres_nothing_to_dump
        (srv : Postgres.server) (backup_type : string)
        (tables : option (list string)) (include_permissions : bool)
        (script : string) :
  tables = Some []
  \/ (wants_structure backup_type = false /\ wants_data backup_type = false
      /\ include_permissions = false) ->
  Postgres.backup srv backup_type tables include_permissions = Ok script ->
  script = Postgres.preamble.
Proof.
  unfold Postgres.backup. intros Hcase H. bind_inv H as pieces Epieces.
  inversion H; subst script; clear H.
  destruct (PostgresFacts.backup_pieces_outline _ _ _ _ _ Epieces)
    as (all_tables & incl & sequences & types & Htarget & Horigins).
  assert (Hnil : pieces = []).
  { apply map_eq_nil with (f := Postgres.piece_origin). rewrite Horigins.
    unfold Spec.outline. destruct Hcase as [->|(Hs & Hd & ->)].
    - cbn in Htarget. inversion Htarget; subst.
      rewrite andb_false_r. cbn [filter map].
      destruct (wants_structure backup_type), (wants_data backup_type),
        include_permissions; reflexivity.
    - rewrite Hs, Hd. reflexivity. }
  subst pieces. unfold Postgres.render.
  change (Postgres.text_of []) with EmptyString. apply string_app_nil_r.
Qed.

(** X18 on the shop database, with a misspelt backup type. *)
Lemma postgres_nothing_to_dump_witness :
  Postgres.backup Examples.shop_db "strucure" None false = Ok Postgres.preamble.
Proof.
  destruct (Postgres.backup Examples.shop_db "strucure" None false)
    as [script|e] eqn:E; [|discriminate E].
  f_equal.
  apply (postgres_nothing_to_dump Examples.shop_db "strucure" None false script);
    [right; repeat split; reflexivity | exact E].
Defined.

(* ================================================================= *)
(** * Failures of a MySQL backup *)

Section MySQLFailures.

Lemma mysql_turn_raise (srv : MySQL.server) (backup_type : string)
      (st : MySQL.artifact * bool) (entry : string * string) (e : exn) :
  Spec2.mysql_driver_faults_only srv ->
  MySQL.backup_table srv backup_type st entry = Raise e ->
  Spec2.driver_fault e.
Proof.
  intros (_ & _ & Hshow & Hselect & _) H.
  destruct st as [bd hw], entry as [t ty]. unfold MySQL.backup_table in H.
  destruct (negb hw); cbv iota beta in H;
  apply bind_raise in H as [H|(frags & E1 & H)].
  all: try (destruct (wants_structure backup_type); [|discriminate H];
            apply bind_raise in H as [H|(stmt & _ & H)]; [|discriminate H];
            eapply Hshow; exact H).
  all: apply bind_raise in H as [H|(frags' & _ & H)]; [|discriminate H];
    destruct (String.eqb ty "BASE TABLE" && wants_data backup_type);
      [|discriminate H];
    apply bind_raise in H as [H|([cols rows] & _ & H)];
    [eapply Hselect; exact H | destruct rows; discriminate H].
Qed.

Lemma mysql_body_raise (srv : MySQL.server) (backup_type : string)
      (tables : option (list string)) (include_permissions : bool) (e : exn) :
  Spec2.mysql_driver_faults_only srv ->
  MySQL.backup srv backup_type tables include_permissions = Raise e ->
  exists msg,
    e = BackupError ("Error during backup: " ++ msg) (DriverFault msg).
Proof.
  intros Hsrv H. pose proof Hsrv as (Hall & Hin & _ & _ & Hgrants & Hclose).
  unfold MySQL.backup in H.
  match type of H with
  | try_except_driver ?b _ = _ =>
      assert (Hbody : forall e0, b = Raise e0 -> Spec2.driver_fault e0);
      [|destruct b as [art|e0]]
  end.
  - intros e0 H0.
    apply bind_raise in H0 as [H0|(all_tables & _ & H0)].
    { destruct tables; [eapply Hin | eapply Hall]; exact H0. }
    apply bind_raise in H0 as [H0|([bd hw] & _ & H0)].
    { apply foldM_raise in H0 as (a' & x & _ & H0).
      eapply mysql_turn_raise; eassumption. }
    apply bind_raise in H0 as [H0|(bd1 & _ & H0)].
    { destruct include_permissions; [|discriminate H0].
      apply bind_raise in H0 as [H0|(grants & _ & H0)]; [|discriminate H0].
      eapply Hgrants. exact H0. }
    apply bind_raise in H0 as [H0|(closed & _ & H0)]; [|discriminate H0].
    eapply Hclose. exact H0.
  - discriminate H.
  - destruct (Hbody e0 eq_refl) as (msg & ->). cbn in H.
    inversion H. now exists msg.
Qed.

End MySQLFailures.

(** X19.  Failures of a MySQL backup.  When whatever the server raises
    is a driver fault, every failure of the MySQL backup is a
    BackupError whose message is [Error during backup: ] followed by
    the driver's message and whose cause is the fault; the manager
    raises it again inside a second BackupError, [Failed to perform
    backup: ] followed by the first message, with the first error as
    its cause. *)
Theorem mysql_backup_failure_chain
        (srv : MySQL.server) (backup_type : string)
        (tables : option (list string)) (include_permissions : bool) (e : exn) :
  Spec2.mysql_driver_faults_only srv ->
  MySQL.backup srv backup_type tables include_permissions = Raise e ->
  exists msg,
    e = BackupError ("Error during backup: " ++ msg) (DriverFault msg)
    /\ BackupManager.backup (BackupManager.MySQLBackup srv)
                            backup_type tables include_permissions
       = Raise (BackupError
                  ("Failed to perform backup: Error during backup: " ++ msg) e).
Proof.
  intros Hsrv H.
  destruct (mysql_body_raise _ _ _ _ _ Hsrv H) as (msg & ->).
  exists msg. split; [reflexivity|].
  unfold BackupManager.backup. rewrite H. reflexivity.
Qed.

(** X19 on a server that has gone away. *)
Lemma mysql_backup_failure_chain_witness :
  BackupManager.backup (BackupManager.MySQLBackup Examples.broken_mysql)
                       "structure_data" None false
  = Raise (BackupError
             "Failed to perform backup: Error during backup: server has gone away"
             (BackupError "Error during backup: server has gone away"
                          (DriverFault "server has gone away"))).
Proof.
  assert (Hsrv : Spec2.mysql_driver_faults_only Examples.broken_mysql).
  { repeat split; intros; cbn in *;
      match goal with H : Raise _ = Raise _ |- _ => inversion H end;
      eexists; reflexivity. }
  destruct (mysql_backup_failure_chain
              Examples.broken_mysql "structure_data" None false _ Hsrv eq_refl)
    as (msg & Hmsg & Hmanager).
  inversion Hmsg; subst msg. exact Hmanager.
Defined.

(* ================================================================= *)
(** * A terminator inside a string literal *)

Section TerminatorInLiteral.
Import PyStr.

Lemma prefix_free (c : ascii) (sub s : string) :
  prefix sub s = true -> Spec.free_of c s = true -> Spec.free_of c sub = true.
Proof.
  revert s. induction sub as [|x sub IH]; intros s Hp Hf; [reflexivity|].
  destruct s as [|y s]; [discriminate Hp|]. cbn [prefix] in Hp.
  destruct (Ascii.ascii_dec x y) as [->|]; [|discriminate Hp].
  cbn [Spec.free_of] in Hf |- *. apply andb_prop in Hf as [Hy Hs].
  rewrite Hy. cbn [andb]. eapply IH; eassumption.
Qed.

Lemma contains_free (c : ascii) (sub s : string) :
  contains sub s = true -> Spec.free_of c s = true -> Spec.free_of c sub = true.
Proof.
  induction s as [|y s IH]; cbn [contains]; intros Hc Hf.
  - rewrite orb_false_r in Hc. eapply prefix_free; eassumption.
  - apply orb_prop in Hc as [Hp|Hc]; [eapply prefix_free; eassumption|].
    cbn [Spec.free_of] in Hf. apply andb_prop in Hf as [_ Hs]. now apply IH.
Qed.

Lemma double_quotes_keeps (c : ascii) (s : string) :
  Ascii.eqb "'" c = false ->
  Spec.free_of c (Spec.double_quotes s) = Spec.free_of c s.
Proof.
  intros Hc. induction s as [|x s IH]; [reflexivity|].
  cbn [Spec.double_quotes]. destruct (Ascii.eqb x "'") eqn:E.
  - apply Ascii.eqb_eq in E. subst x. cbn [Spec.free_of].
    rewrite Hc, IH. reflexivity.
  - cbn [Spec.free_of]. now rewrite IH.
Qed.

Lemma quoted_literal_not_free (s : string) :
  Spec.free_of ";" s = false ->
  Spec.free_of ";" ("'" ++ replace "'" "''" s ++ "'") = false.
Proof.
  intros H. rewrite replace_quote_doubles, !free_of_app.
  rewrite double_quotes_keeps by reflexivity. rewrite H.
  now rewrite andb_false_r.
Qed.

End TerminatorInLiteral.

(** X20.  A terminator inside a string value.  The encoders of both
    families leave a [;] of a string value inside the literal, and the
    reader of the restore cuts the text at every [;]: of a dump with
    such a value, no command that the reader returns holds the literal,
    so the statement with the value is never replayed whole. *)
Theorem literal_with_terminator_is_cut
        (fs : filesystem) (file_path : string) (commands : list string)
        (s command : string) :
  Spec.free_of ";" s = false ->
  read_sql_commands_from_file fs file_path = Ok commands ->
  In command commands ->
  PyStr.contains (MySQL._format_value (VStr s)) command = false
  /\ exists literal,
      Postgres.format_value (VStr s) = Ok literal
      /\ PyStr.contains literal command = false.
Proof.
  intros Hs Hread Hin.
  apply commands_free in Hread.
  pose proof (proj1 (Forall_forall _ _) Hread command Hin) as Hfree.
  assert (Hlit : forall literal,
             Spec.free_of ";" literal = false ->
             PyStr.contains literal command = false).
  { intros literal Hl. destruct (PyStr.contains literal command) eqn:E; [|reflexivity].
    apply (contains_free ";") in E; [congruence | exact Hfree]. }
  split.
  - apply Hlit. now apply quoted_literal_not_free.
  - eexists. split; [reflexivity|].
    apply Hlit. now apply quoted_literal_not_free.
Qed.

(** X20 on a dump of one row. *)
Lemma literal_with_terminator_is_cut_witness :
  MySQL._format_value (VStr "a;b") = "'a;b'"
  /\ read_sql_commands_from_file
       (file_holding "INSERT INTO t VALUES ('a;b');") "dump.sql"
     = Ok ["INSERT INTO t VALUES ('a"; "b')"]
  /\ PyStr.contains (MySQL._format_value (VStr "a;b")) "INSERT INTO t VALUES ('a"
     = false.
Proof.
  split; [reflexivity|]. split; [reflexivity|].
  apply (literal_with_terminator_is_cut
           (file_holding "INSERT INTO t VALUES ('a;b');") "dump.sql"
           ["INSERT INTO t VALUES ('a"; "b')"] "a;b" "INSERT INTO t VALUES ('a");
    [reflexivity | reflexivity | now left].
Defined.

(* ================================================================= *)
(** * The default of a serial column *)

Section SerialDefault.
Import PyStr.

Lemma replace_from_free (c : ascii) (old new s : string) :
  Spec.free_of c old = false ->
  Spec.free_of c s = true ->
  replace_from old new 0 s = s.
Proof.
  intros Hold. induction s as [|x s IH]; intros Hs; [reflexivity|].
  cbn [replace_from].
  destruct (prefix old (String x s)) eqn:E.
  - apply (prefix_free c) in E; [congruence | exact Hs].
  - cbn [Spec.free_of] in Hs. apply andb_prop in Hs as [_ Hs].
    now rewrite IH.
Qed.

Lemma replace_nextval (rest : string) :
  Spec.free_of "(" rest = true ->
  replace "nextval('" "nextval('public." ("nextval('" ++ rest)
  = "nextval('public." ++ rest.
Proof.
  intros H. cbn. rewrite prefix_empty.
  rewrite (replace_from_free "("); [reflexivity | reflexivity | exact H].
Qed.

End SerialDefault.

(** X21.  The default of a serial column.  For a column whose type is
    not user-defined and whose default is [nextval('] followed by a text
    without opening parenthesis, the column definition of CREATE TABLE
    is the tab, the name, the type ([text[]] for a type with ARRAY in
    its name, [character(100)] for [character], the data type itself
    otherwise) and the default with the sequence in the schema public,
    [DEFAULT nextval('public.] and the same text, followed by NOT NULL
    exactly when the column is not nullable. *)
Theorem serial_default_in_public
        (name type nullable rest : string) :
  String.eqb type "USER-DEFINED" = false ->
  Spec.free_of "(" rest = true ->
  Postgres.column_definition
    (Postgres.mkColumn name type nullable (Some ("nextval('" ++ rest)))
  = tab ++ name ++ " "
        ++ (if PyStr.contains "ARRAY" type then "text[]"
            else if String.eqb type "character" then "character(100)"
            else type)
        ++ " DEFAULT nextval('public." ++ rest
        ++ (if String.eqb nullable "NO" then " NOT NULL" else EmptyString).
Proof.
  intros Htype Hrest. unfold Postgres.column_definition.
  cbn [Postgres.data_type Postgres.col_default Postgres.col_name
       Postgres.is_nullable].
  rewrite Htype.
  assert (Hdefault :
            forall col_def,
              match Some ("nextval('" ++ rest) with
              | Some default =>
                  if PyStr.truthy default then
                    col_def ++ " DEFAULT "
                    ++ (if PyStr.contains "nextval(" default
                        then PyStr.replace "nextval('" "nextval('public." default
                        else default)
                  else col_def
              | None => col_def
              end = col_def ++ " DEFAULT nextval('public." ++ rest).
  { intros col_def.
    change (PyStr.truthy ("nextval('" ++ rest)) with true. cbv iota.
    replace (PyStr.contains "nextval(" ("nextval('" ++ rest)) with true
      by reflexivity.
    now rewrite replace_nextval. }
  destruct (PyStr.contains "ARRAY" type);
    [|destruct (String.eqb type "character")];
    cbv beta iota zeta; rewrite Hdefault;
    (destruct (String.eqb nullable "NO");
     rewrite ?string_app_assoc, ?string_app_nil_r; reflexivity).
Qed.

(** X21 on the columns of an identifier and of a list of tags. *)
Lemma serial_default_in_public_witness :
  Postgres.column_definition
    (Postgres.mkColumn "id" "integer" "NO"
                       (Some "nextval('customers_id_seq'::regclass)"))
  = tab ++ "id integer DEFAULT nextval('public.customers_id_seq'::regclass) NOT NULL"
  /\ Postgres.column_definition
       (Postgres.mkColumn "tag_ids" "ARRAY" "YES"
                          (Some "nextval('tag_seq'::regclass)"))
     = tab ++ "tag_ids text[] DEFAULT nextval('public.tag_seq'::regclass)".
Proof.
  split.
  - exact (serial_default_in_public
             "id" "integer" "NO" "customers_id_seq'::regclass)" eq_refl eq_refl).
  - exact (serial_default_in_public
             "tag_ids" "ARRAY" "YES" "tag_seq'::regclass)" eq_refl eq_refl).
Defined.

(* ================================================================= *)
(** * What saving touches *)

Section SaveFrame.
Import SaveBackup.


End SaveFrame.


